(** * ci_bot.py: a shallow embedding and its verified properties

    The development follows the layout of [ci_bot.py]:
    - [Py]       the fragment of Python the script relies on (exceptions,
                 [str] methods, [os.path] helpers);
    - [Poller]   [fetch_progress];
    - [Notifier] [edit_message], [edit_photo_caption], [send_file],
                 [create_download_buttons];
    - [Monitor]  [monitor_progress];
    - [Uploader] [upload_rclone], [upload_gofile], [upload_file],
                 [find_rom_zip];
    - [Runner]   [handle_interrupt] and the success/failure test of [main];
    - [Main]     the steps of [main] around the build: old logs, build
                 command, duration;
    - [Tail]     [tail_build_log];
    - [Manifest] [detect_android_version] and the ROM name read from the
                 manifest remote.
    The properties follow the definitions, component by component.

    Conventions.  A Python [str] is held as its UTF-8 encoding, a [string]
    with one [ascii] for every byte.  The preferred encoding of the
    interpreter is UTF-8: a file opened in text mode is decoded strictly, and
    bytes that are not well-formed make the read raise.  The class [\d] and
    [str.strip] work on code points, with the decimal digits and the white
    space of the Unicode character database (version 14.0, that of
    CPython 3.11); [str.lower] and [str.title] change ASCII letters only.
    Output on stdout is not modelled; output on stderr and every call that
    leaves the process (HTTP requests, signals sent to the child) is recorded
    as an [event].  External tools and services are oracles: their answers,
    already decoded, are parameters of the functions that call them. *)

From stdpp Require Import base tactics option list gmap strings.
From Stdlib Require Import Ascii ZArith Lia DecimalString.

Local Open Scope Z_scope.

(** ** Python fragment *)

Module Py.

(** The two kinds of [BaseException] the script meets: anything below
    [Exception] (caught by [except Exception]), and [SystemExit], which only a
    bare [except:] catches. *)
Inductive exn : Type :=
| Exception (what : string)
| SystemExit (code : Z).

(** The outcome of running a statement.  [OutOfFuel] is not a Python
    outcome: it marks a [while True] loop that has not finished within the
    number of turns the model was given. *)
Inductive result (A : Type) : Type :=
| Ret (a : A)
| Raise (e : exn)
| OutOfFuel.
Arguments Ret {A} a.
Arguments Raise {A} e.
Arguments OutOfFuel {A}.

Definition bind {A B} (m : result A) (k : A -> result B) : result B :=
  match m with
  | Ret a => k a
  | Raise e => Raise e
  | OutOfFuel => OutOfFuel
  end.

(** [try: body  except: handler] *)
Definition try_bare {A} (body : result A) (handler : result A) : result A :=
  match body with
  | Raise _ => handler
  | other => other
  end.

(** *** Characters *)

Definition code (c : ascii) : N := N_of_ascii c.

(** The digits [str(n)] is written with. *)
Definition is_ascii_digit (c : ascii) : bool :=
  (48 <=? code c)%N && (code c <=? 57)%N.

Definition is_upper (c : ascii) : bool :=
  (65 <=? code c)%N && (code c <=? 90)%N.

Definition is_lower (c : ascii) : bool :=
  (97 <=? code c)%N && (code c <=? 122)%N.

Definition to_lower (c : ascii) : ascii :=
  if is_upper c then ascii_of_N (code c + 32) else c.

Definition to_upper (c : ascii) : ascii :=
  if is_lower c then ascii_of_N (code c - 32) else c.

(** *** Code points *)

(** A continuation byte, [10xxxxxx]. *)
Definition is_continuation (c : ascii) : bool :=
  (128 <=? code c)%N && (code c <? 192)%N.

(** The code point at the head of [s] and the number of bytes that encode
    it; [None] when [s] is empty or does not begin with a well-formed
    sequence.  As in the strict decoder, a sequence is in shortest form, is no
    surrogate and does not exceed U+10FFFF. *)
Definition decode1 (s : string) : option (N * nat) :=
  match s with
  | EmptyString => None
  | String b0 s1 =>
      if (code b0 <? 128)%N then Some (code b0, 1%nat)
      else
        match s1 with
        | EmptyString => None
        | String b1 s2 =>
            if negb (is_continuation b1) then None
            else if (194 <=? code b0)%N && (code b0 <? 224)%N then
              Some (((code b0 - 192) * 64 + (code b1 - 128))%N, 2%nat)
            else
              match s2 with
              | EmptyString => None
              | String b2 s3 =>
                  if negb (is_continuation b2) then None
                  else if (224 <=? code b0)%N && (code b0 <? 240)%N then
                    let cp :=
                      ((code b0 - 224) * 4096 + (code b1 - 128) * 64
                       + (code b2 - 128))%N in
                    if (2048 <=? cp)%N
                       && negb ((55296 <=? cp)%N && (cp <? 57344)%N)
                    then Some (cp, 3%nat)
                    else None
                  else
                    match s3 with
                    | EmptyString => None
                    | String b3 _ =>
                        if negb (is_continuation b3) then None
                        else if (240 <=? code b0)%N && (code b0 <? 245)%N then
                          let cp :=
                            ((code b0 - 240) * 262144
                             + (code b1 - 128) * 4096
                             + (code b2 - 128) * 64 + (code b3 - 128))%N in
                          if (65536 <=? cp)%N && (cp <? 1114112)%N
                          then Some (cp, 4%nat)
                          else None
                        else None
                    end
              end
        end
  end.

(** The digit zero of every script that has decimal digits (general category
    [Nd]); the nine code points after each are its digits one to nine. *)
Definition decimal_zeros : list N :=
  [48; 1632; 1776; 1984; 2406; 2534; 2662; 2790; 2918; 3046; 3174; 3302;
   3430; 3558; 3664; 3792; 3872; 4160; 4240; 6112; 6160; 6470; 6608; 6784;
   6800; 6992; 7088; 7232; 7248; 42528; 43216; 43264; 43472; 43504; 43600;
   44016; 65296; 66720; 68912; 69734; 69872; 69942; 70096; 70384; 70736;
   70864; 71248; 71360; 71472; 71904; 72016; 72784; 73040; 73120; 92768;
   92864; 93008; 120782; 120792; 120802; 120812; 120822; 123200; 123632;
   125264; 130032]%N.

(** What [\d] matches in a [str] pattern: any decimal digit. *)
Definition is_decimal (cp : N) : bool :=
  existsb (fun zero => (zero <=? cp)%N && (cp <? zero + 10)%N) decimal_zeros.

(** [str.isspace] of one character, which is what [str.strip] removes:
    TAB..CR, FS..US, the blank, NEL, the no-break space and the spaces and
    line separators beyond Latin-1. *)
Definition is_whitespace (cp : N) : bool :=
  ((9 <=? cp)%N && (cp <=? 13)%N)
  || ((28 <=? cp)%N && (cp <=? 32)%N)
  || (cp =? 133)%N || (cp =? 160)%N || (cp =? 5760)%N
  || ((8192 <=? cp)%N && (cp <=? 8202)%N)
  || (cp =? 8232)%N || (cp =? 8233)%N || (cp =? 8239)%N
  || (cp =? 8287)%N || (cp =? 12288)%N.

(** *** Strings *)

Fixpoint all_chars (p : ascii -> bool) (s : string) : bool :=
  match s with
  | EmptyString => true
  | String c s' => p c && all_chars p s'
  end.

Fixpoint map_chars (f : ascii -> ascii) (s : string) : string :=
  match s with
  | EmptyString => EmptyString
  | String c s' => String (f c) (map_chars f s')
  end.

(** [s.lower()] *)
Definition lower (s : string) : string := map_chars to_lower s.

(** Truth value of a [str]: non-empty. *)
Definition truthy (s : string) : bool :=
  match s with
  | EmptyString => false
  | String _ _ => true
  end.

(** [s.startswith(p)] *)
Fixpoint startswith (p s : string) : bool :=
  match p, s with
  | EmptyString, _ => true
  | String a p', String b s' => if ascii_dec a b then startswith p' s' else false
  | String _ _, EmptyString => false
  end.

(** [sub in s] *)
Fixpoint contains (sub s : string) : bool :=
  startswith sub s
  || match s with
     | EmptyString => false
     | String _ s' => contains sub s'
     end.

(** Every character of [s] is well formed and in the class [p].  [skip]
    counts the bytes of the current character still to be passed. *)
Fixpoint all_points_go (p : N -> bool) (skip : nat) (s : string) : bool :=
  match s with
  | EmptyString => true
  | String _ s' =>
      match skip with
      | S k => all_points_go p k s'
      | O =>
          match decode1 s with
          | Some (cp, n) => p cp && all_points_go p (Nat.pred n) s'
          | None => false
          end
      end
  end.

Definition all_points (p : N -> bool) (s : string) : bool :=
  all_points_go p O s.

(** [s] is well-formed UTF-8. *)
Definition utf8 (s : string) : bool := all_points (fun _ => true) s.

(** [bytes.decode()], which the reading of a file in text mode goes
    through. *)
Definition decode (bytes : string) : result string :=
  if utf8 bytes then Ret bytes else Raise (Exception "UnicodeDecodeError").

(** The number of bytes of the character at the head of [s] when it is in the
    class [p], and 0 otherwise. *)
Definition width (p : N -> bool) (s : string) : nat :=
  match decode1 s with
  | Some (cp, n) => if p cp then n else O
  | None => O
  end.

(** [s.lstrip()], [s.rstrip()], [s.strip()] *)
Fixpoint lstrip_go (skip : nat) (s : string) : string :=
  match s with
  | EmptyString => EmptyString
  | String _ s' =>
      match skip with
      | S k => lstrip_go k s'
      | O =>
          match width is_whitespace s with
          | S k => lstrip_go k s'
          | O => s
          end
      end
  end.

Definition lstrip (s : string) : string := lstrip_go O s.

(** At the start of a character: what follows is dropped when it is white
    space up to the end, and otherwise the character is kept. *)
Fixpoint rstrip_go (skip : nat) (s : string) : string :=
  match s with
  | EmptyString => EmptyString
  | String c s' =>
      match skip with
      | S k => String c (rstrip_go k s')
      | O =>
          if all_points is_whitespace s then EmptyString
          else String c (rstrip_go (Nat.pred (width (fun _ => true) s)) s')
      end
  end.

Definition rstrip (s : string) : string := rstrip_go O s.

Definition strip (s : string) : string := rstrip (lstrip s).

(** [str(n)] for a non-negative [int]. *)
Definition str_of_nat (n : nat) : string :=
  NilEmpty.string_of_uint (Nat.to_uint n).

(** [s.replace(old, new)] for a non-empty [old]: occurrences are replaced
    left to right without overlap; [skip] counts the characters of an
    occurrence still to be dropped. *)
Fixpoint replace_go (old new : string) (skip : nat) (s : string) : string :=
  match s with
  | EmptyString => EmptyString
  | String c s' =>
      match skip with
      | S k => replace_go old new k s'
      | O =>
          if startswith old s
          then new +:+ replace_go old new (Nat.pred (String.length old)) s'
          else String c (replace_go old new O s')
      end
  end.

Definition replace (old new s : string) : string := replace_go old new O s.

(** [s.title()]: the first cased character of every run of letters is made
    upper case, the others lower case. *)
Fixpoint title_go (previous_is_cased : bool) (s : string) : string :=
  match s with
  | EmptyString => EmptyString
  | String c s' =>
      if is_lower c then
        String (if previous_is_cased then c else to_upper c) (title_go true s')
      else if is_upper c then
        String (if previous_is_cased then to_lower c else c) (title_go true s')
      else String c (title_go false s')
  end.

Definition title (s : string) : string := title_go false s.

(** *** [os.path] on POSIX *)

Definition is_char (a c : ascii) : bool := bool_decide (a = c).

(** [p[:i+1], p[i+1:]] for [i = p.rfind('/')]. *)
Fixpoint rsplit_sep (p : string) : string * string :=
  match p with
  | EmptyString => (EmptyString, EmptyString)
  | String c p' =>
      let '(h, t) := rsplit_sep p' in
      if truthy h then (String c h, t)
      else if is_char "/" c then (String c EmptyString, t)
      else (EmptyString, String c t)
  end.

Definition basename (p : string) : string := snd (rsplit_sep p).

(** [s.rstrip('/')] *)
Fixpoint rstrip_sep (s : string) : string :=
  match s with
  | EmptyString => EmptyString
  | String c s' =>
      match rstrip_sep s' with
      | EmptyString => if is_char "/" c then EmptyString else String c EmptyString
      | r => String c r
      end
  end.

Definition dirname (p : string) : string :=
  let head := fst (rsplit_sep p) in
  if truthy head && negb (all_chars (is_char "/") head) then rstrip_sep head
  else head.

(** [s.endswith('/')] *)
Fixpoint ends_with_sep (s : string) : bool :=
  match s with
  | EmptyString => false
  | String c EmptyString => is_char "/" c
  | String _ s' => ends_with_sep s'
  end.

Definition join (a b : string) : string :=
  if startswith "/" b then b
  else if negb (truthy a) || ends_with_sep a then a +:+ b
  else a +:+ "/" +:+ b.

(** [t[:j], t[j:]] for [j = t.rfind('.')], when [t] has a dot. *)
Fixpoint rsplit_dot (t : string) : option (string * string) :=
  match t with
  | EmptyString => None
  | String c t' =>
      match rsplit_dot t' with
      | Some (r, e) => Some (String c r, e)
      | None => if is_char "." c then Some (EmptyString, t) else None
      end
  end.

(** [os.path.splitext]: the extension starts at the last dot of the last
    component, unless only dots precede it there. *)
Definition splitext (p : string) : string * string :=
  let '(h, t) := rsplit_sep p in
  match rsplit_dot t with
  | Some (root, ext) =>
      if all_chars (is_char ".") root then (p, EmptyString)
      else (h +:+ root, ext)
  | None => (p, EmptyString)
  end.

End Py.

Import Py.

(** ** Static configuration and process-wide state *)

(** The module-level constants of the script ("edit these values before
    running"), together with the names [main] fixes before the build starts. *)
Record config : Type := {
  DEVICE : string;
  VARIANT : string;
  CONFIG_OFFICIAL_FLAG : string;
  ROM_TYPE : string;
  CONFIG_CHATID : string;
  CONFIG_BOT_TOKEN : string;
  CONFIG_ERROR_CHATID : string;
  RCLONE_REMOTE : string;
  RCLONE_FOLDER : string;
  POWEROFF : bool;
  ROOT_DIRECTORY : string;
  ROM_NAME : string;
  ANDROID_VERSION : string;
  OUT_DIR : string
}.

(** ** Log poller *)

Module Poller.

(** What a poll finds at [BUILD_LOG]: nothing, a file that cannot be opened
    or read, or a file with its bytes. *)
Inductive log_file : Type :=
| Missing
| Unreadable
| Readable (bytes : string).

(** [os.path.exists(BUILD_LOG)] *)
Definition exists_ (f : log_file) : bool :=
  match f with
  | Missing => false
  | Unreadable | Readable _ => true
  end.

Definition LF : ascii := "010"%char.
Definition CR : ascii := "013"%char.

(** [f.readlines()] on a file opened in text mode: a line ends after
    ["\n"], ["\r\n"] or a lone ["\r"], each delivered as ["\n"]. [cur] is the
    line being read, most recent character first. *)
Fixpoint readlines_go (cur : string) (s : string) : list string :=
  match s with
  | EmptyString =>
      match cur with
      | EmptyString => []
      | _ => [String.rev cur]
      end
  | String c s' =>
      if ascii_dec c LF then
        String.rev (String LF cur) :: readlines_go EmptyString s'
      else if ascii_dec c CR then
        String.rev (String LF cur)
          :: match s' with
             | String c' s'' =>
                 if ascii_dec c' LF then readlines_go EmptyString s''
                 else readlines_go EmptyString s'
             | EmptyString => []
             end
      else readlines_go (String c cur) s'
  end.

Definition readlines (text : string) : list string :=
  readlines_go EmptyString text.

(** [with open(BUILD_LOG, 'r') as f: lines = f.readlines()] *)
Definition open_readlines (f : log_file) : result (list string) :=
  match f with
  | Missing => Raise (Exception "FileNotFoundError")
  | Unreadable => Raise (Exception "OSError")
  | Readable bytes => bind (decode bytes) (fun text => Ret (readlines text))
  end.

(** The longest prefix of decimal digits, and what follows it: a greedy [\d+]
    that is followed by a non-digit literal can only stop there.  [skip]
    counts the bytes of the current digit still to be taken. *)
Fixpoint span_digits_go (skip : nat) (s : string) : string * string :=
  match s with
  | EmptyString => (EmptyString, EmptyString)
  | String c s' =>
      match skip with
      | S k => let '(d, r) := span_digits_go k s' in (String c d, r)
      | O =>
          match width is_decimal s with
          | S k => let '(d, r) := span_digits_go k s' in (String c d, r)
          | O => (EmptyString, s)
          end
      end
  end.

Definition span_digits (s : string) : string * string := span_digits_go O s.

(** [(\d+)% (\d+/\d+)] anchored at the head of [s]: groups 1 and 2. *)
Definition match_here (s : string) : option (string * string) :=
  let '(percent, r1) := span_digits s in
  if truthy percent then
    match r1 with
    | String "%" (String " " r2) =>
        let '(done, r3) := span_digits r2 in
        if truthy done then
          match r3 with
          | String "/" r4 =>
              let '(total, _) := span_digits r4 in
              if truthy total then Some (percent, done +:+ "/" +:+ total)
              else None
          | _ => None
          end
        else None
    | _ => None
    end
  else None.

(** [re.search(r'(\d+)% (\d+/\d+)', line)]: the leftmost position at which the
    pattern matches.  The positions tried are those of the bytes; inside a
    character no digit begins, so that the pattern, which begins with one,
    can only match where a character starts. *)
Fixpoint re_search (line : string) : option (string * string) :=
  match match_here line with
  | Some m => Some m
  | None =>
      match line with
      | EmptyString => None
      | String _ line' => re_search line'
      end
  end.

(** [f"{match.group(1)}% ({match.group(2)})"] *)
Definition format_progress (m : string * string) : string :=
  fst m +:+ "% (" +:+ snd m +:+ ")".

(** The [for line in reversed(lines)] loop, given the lines already
    reversed: the first line with a match decides. *)
Fixpoint scan (lines : list string) : option string :=
  match lines with
  | [] => None
  | line :: rest =>
      match re_search line with
      | Some m => Some (format_progress m)
      | None => scan rest
      end
  end.

Definition fetch_progress (f : log_file) : result string :=
  if negb (exists_ f) then Ret "Initializing..."
  else
    try_bare
      (bind (open_readlines f) (fun lines =>
         match scan (rev lines) with
         | Some progress => Ret progress
         | None => Ret "Initializing the build system..."
         end))
      (Ret "Initializing...").

End Poller.

(** ** The world the script acts on *)

(** A chat button [{"text": ..., "url": ...}] and the
    [{"inline_keyboard": rows}] payload. *)
Record button : Type := Button { text : string; url : string }.

Definition keyboard : Type := list (list button).

(** The Bot API calls the script issues, named after the method that ends
    their URL ([https://api.telegram.org/bot<CONFIG_BOT_TOKEN>/<method>]).
    [message_id] is [None] when the first send failed and the global
    [build_message_id] stayed [None]. *)
Inductive request : Type :=
| editMessageText (chat_id : string) (message_id : option Z) (body : string)
    (reply_markup : option keyboard)
| editMessageCaption (chat_id : string) (message_id : option Z)
    (caption : string) (reply_markup : option keyboard)
| sendDocument (chat_id : string) (file_path : string).

(** What comes back from [requests.post(...)] followed by [response.json()]:
    an exception (connection error, timeout, invalid JSON), or an object
    whose [ok] and [description] entries are read with [result.get]. *)
Inductive reply : Type :=
| Fault (what : string)
| Json (ok : bool) (description : option string) (message_id : Z).

(** What the process does to its surroundings, in the order it happens:
    lines on stderr, HTTP requests, commands run, the signal sent to the build
    child, and changes to the local file system. *)
Inductive event : Type :=
| Stderr (line : string)
| Telegram (r : request)
| HttpGet (target : string)
| HttpPostFile (target : string) (file_path : string)
| Exec (argv : list string)
| Terminate
| Copied (src dst : string)
| Removed (file_path : string).

(** [os.stat] of a local file. *)
Record file : Type := { st_size : Z; st_mtime : Z }.

(** A [subprocess.Popen] object: [poll ()] is [None] while the child runs. *)
Record process : Type := { poll : option Z }.

(** The state the script works on: the local files it stats, copies and
    removes, by path; its globals; and what it has done so far.  The text of
    [BUILD_LOG] is not part of it: the build child rewrites the log between
    polls, so every poll is given the log as it finds it. *)
Record world : Type := {
  files : gmap string file;
  build_message_id : option Z;
  use_banner : bool;
  build_process : option process;
  previous_progress : string;
  trace : list event
}.

Definition set_files (fs : gmap string file) (w : world) : world :=
  {| files := fs; build_message_id := build_message_id w;
     use_banner := use_banner w; build_process := build_process w;
     previous_progress := previous_progress w; trace := trace w |}.

Definition set_previous_progress (p : string) (w : world) : world :=
  {| files := files w; build_message_id := build_message_id w;
     use_banner := use_banner w; build_process := build_process w;
     previous_progress := p; trace := trace w |}.

Definition set_build_process (p : option process) (w : world) : world :=
  {| files := files w; build_message_id := build_message_id w;
     use_banner := use_banner w; build_process := p;
     previous_progress := previous_progress w; trace := trace w |}.

Definition emit (e : event) (w : world) : world :=
  {| files := files w; build_message_id := build_message_id w;
     use_banner := use_banner w; build_process := build_process w;
     previous_progress := previous_progress w; trace := trace w ++ [e] |}.

(** What a call to an outside tool or service comes to: a value, or an
    exception below [Exception] (tool not installed, connection refused,
    malformed answer). *)
Inductive outcome (A : Type) : Type :=
| Returns (a : A)
| Throws (what : string).
Arguments Returns {A} a.
Arguments Throws {A} what.

(** The services and tools outside the process: the Bot API; GoFile's
    server list and its upload endpoint (server, file), answering whether
    [status] is ['ok'] and the [downloadPage]; [rclone lsf path],
    [rclone copy file dest] and [rclone link path] with their return codes and
    standard output. *)
Record services : Type := {
  telegram : request -> reply;
  gofile_servers : outcome string;
  gofile_upload : string -> string -> outcome (bool * string);
  rclone_lsf : string -> outcome (Z * string);
  rclone_copy : string -> string -> outcome Z;
  rclone_link : string -> outcome (Z * string)
}.

(** Statements run in a state-and-exception monad over [world]: the state
    survives a raise. *)
Definition M (A : Type) : Type := world -> result A * world.

Definition raise {A} (e : exn) : M A := fun w => (Raise e, w).

Definition ret {A} (a : A) : M A := fun w => (Ret a, w).

Definition bindM {A B} (m : M A) (k : A -> M B) : M B :=
  fun w =>
    match m w with
    | (Ret a, w') => k a w'
    | (Raise e, w') => (Raise e, w')
    | (OutOfFuel, w') => (OutOfFuel, w')
    end.

Definition lift {A} (r : result A) : M A := fun w => (r, w).

Definition call {A} (o : outcome A) : M A :=
  match o with
  | Returns a => ret a
  | Throws what => raise (Exception what)
  end.

Definition get : M world := fun w => (Ret w, w).

Notation "'let*' x := m 'in' k" := (bindM m (fun x => k))
  (at level 10, x name, m at level 100, k at level 200, only parsing).
Notation "m >> k" := (bindM m (fun _ => k))
  (at level 100, k at level 200, right associativity, only parsing).

Definition modify (f : world -> world) : M unit := fun w => (Ret tt, f w).

(** [try: body  except Exception as e: handler e] *)
Definition try_except {A} (body : M A) (handler : string -> M A) : M A :=
  fun w =>
    match body w with
    | (Raise (Exception what), w') => handler what w'
    | other => other
    end.

(** [if c: body] *)
Definition when (c : bool) (body : M unit) : M unit :=
  if c then body else ret tt.

(** [for x in xs: body x] *)
Fixpoint for_each {A} (xs : list A) (body : A -> M unit) : M unit :=
  match xs with
  | [] => ret tt
  | x :: rest => body x >> for_each rest body
  end.

(** [print(line, file=sys.stderr)] *)
Definition eprint (line : string) : M unit := modify (emit (Stderr line)).

(** [os.path.exists], [os.path.getsize], [os.remove], [shutil.copy2] *)
Definition path_exists (path : string) : M bool :=
  fun w => (Ret (bool_decide (is_Some (files w !! path))), w).

Definition getsize (path : string) : M Z :=
  fun w =>
    match files w !! path with
    | Some f => (Ret (st_size f), w)
    | None => (Raise (Exception "FileNotFoundError"), w)
    end.

Definition remove (path : string) : M unit :=
  fun w =>
    match files w !! path with
    | Some _ =>
        (Ret tt, emit (Removed path) (set_files (delete path (files w)) w))
    | None => (Raise (Exception "FileNotFoundError"), w)
    end.

Definition copy2 (src dst : string) : M unit :=
  fun w =>
    match files w !! src with
    | Some f =>
        (Ret tt, emit (Copied src dst) (set_files (<[dst := f]> (files w)) w))
    | None => (Raise (Exception "FileNotFoundError"), w)
    end.

(** Truth value of a message identifier ([None] and [0] are false). *)
Definition id_truthy (message_id : option Z) : bool :=
  match message_id with
  | Some z => negb (z =? 0)
  | None => false
  end.

(** ** Notifier *)

Module Notifier.
Section WithServices.
Context (cfg : config) (ext : services).

(** [requests.post(url, ...)] then [response.json()]: the call is issued,
    and either raises or yields the decoded object. *)
Definition post (r : request) : M (bool * option string * Z) :=
  modify (emit (Telegram r)) >>
  match telegram ext r with
  | Fault what => raise (Exception what)
  | Json ok description message_id => ret (ok, description, message_id)
  end.

(** [str(result.get('description'))] *)
Definition show_description (description : option string) : string :=
  default "None" description.

Definition edit_message (message_id : option Z) (body : string)
    (chat_id : option string) (reply_markup : option keyboard) : M unit :=
  let chat_id := default (CONFIG_CHATID cfg) chat_id in
  try_except
    (let* result := post (editMessageText chat_id message_id body reply_markup) in
     let '(ok, description, _) := result in
     when (negb ok && negb (contains "not modified" (default "" description)))
       (eprint ("Error editing message: " +:+ show_description description)))
    (fun e => eprint ("Error editing message: " +:+ e)).

Definition edit_photo_caption (message_id : option Z) (caption : string)
    (chat_id : option string) (reply_markup : option keyboard) : M unit :=
  let chat_id := default (CONFIG_CHATID cfg) chat_id in
  try_except
    (let* result := post (editMessageCaption chat_id message_id caption reply_markup) in
     let '(ok, description, _) := result in
     when (negb ok && negb (contains "not modified" (default "" description)))
       (eprint ("Error editing caption: " +:+ show_description description)))
    (fun e => eprint ("Error editing caption: " +:+ e)).

(** [open(file_path, 'rb')] *)
Definition open_rb (file_path : string) : M unit :=
  let* present := path_exists file_path in
  if present then ret tt else raise (Exception "FileNotFoundError").

Definition send_file (file_path : string) (chat_id : option string)
  : M (option Z) :=
  let chat_id := default (CONFIG_CHATID cfg) chat_id in
  try_except
    (open_rb file_path >>
     let* result := post (sendDocument chat_id file_path) in
     let '(ok, _, message_id) := result in
     if ok then ret (Some message_id) else ret None)
    (fun e => eprint ("Error sending file: " +:+ e) >> ret None).

End WithServices.

(** [img_name.replace('.img', '').replace('_', ' ').title()] *)
Definition button_text (img_name : string) : string :=
  title (replace "_" " " (replace ".img" "" img_name)).

(** One turn of the loop over [boot_images.items()]; the loop state is
    [(buttons, boot_row)]. *)
Definition add_boot_button (st : keyboard * list button)
    (item : string * string) : keyboard * list button :=
  let '(buttons, boot_row) := st in
  let boot_row := boot_row ++ [Button (button_text (fst item)) (snd item)] in
  if (length boot_row =? 2)%nat then (buttons ++ [boot_row], [])
  else (buttons, boot_row).

(** [boot_images] is a [dict] in insertion order, or [None]; an empty [dict]
    is false like [None]. *)
Definition create_download_buttons (rom_url : string)
    (boot_images : option (list (string * string))) : keyboard :=
  let buttons := [[Button "📥 Download ROM" rom_url]] in
  match boot_images with
  | Some (item :: items) =>
      let '(buttons, boot_row) :=
        fold_left add_boot_button (item :: items) (buttons, []) in
      match boot_row with
      | [] => buttons
      | _ :: _ => buttons ++ [boot_row]
      end
  | Some [] | None => buttons
  end.

End Notifier.

(** ** Progress monitor *)

Module Monitor.
Section WithServices.
Context (cfg : config) (ext : services).

(** ['Official' if CONFIG_OFFICIAL_FLAG == '1' else 'Unofficial'] *)
Definition build_type : string :=
  if String.eqb (CONFIG_OFFICIAL_FLAG cfg) "1" then "Official" else "Unofficial".

Definition progress_caption (current_progress : string) : string :=
  "<b>🔨 Building " +:+ ROM_NAME cfg +:+ "</b>

<b>Device:</b> " +:+ DEVICE cfg +:+ " | <b>Android:</b> " +:+ ANDROID_VERSION cfg +:+ "
<b>Type:</b> " +:+ build_type +:+ "

<b>⏳ Progress:</b> " +:+ current_progress.

Definition progress_text (current_progress : string) : string :=
  "🟡 | <i>Compiling ROM...</i>

<b>• ROM:</b> <code>" +:+ ROM_NAME cfg +:+ "</code>
<b>• DEVICE:</b> <code>" +:+ DEVICE cfg +:+ "</code>
<b>• ANDROID VERSION:</b> <code>" +:+ ANDROID_VERSION cfg +:+ "</code>
<b>• TYPE:</b> <code>" +:+ build_type +:+ "</code>
<b>• PROGRESS:</b> <code>" +:+ current_progress +:+ "</code>".

(** The body of the [while] loop (without the [time.sleep(5)]); [log] is
    what [BUILD_LOG] holds when this iteration polls it. *)
Definition poll_once (log : Poller.log_file) : M unit :=
  let* current_progress := lift (Poller.fetch_progress log) in
  let* w := get in
  when (negb (String.eqb current_progress (previous_progress w)))
    (eprint ("
🔨 Build Progress: " +:+ current_progress +:+ "
") >>
     (if use_banner w then
        Notifier.edit_photo_caption cfg ext (build_message_id w)
          (progress_caption current_progress) None None
      else
        Notifier.edit_message cfg ext (build_message_id w)
          (progress_text current_progress) None None) >>
     modify (set_previous_progress current_progress)).

(** [monitor_progress]: one element of [polls] for every iteration in which
    [build_process.poll()] is still [None]. *)
Definition monitor_progress (polls : list Poller.log_file) : M unit :=
  for_each polls poll_once.

End WithServices.
End Monitor.

(** ** Upload dispatcher *)

Module Uploader.

(** An entry of [OUT_DIR] as [Path.glob] yields it. *)
Record dirent : Type := { path : string; name : string; stat : file }.

(** [fnmatch] for patterns whose only special character is [*]. *)
Fixpoint fnmatch (pat : string) (s : string) : bool :=
  match pat with
  | EmptyString => negb (truthy s)
  | String c pat' =>
      if is_char "*" c then
        (fix star (s : string) : bool :=
           fnmatch pat' s
           || match s with
              | EmptyString => false
              | String _ s' => star s'
              end) s
      else
        match s with
        | EmptyString => false
        | String d s' => is_char c d && fnmatch pat' s'
        end
  end.

(** [Path(OUT_DIR).glob(pattern)], in the order the directory is scanned. *)
Definition glob (out_dir : list dirent) (pattern : string) : list dirent :=
  filter (fun f => fnmatch pattern (name f) = true) out_dir.

(** [max(files, key=lambda f: f.stat().st_mtime)] on a non-empty list: the
    first entry with the greatest key. *)
Fixpoint max_mtime (best : dirent) (rest : list dirent) : dirent :=
  match rest with
  | [] => best
  | f :: rest' =>
      max_mtime (if st_mtime (stat best) <? st_mtime (stat f) then f else best)
        rest'
  end.

Definition rom_patterns : list string :=
  ["axion-*.zip"; "lineage-*.zip"; "voltage-*.zip"; "arrow-*.zip";
   "evolution-*.zip"].

Definition not_ota_img (f : dirent) : bool :=
  negb (contains "ota" (lower (name f)))
  && negb (contains "img" (lower (name f))).

Definition big_enough (f : dirent) : bool :=
  500 * 1024 * 1024 <? st_size (stat f).

(** The body of the loop over [rom_patterns]. *)
Definition candidates (out_dir : list dirent) (pattern : string)
  : list dirent :=
  let files := glob out_dir pattern in
  let files := filter (fun f => not_ota_img f = true) files in
  filter (fun f => big_enough f = true) files.

Fixpoint find_in (out_dir : list dirent) (patterns : list string)
  : option string :=
  match patterns with
  | [] => None
  | pattern :: rest =>
      match candidates out_dir pattern with
      | f :: files => Some (path (max_mtime f files))
      | [] => find_in out_dir rest
      end
  end.

Definition find_rom_zip (out_dir : list dirent) : option string :=
  find_in out_dir rom_patterns.

Section WithServices.
Context (cfg : config) (ext : services).

(** [subprocess.run(argv, capture_output=True, text=True)] and
    [subprocess.Popen(argv, ...)] followed by [wait()]. *)
Definition run {A} (argv : list string) (answer : outcome A) : M A :=
  modify (emit (Exec argv)) >> call answer.

Definition upload_gofile (file_path : string) : M (option string) :=
  let file_name := basename file_path in
  let* file_size := getsize file_path in
  try_except
    (modify (emit (HttpGet "https://api.gofile.io/servers")) >>
     let* server := call (gofile_servers ext) in
     Notifier.open_rb file_path >>
     modify (emit (HttpPostFile
       ("https://" +:+ server +:+ ".gofile.io/contents/uploadfile") file_path)) >>
     let* result := call (gofile_upload ext server file_path) in
     let '(status_ok, downloadPage) := result in
     if status_ok then ret (Some downloadPage) else ret None)
    (fun e => ret None).

(** [f'{RCLONE_REMOTE}:{RCLONE_FOLDER}'] or [f'{RCLONE_REMOTE}:']; the
    script computes the same value for [rclone_dest] and [base_path]. *)
Definition rclone_dest : string :=
  if truthy (RCLONE_FOLDER cfg)
  then RCLONE_REMOTE cfg +:+ ":" +:+ RCLONE_FOLDER cfg
  else RCLONE_REMOTE cfg +:+ ":".

Definition base_path : string := rclone_dest.

(** [f"{name_parts[0]} ({version}){name_parts[1]}"] *)
Definition versioned (name_parts : string * string) (version : nat) : string :=
  fst name_parts +:+ " (" +:+ str_of_nat version +:+ ")" +:+ snd name_parts.

(** The [while True] loop that looks for a name the remote does not list;
    it yields the final [(file_name, version)]. *)
Fixpoint pick_name (fuel : nat) (name_parts : string * string)
    (file_name : string) (version : nat) : M (string * nat) :=
  match fuel with
  | O => lift OutOfFuel
  | S fuel' =>
      let check_path := base_path +:+ "/" +:+ file_name in
      let* check_result :=
        run ["rclone"; "lsf"; check_path] (rclone_lsf ext check_path) in
      let '(returncode, stdout) := check_result in
      if (returncode =? 0) && truthy (strip stdout) then
        let version := S version in
        pick_name fuel' name_parts (versioned name_parts version) version
      else ret (file_name, version)
  end.

Definition upload_rclone (fuel : nat) (file_path : string)
  : M (option string) :=
  let file_name := basename file_path in
  let* file_size := getsize file_path in
  try_except
    (let original_name := file_name in
     let name_parts := splitext file_name in
     let* picked := pick_name fuel name_parts file_name O in
     let file_name := fst picked in
     let renamed := negb (String.eqb file_name original_name) in
     let upload_file :=
       if renamed then join (dirname file_path) file_name else file_path in
     when renamed (copy2 file_path upload_file) >>
     let rclone_file_path := base_path +:+ "/" +:+ file_name in
     let* returncode :=
       run ["rclone"; "copy"; upload_file; rclone_dest;
            "--progress"; "--stats"; "1s"]
           (rclone_copy ext upload_file rclone_dest) in
     let* present := path_exists upload_file in
     when (negb (String.eqb upload_file file_path) && present)
       (remove upload_file) >>
     if negb (returncode =? 0) then ret None
     else
       let* result :=
         run ["rclone"; "link"; rclone_file_path]
             (rclone_link ext rclone_file_path) in
       let '(link_returncode, link_stdout) := result in
       if link_returncode =? 0 then ret (Some (strip link_stdout))
       else ret (Some rclone_file_path))
    (fun e => ret None).

(** Truth value of [url]: neither [None] nor the empty string. *)
Definition url_truthy (url : option string) : bool :=
  match url with
  | Some s => truthy s
  | None => false
  end.

(** The last two lines of [upload_file]: the GoFile fallback. *)
Definition gofile_fallback (file_path : string) : M string :=
  let* url := upload_gofile file_path in
  ret (if url_truthy url then default "" url else "Upload failed").

Definition upload_file (fuel : nat) (file_path : string) : M string :=
  if truthy (RCLONE_REMOTE cfg) then
    let* url := upload_rclone fuel file_path in
    if url_truthy url then ret (default "" url)
    else gofile_fallback file_path
  else gofile_fallback file_path.

End WithServices.
End Uploader.

(** ** Build runner *)

Module Runner.
Section WithServices.
Context (cfg : config) (ext : services).

(** [BUILD_LOG = os.path.join(ROOT_DIRECTORY, "build.log")] *)
Definition BUILD_LOG : string := join (ROOT_DIRECTORY cfg) "build.log".

(** The [if use_banner: edit_photo_caption(...) else: edit_message(...)]
    idiom on the current status message. *)
Definition edit_status (body : string) : M unit :=
  let* w := get in
  if use_banner w then
    Notifier.edit_photo_caption cfg ext (build_message_id w) body None None
  else Notifier.edit_message cfg ext (build_message_id w) body None None.

(** [for f in names: path = join(ROOT_DIRECTORY, f); remove it if it exists] *)
Definition remove_existing (names : list string) : M unit :=
  for_each names (fun f =>
    let path := join (ROOT_DIRECTORY cfg) f in
    let* present := path_exists path in
    when present (remove path)).

Definition interrupt_msg : string :=
  "⚠️ | <i>Build interrupted by user</i>

<b>• ROM:</b> <code>" +:+ ROM_NAME cfg +:+ "</code>
<b>• DEVICE:</b> <code>" +:+ DEVICE cfg +:+ "</code>

<i>Build was cancelled</i>".

(** The file names the SIGINT handler removes. *)
Definition interrupt_cleanup : list string :=
  ["build_banner.png"; "github_avatar.png"; "avatar_circle.png"].

Definition handle_interrupt : M unit :=
  let* w := get in
  when (bool_decide (is_Some (build_process w))) (modify (emit Terminate)) >>
  when (id_truthy (build_message_id w)) (edit_status interrupt_msg) >>
  remove_existing interrupt_cleanup >>
  raise (SystemExit 130).

(** The image files the banner code writes under [ROOT_DIRECTORY]:
    [generate_build_banner] ([build_banner.png], [logo_circle.png],
    [mask.png], [logo_shadow.png]) and [fetch_github_logo]
    ([rom_logo.png]). *)
Definition banner_files : list string :=
  ["build_banner.png"; "rom_logo.png"; "logo_circle.png"; "mask.png";
   "logo_shadow.png"].

(** The file names [main] removes at its end ("Cleanup temporary files"). *)
Definition main_cleanup : list string :=
  ["build_banner.png"; "rom_logo.png"; "logo_circle.png"].

Definition fail_msg : string :=
  "<b>❌ " +:+ ROM_NAME cfg +:+ " Build Failed</b>

<b>Device:</b> " +:+ DEVICE cfg +:+ " | <b>Android:</b> " +:+ ANDROID_VERSION cfg +:+ "

<i>Check logs below</i>".

Definition error_log : string := "out/error.log".

(** [os.path.exists(error_log) and os.path.getsize(error_log) > 0] *)
Definition build_failed : M bool :=
  let* present := path_exists error_log in
  if present then
    let* size := getsize error_log in
    ret (0 <? size)
  else ret false.

(** The ["Check if build succeeded"] statement of [main]; the [else] branch
    (statistics, upload, final message) is the parameter [on_success]. *)
Definition main_check_build (on_success : M unit) : M unit :=
  let* failed := build_failed in
  if failed then
    edit_status fail_msg >>
    Notifier.send_file cfg ext error_log (Some (CONFIG_ERROR_CHATID cfg)) >>
    let* present := path_exists BUILD_LOG in
    if present then
      Notifier.send_file cfg ext BUILD_LOG (Some (CONFIG_ERROR_CHATID cfg)) >>
      ret tt
    else ret tt
  else on_success.

(** The ["Cleanup temporary files"] loop that ends [main]. *)
Definition main_cleanup_files : M unit := remove_existing main_cleanup.

End WithServices.
End Runner.

(** * Properties *)

(** ** Strings *)

Section StringFacts.

Lemma app_cons (c : ascii) (s t : string) :
  String c s +:+ t = String c (s +:+ t).
Proof. reflexivity. Qed.

Lemma app_empty_l (s : string) : "" +:+ s = s.
Proof. reflexivity. Qed.

Lemma app_empty_r (s : string) : s +:+ "" = s.
Proof. induction s as [|c s IH]; [reflexivity|]. rewrite app_cons. by f_equal. Qed.

Lemma app_assoc_s (s t u : string) : (s +:+ t) +:+ u = s +:+ t +:+ u.
Proof.
  induction s as [|c s IH]; [reflexivity|].
  rewrite !app_cons. by f_equal.
Qed.

Lemma truthy_true (s : string) : truthy s = true <-> s <> "".
Proof. destruct s; simpl; split; congruence. Qed.

Lemma truthy_app_l (s t : string) : truthy s = true -> truthy (s +:+ t) = true.
Proof. by destruct s. Qed.

Lemma all_chars_app (p : ascii -> bool) (s t : string) :
  all_chars p (s +:+ t) = all_chars p s && all_chars p t.
Proof.
  induction s as [|c s IH]; [reflexivity|].
  rewrite app_cons. simpl. rewrite IH. by rewrite andb_assoc.
Qed.

Lemma length_app_s (s t : string) :
  String.length (s +:+ t) = (String.length s + String.length t)%nat.
Proof.
  induction s as [|c s IH]; [done|]. rewrite app_cons. simpl. by rewrite IH.
Qed.

End StringFacts.

(** ** Text *)

Section TextFacts.

(** The character at the head is decided by its own bytes. *)
Lemma decode1_split (s : string) (cp : N) (n : nat) :
  decode1 s = Some (cp, n) ->
  exists c r,
    s = c +:+ r /\ String.length c = n /\ c <> ""
    /\ forall t, decode1 (c +:+ t) = Some (cp, n).
Proof.
  intros H. unfold decode1 in H.
  destruct s as [|b0 s1]; [done|].
  destruct (code b0 <? 128)%N eqn:H0.
  { injection H as <- <-. exists (String b0 ""), s1.
    split; [done|]. split; [done|]. split; [done|].
    intros t. change (String b0 "" +:+ t) with (String b0 t).
    unfold decode1. by rewrite H0. }
  destruct s1 as [|b1 s2]; [done|].
  destruct (is_continuation b1) eqn:H1; [|done]. cbn [negb] in H.
  destruct ((194 <=? code b0)%N && (code b0 <? 224)%N) eqn:H2.
  { injection H as <- <-. exists (String b0 (String b1 "")), s2.
    split; [done|]. split; [done|]. split; [done|].
    intros t.
    change (String b0 (String b1 "") +:+ t) with (String b0 (String b1 t)).
    unfold decode1. by rewrite H0, H1, H2. }
  destruct s2 as [|b2 s3]; [done|].
  destruct (is_continuation b2) eqn:H3; [|done]. cbn [negb] in H.
  destruct ((224 <=? code b0)%N && (code b0 <? 240)%N) eqn:H4.
  { cbv zeta in H.
    destruct ((2048 <=? _)%N && _) eqn:H5; [|done].
    injection H as <- <-. exists (String b0 (String b1 (String b2 ""))), s3.
    split; [done|]. split; [done|]. split; [done|].
    intros t.
    change (String b0 (String b1 (String b2 "")) +:+ t)
      with (String b0 (String b1 (String b2 t))).
    unfold decode1. rewrite H0, H1, H2, H3, H4. cbv zeta. cbn [negb].
    by rewrite H5. }
  destruct s3 as [|b3 s4]; [done|].
  destruct (is_continuation b3) eqn:H5; [|done]. cbn [negb] in H.
  destruct ((240 <=? code b0)%N && (code b0 <? 245)%N) eqn:H6; [|done].
  cbv zeta in H.
  destruct ((65536 <=? _)%N && _) eqn:H7; [|done].
  injection H as <- <-.
  exists (String b0 (String b1 (String b2 (String b3 "")))), s4.
  split; [done|]. split; [done|]. split; [done|].
  intros t.
  change (String b0 (String b1 (String b2 (String b3 ""))) +:+ t)
    with (String b0 (String b1 (String b2 (String b3 t)))).
  unfold decode1. rewrite H0, H1, H2, H3, H4, H5, H6. cbv zeta. cbn [negb].
  by rewrite H7.
Qed.

Lemma all_points_skip (p : N -> bool) (a s : string) :
  all_points_go p (String.length a) (a +:+ s) = all_points p s.
Proof. induction a as [|c a IH]; [reflexivity|]. rewrite app_cons. exact IH. Qed.

(** A character in front: it is tested, and the test goes on behind it. *)
Lemma all_points_head (p : N -> bool) (c r : string) (cp : N) :
  c <> "" -> decode1 (c +:+ r) = Some (cp, String.length c) ->
  all_points p (c +:+ r) = p cp && all_points p r.
Proof.
  intros Hc Hd. destruct c as [|b c]; [done|]. rewrite app_cons in *.
  unfold all_points at 1. cbn [all_points_go]. rewrite Hd.
  cbn [String.length Nat.pred]. by rewrite all_points_skip.
Qed.

(** A non-empty text in the class: its first character and the rest. *)
Lemma all_points_inv (p : N -> bool) (a : string) :
  all_points p a = true -> a <> "" ->
  exists c r cp,
    a = c +:+ r /\ c <> ""
    /\ (forall t, decode1 (c +:+ t) = Some (cp, String.length c))
    /\ p cp = true /\ all_points p r = true
    /\ (String.length r < String.length a)%nat.
Proof.
  intros Ha Hne. destruct a as [|b a]; [done|].
  assert (exists cp n, decode1 (String b a) = Some (cp, n)) as (cp & n & Hd).
  { unfold all_points in Ha. cbn [all_points_go] in Ha.
    destruct (decode1 (String b a)) as [[cp n]|]; [by eexists _, _|done]. }
  destruct (decode1_split _ _ _ Hd) as (c & r & Heq & Hlen & Hc & Hany).
  subst n. rewrite Heq in Ha |- *.
  rewrite (all_points_head p c r cp Hc (Hany r)) in Ha.
  apply andb_true_iff in Ha as [Hp Hr].
  exists c, r, cp. do 4 (split; [done|]). split; [done|].
  rewrite length_app_s. destruct c; [done|]. simpl. lia.
Qed.

Lemma all_points_app (p : N -> bool) (a b : string) :
  all_points p a = true -> all_points p (a +:+ b) = all_points p b.
Proof.
  remember (String.length a) as n eqn:Hn. revert a Hn.
  induction n as [n IH] using lt_wf_ind. intros a -> Ha.
  destruct (decide (a = "")) as [->|Hne]; [reflexivity|].
  destruct (all_points_inv p a Ha Hne)
    as (c & r & cp & -> & Hc & Hany & Hp & Hr & Hlt).
  rewrite app_assoc_s, (all_points_head p c (r +:+ b) cp Hc (Hany _)), Hp.
  by apply (IH (String.length r)).
Qed.

(** Text followed by bytes that are not text is not text. *)
Lemma utf8_app (a b : string) : utf8 a = true -> utf8 (a +:+ b) = utf8 b.
Proof. apply all_points_app. Qed.

Lemma decode_text (text : string) : utf8 text = true -> decode text = Ret text.
Proof. unfold decode. by intros ->. Qed.

Lemma decode_not_text (bytes : string) :
  utf8 bytes = false -> decode bytes = Raise (Exception "UnicodeDecodeError").
Proof. unfold decode. by intros ->. Qed.

End TextFacts.

(** ** The progress pattern *)

Section Pattern.
Import Poller.

(** A non-empty run of decimal digits: what [\d+] can match. *)
Definition digits (s : string) : Prop :=
  truthy s = true /\ all_points is_decimal s = true.

(** [s] does not begin with a decimal digit. *)
Definition no_digit_ahead (s : string) : Prop :=
  match decode1 s with
  | Some (cp, _) => is_decimal cp = false
  | None => True
  end.

(** [line] contains an occurrence of ["<percent>% <done>/<total>"]. *)
Definition occurs (line : string) : Prop :=
  exists pre p d t post,
    line = pre +:+ p +:+ "% " +:+ d +:+ "/" +:+ t +:+ post
    /\ digits p /\ digits d /\ digits t.

(** The shape of a progress snapshot, ["<percent>% (<done>/<total>)"]. *)
Definition progress_form (s : string) : Prop :=
  exists p d t,
    s = p +:+ "% (" +:+ d +:+ "/" +:+ t +:+ ")"
    /\ digits p /\ digits d /\ digits t.

Lemma no_digit_ahead_width (s : string) :
  no_digit_ahead s <-> width is_decimal s = O.
Proof.
  unfold no_digit_ahead, width.
  destruct (decode1 s) as [[cp n]|] eqn:Hd; [|done].
  destruct (is_decimal cp); [|done].
  apply decode1_split in Hd as (c & r & _ & <- & Hc & _).
  destruct c; [done|]. split; discriminate.
Qed.

(** A character that is not a digit, written with one byte. *)
Lemma no_digit_ahead_byte (c : ascii) (s : string) :
  (code c <? 128)%N = true -> is_decimal (code c) = false ->
  no_digit_ahead (String c s).
Proof. intros Hc Hd. unfold no_digit_ahead, decode1. by rewrite Hc. Qed.

Lemma span_digits_skip (a s : string) :
  span_digits_go (String.length a) (a +:+ s)
  = (a +:+ fst (span_digits s), snd (span_digits s)).
Proof.
  induction a as [|c a IH].
  - rewrite !app_empty_l. unfold span_digits. by destruct (span_digits_go _ s).
  - rewrite app_cons. cbn [String.length span_digits_go]. by rewrite IH.
Qed.

(** A digit in front is taken, and the run goes on behind it. *)
Lemma span_digits_head (c r : string) (cp : N) :
  c <> "" -> decode1 (c +:+ r) = Some (cp, String.length c) ->
  is_decimal cp = true ->
  span_digits (c +:+ r) = (c +:+ fst (span_digits r), snd (span_digits r)).
Proof.
  intros Hc Hd Hp. destruct c as [|b c]; [done|]. rewrite app_cons in *.
  unfold span_digits at 1. cbn [span_digits_go]. unfold width.
  rewrite Hd, Hp. cbn [String.length]. by rewrite span_digits_skip.
Qed.

Lemma span_digits_stop (s : string) :
  no_digit_ahead s -> span_digits s = ("", s).
Proof.
  intros Hs%no_digit_ahead_width. destruct s; [reflexivity|].
  unfold span_digits. cbn [span_digits_go]. by rewrite Hs.
Qed.

Lemma span_digits_spec (s d r : string) :
  span_digits s = (d, r) ->
  s = d +:+ r /\ all_points is_decimal d = true /\ no_digit_ahead r.
Proof.
  remember (String.length s) as n eqn:Hn. revert s d r Hn.
  induction n as [n IH] using lt_wf_ind. intros s d r -> Hs.
  destruct (width is_decimal s) as [|k] eqn:Hw.
  { apply no_digit_ahead_width in Hw.
    rewrite (span_digits_stop s Hw) in Hs. by injection Hs as <- <-. }
  unfold width in Hw.
  destruct (decode1 s) as [[cp m]|] eqn:Hd; [|done].
  destruct (is_decimal cp) eqn:Hp; [|done].
  destruct (decode1_split _ _ _ Hd) as (c & r0 & -> & Hlen & Hc & Hany).
  rewrite <- Hlen in Hany.
  rewrite (span_digits_head c r0 cp Hc (Hany _) Hp) in Hs.
  destruct (span_digits r0) as [d' r'] eqn:Hr0. cbn [fst snd] in Hs.
  injection Hs as <- <-.
  destruct (IH (String.length r0)) with (s := r0) (d := d') (r := r')
    as (-> & Hd' & Hr'); [|done|done|].
  { rewrite length_app_s. destruct c; [done|]. simpl. lia. }
  split; [by rewrite app_assoc_s|]. split; [|done].
  by rewrite (all_points_head is_decimal c d' cp Hc (Hany _)), Hp.
Qed.

Lemma span_digits_app (d r : string) :
  all_points is_decimal d = true -> no_digit_ahead r ->
  span_digits (d +:+ r) = (d, r).
Proof.
  intros Hd Hr. remember (String.length d) as n eqn:Hn. revert d Hn Hd.
  induction n as [n IH] using lt_wf_ind. intros d -> Hd.
  destruct (decide (d = "")) as [->|Hne]; [by apply span_digits_stop|].
  destruct (all_points_inv is_decimal d Hd Hne)
    as (c & d0 & cp & -> & Hc & Hany & Hp & Hd0 & Hlt).
  rewrite app_assoc_s, (span_digits_head c (d0 +:+ r) cp Hc (Hany _) Hp).
  by rewrite (IH (String.length d0)) by done.
Qed.

(** Digits in front of a non-digit are swallowed whole. *)
Lemma span_digits_more (d s : string) :
  all_points is_decimal d = true ->
  span_digits (d +:+ s) = (d +:+ fst (span_digits s), snd (span_digits s)).
Proof.
  intros Hd. destruct (span_digits s) as [d' r'] eqn:Hs.
  destruct (span_digits_spec _ _ _ Hs) as (-> & Hd' & Hr').
  simpl. rewrite <- app_assoc_s. apply span_digits_app; [|done].
  by rewrite all_points_app.
Qed.

Lemma match_here_sound (s g1 g2 : string) :
  match_here s = Some (g1, g2) ->
  exists d t post,
    s = g1 +:+ "% " +:+ d +:+ "/" +:+ t +:+ post
    /\ g2 = d +:+ "/" +:+ t
    /\ digits g1 /\ digits d /\ digits t /\ no_digit_ahead post.
Proof.
  unfold match_here.
  destruct (span_digits s) as [p r1] eqn:H1.
  destruct (truthy p) eqn:Hp; [|done].
  destruct r1 as [|c1 r1]; [done|].
  destruct (ascii_dec c1 "%") as [->|]; [|by destruct c1 as [[] [] [] [] [] [] [] []]].
  destruct r1 as [|c2 r2]; [done|].
  destruct (ascii_dec c2 " ") as [->|]; [|by destruct c2 as [[] [] [] [] [] [] [] []]].
  destruct (span_digits r2) as [d r3] eqn:H2.
  destruct (truthy d) eqn:Hd; [|done].
  destruct r3 as [|c3 r4]; [done|].
  destruct (ascii_dec c3 "/") as [->|]; [|by destruct c3 as [[] [] [] [] [] [] [] []]].
  destruct (span_digits r4) as [t post] eqn:H3.
  destruct (truthy t) eqn:Ht; [|done].
  intros [= <- <-].
  destruct (span_digits_spec _ _ _ H1) as (-> & Hp' & _).
  destruct (span_digits_spec _ _ _ H2) as (-> & Hd' & _).
  destruct (span_digits_spec _ _ _ H3) as (-> & Ht' & Hpost).
  exists d, t, post. by repeat split.
Qed.

Lemma match_here_complete (p d t post : string) :
  digits p -> digits d -> digits t ->
  match_here (p +:+ "% " +:+ d +:+ "/" +:+ t +:+ post)
  = Some (p, d +:+ "/" +:+ t +:+ fst (span_digits post)).
Proof.
  intros [Hp1 Hp2] [Hd1 Hd2] [Ht1 Ht2]. unfold match_here.
  rewrite (span_digits_app p) by done. rewrite Hp1.
  change ("% " +:+ ?x) with (String "%" (String " " x)).
  cbv iota beta.
  rewrite (span_digits_app d) by done. rewrite Hd1.
  change ("/" +:+ ?x) with (String "/" x). cbv iota beta.
  rewrite (span_digits_more t post) by done.
  cbv iota beta. by rewrite truthy_app_l.
Qed.

End Pattern.

Section Search.
Import Poller.

Lemma re_search_unfold (line : string) :
  re_search line =
  match match_here line with
  | Some m => Some m
  | None =>
      match line with
      | EmptyString => None
      | String _ line' => re_search line'
      end
  end.
Proof. by destruct line. Qed.

(** A successful search found an occurrence, and nothing matches at any
    earlier position. *)
Lemma re_search_sound (line g1 g2 : string) :
  re_search line = Some (g1, g2) ->
  exists pre d t post,
    line = pre +:+ g1 +:+ "% " +:+ d +:+ "/" +:+ t +:+ post
    /\ g2 = d +:+ "/" +:+ t
    /\ digits g1 /\ digits d /\ digits t /\ no_digit_ahead post
    /\ forall a b, pre = a +:+ b -> b <> "" ->
         match_here (b +:+ g1 +:+ "% " +:+ d +:+ "/" +:+ t +:+ post) = None.
Proof.
  assert (Hhere : forall s, match_here s = Some (g1, g2) ->
    exists pre d t post,
      s = pre +:+ g1 +:+ "% " +:+ d +:+ "/" +:+ t +:+ post
      /\ g2 = d +:+ "/" +:+ t
      /\ digits g1 /\ digits d /\ digits t /\ no_digit_ahead post
      /\ forall a b, pre = a +:+ b -> b <> "" ->
           match_here (b +:+ g1 +:+ "% " +:+ d +:+ "/" +:+ t +:+ post) = None).
  { intros s Hm.
    apply match_here_sound in Hm as (d & t & post & H & ? & ? & ? & ? & ?).
    exists "", d, t, post. split; [exact H|]. do 5 (split; [assumption|]).
    intros a b Hab Hb. destruct a; [|discriminate Hab].
    rewrite app_empty_l in Hab. by subst b. }
  induction line as [|c line IH]; rewrite re_search_unfold.
  - destruct (match_here "") as [m|] eqn:Hm; [|done]. intros [= ->]. eauto.
  - destruct (match_here (String c line)) as [m|] eqn:Hm.
    + intros [= ->]. eauto.
    + intros Hs. destruct (IH Hs) as (pre & d & t & post & -> & ? & ? & ? & ? & ? & Hleft).
      exists (String c pre), d, t, post. split; [done|].
      do 5 (split; [assumption|]).
      intros [|a0 a] b Hab Hb.
      * rewrite app_empty_l in Hab. subst b. exact Hm.
      * rewrite app_cons in Hab. injection Hab as _ Hpre. by apply (Hleft a b).
Qed.

Lemma re_search_complete (line : string) :
  occurs line -> is_Some (re_search line).
Proof.
  intros (pre & p & d & t & post & -> & Hp & Hd & Ht).
  induction pre as [|c pre IH]; rewrite re_search_unfold.
  - rewrite app_empty_l, match_here_complete by done. by eexists.
  - destruct (match_here _); [by eexists|]. rewrite app_cons. exact IH.
Qed.

Lemma re_search_occurs (line : string) :
  is_Some (re_search line) <-> occurs line.
Proof.
  split; [|apply re_search_complete].
  intros [[g1 g2] H].
  apply re_search_sound in H as (pre & d & t & post & -> & _ & ? & ? & ? & _).
  by exists pre, g1, d, t, post.
Qed.

Lemma re_search_none (line : string) :
  re_search line = None <-> ~ occurs line.
Proof.
  rewrite <- re_search_occurs, <- eq_None_not_Some. done.
Qed.

(** Lines without an occurrence are passed over. *)
Lemma scan_skip (skipped rest : list string) :
  Forall (fun l => ~ occurs l) skipped ->
  scan (skipped ++ rest) = scan rest.
Proof.
  induction 1 as [|l ls Hl _ IH]; [done|].
  simpl. apply re_search_none in Hl. by rewrite Hl.
Qed.

Lemma scan_none (lines : list string) :
  Forall (fun l => ~ occurs l) lines -> scan lines = None.
Proof.
  intros H. rewrite <- (app_nil_r lines). by rewrite scan_skip.
Qed.

Lemma scan_form (lines : list string) (s : string) :
  scan lines = Some s -> progress_form s.
Proof.
  induction lines as [|l ls IH]; [done|]. simpl.
  destruct (re_search l) as [[g1 g2]|] eqn:Hl; [|done].
  intros [= <-].
  apply re_search_sound in Hl as (_ & d & t & _ & _ & -> & ? & ? & ? & _).
  exists g1, d, t. unfold format_progress. simpl. by rewrite !app_assoc_s.
Qed.

Lemma fetch_progress_readable (text : string) :
  utf8 text = true ->
  fetch_progress (Readable text) =
  Ret (default "Initializing the build system..." (scan (rev (readlines text)))).
Proof.
  intros Htext. unfold fetch_progress, open_readlines.
  rewrite (decode_text text Htext). simpl. by destruct (scan _).
Qed.

(** Bytes that are not text make the read raise, and the bare [except]
    answers. *)
Lemma fetch_progress_not_text (bytes : string) :
  utf8 bytes = false -> fetch_progress (Readable bytes) = Ret "Initializing...".
Proof.
  intros Hbytes. unfold fetch_progress, open_readlines.
  by rewrite (decode_not_text bytes Hbytes).
Qed.

(** [s] begins with an occurrence of the pattern. *)
Definition occurs_at_head (s : string) : Prop :=
  exists p d t post,
    s = p +:+ "% " +:+ d +:+ "/" +:+ t +:+ post
    /\ digits p /\ digits d /\ digits t.

Lemma match_here_none (s : string) :
  match_here s = None -> ~ occurs_at_head s.
Proof.
  intros Hnone (p & d & t & post & -> & Hp & Hd & Ht).
  by rewrite match_here_complete in Hnone.
Qed.

End Search.

(** ** Log poller: [fetch_progress] *)

Section FetchProgress.
Import Poller.

Lemma scan_cases (lines : list string) :
  (scan lines = None /\ Forall (fun l => ~ occurs l) lines)
  \/ (exists s, scan lines = Some s /\ Exists occurs lines /\ progress_form s).
Proof.
  induction lines as [|l ls IH]; [left; by split|].
  simpl. destruct (re_search l) as [m|] eqn:Hl.
  - right. exists (format_progress m). split; [done|]. split.
    + left. apply re_search_occurs. by eexists.
    + apply (scan_form [l]). simpl. by rewrite Hl.
  - apply re_search_none in Hl.
    destruct IH as [[-> Hall]|(s & -> & Hex & Hs)].
    + left. split; [done|]. by constructor.
    + right. exists s. split; [done|]. split; [by right|done].
Qed.

Lemma Forall_rev_iff {A} (P : A -> Prop) (l : list A) :
  Forall P (rev l) <-> Forall P l.
Proof.
  split; intros H; [rewrite <- (rev_involutive l)|]; by apply List.Forall_rev.
Qed.

Lemma Exists_rev_iff {A} (P : A -> Prop) (l : list A) :
  Exists P (rev l) <-> Exists P l.
Proof.
  split; intros H; [rewrite <- (rev_involutive l)|]; by apply List.Exists_rev.
Qed.

(** The line that decides is the last one with an occurrence. *)
Lemma scan_last (before after : list string) (line : string) :
  Forall (fun l => ~ occurs l) after ->
  scan (rev (before ++ line :: after)) =
  match re_search line with
  | Some m => Some (format_progress m)
  | None => scan (rev before)
  end.
Proof.
  intros Hafter.
  rewrite rev_app_distr. simpl. rewrite <- app_assoc. simpl.
  rewrite scan_skip by by apply Forall_rev_iff.
  done.
Qed.

(** C2 (amended): when [BUILD_LOG] is absent, or its bytes are not text, the
    extractor returns ["Initializing..."]; when it is text and no line
    contains the pattern (an empty file included) it returns
    ["Initializing the build system..."]; otherwise it returns the leftmost
    match of the last line that contains ["<percent>% <done>/<total>"],
    formatted ["<percent>% (<done>/<total>)"]: no occurrence begins before the
    one returned, and the digits of its total are taken to their end. *)
Theorem fetch_progress_last_match :
  fetch_progress Missing = Ret "Initializing..."
  /\ fetch_progress (Readable "") = Ret "Initializing the build system..."
  /\ (forall bytes,
        utf8 bytes = false ->
        fetch_progress (Readable bytes) = Ret "Initializing...")
  /\ (forall text,
        utf8 text = true ->
        Forall (fun l => ~ occurs l) (readlines text) ->
        fetch_progress (Readable text) = Ret "Initializing the build system...")
  /\ (forall text before line after,
        utf8 text = true ->
        readlines text = before ++ line :: after ->
        occurs line ->
        Forall (fun l => ~ occurs l) after ->
        exists pre p d t post,
          line = pre +:+ p +:+ "% " +:+ d +:+ "/" +:+ t +:+ post
          /\ digits p /\ digits d /\ digits t /\ no_digit_ahead post
          /\ (forall a b,
                pre = a +:+ b -> b <> "" ->
                ~ occurs_at_head
                    (b +:+ p +:+ "% " +:+ d +:+ "/" +:+ t +:+ post))
          /\ re_search line = Some (p, d +:+ "/" +:+ t)
          /\ fetch_progress (Readable text)
             = Ret (p +:+ "% (" +:+ d +:+ "/" +:+ t +:+ ")")).
Proof.
  split; [reflexivity|]. split; [reflexivity|].
  split; [apply fetch_progress_not_text|]. split.
  - intros text Htext Hnone. rewrite fetch_progress_readable by done.
    rewrite scan_none; [done|]. by apply Forall_rev_iff.
  - intros text before line after Htext Hlines Hocc Hafter.
    rewrite fetch_progress_readable, Hlines, scan_last by done.
    apply re_search_complete in Hocc as [[g1 g2] Hm]. rewrite Hm.
    destruct (re_search_sound _ _ _ Hm)
      as (pre & d & t & post & Hline & -> & ? & ? & ? & ? & Hleft).
    exists pre, g1, d, t, post. do 5 (split; [assumption|]).
    split; [intros a b Hab Hb; by apply match_here_none, (Hleft a b)|].
    split; [done|].
    simpl. unfold format_progress. simpl. by rewrite !app_assoc_s.
Qed.

Definition sample_log : string :=
  "[ 10% 100/1000] //frameworks/base:framework
[ 55% 550/1000] //art/runtime:libart
ninja: build stopped
".

Lemma fetch_progress_last_match_witness :
  exists pre p d t post,
    "[ 55% 550/1000] //art/runtime:libart
" = pre +:+ p +:+ "% " +:+ d +:+ "/" +:+ t +:+ post
    /\ digits p /\ digits d /\ digits t /\ no_digit_ahead post
    /\ (forall a b,
          pre = a +:+ b -> b <> "" ->
          ~ occurs_at_head (b +:+ p +:+ "% " +:+ d +:+ "/" +:+ t +:+ post))
    /\ re_search "[ 55% 550/1000] //art/runtime:libart
" = Some (p, d +:+ "/" +:+ t)
    /\ fetch_progress (Readable sample_log)
       = Ret (p +:+ "% (" +:+ d +:+ "/" +:+ t +:+ ")").
Proof.
  destruct fetch_progress_last_match as (_ & _ & _ & _ & H).
  apply (H sample_log
           ["[ 10% 100/1000] //frameworks/base:framework
"]
           "[ 55% 550/1000] //art/runtime:libart
"
           ["ninja: build stopped
"]).
  - reflexivity.
  - reflexivity.
  - apply re_search_occurs. vm_compute. by eexists.
  - repeat constructor. apply re_search_none. reflexivity.
Defined.

(** C2 (as stated) fails: an absent log and an empty log do not yield one
    and the same sentinel. *)
Lemma fetch_progress_two_sentinels :
  ~ (exists sentinel,
       fetch_progress Missing = Ret sentinel
       /\ fetch_progress (Readable "") = Ret sentinel).
Proof. intros (sentinel & H1 & H2). vm_compute in H1, H2. congruence. Qed.

Lemma progress_form_not_sentinel (s : string) :
  progress_form s ->
  s <> "Initializing..." /\ s <> "Initializing the build system...".
Proof.
  intros (p & d & t & -> & [Hp1 Hp2] & _).
  apply truthy_true in Hp1.
  destruct (all_points_inv is_decimal p Hp2 Hp1)
    as (c & r & cp & -> & Hc & Hany & Hcp & _).
  rewrite app_assoc_s.
  split; intros Heq; specialize (Hany (r +:+ "% (" +:+ d +:+ "/" +:+ t +:+ ")"));
    rewrite Heq in Hany; injection Hany as <- _; discriminate Hcp.
Qed.

(** C10: [fetch_progress] always returns; an absent log, a log that cannot be
    read and one whose bytes are not text give ["Initializing..."], a log
    that is read and has no matching line gives the different string
    ["Initializing the build system..."], and any other value has the form
    ["<d>% (<d>/<d>)"], with [<d>] a run of decimal digits. *)
Theorem fetch_progress_total :
  "Initializing..." <> "Initializing the build system..."
  /\ forall f : log_file,
       exists s, fetch_progress f = Ret s
         /\ (((f = Missing \/ f = Unreadable
               \/ exists bytes, f = Readable bytes /\ utf8 bytes = false)
              /\ s = "Initializing...")
             \/ (exists text, f = Readable text
                   /\ utf8 text = true
                   /\ Forall (fun l => ~ occurs l) (readlines text)
                   /\ s = "Initializing the build system...")
             \/ (exists text, f = Readable text
                   /\ utf8 text = true
                   /\ Exists occurs (readlines text)
                   /\ progress_form s
                   /\ s <> "Initializing..."
                   /\ s <> "Initializing the build system...")).
Proof.
  split; [done|]. intros [| |text].
  - exists "Initializing...". split; [reflexivity|]. left. split; [by left|done].
  - exists "Initializing...". split; [reflexivity|]. left.
    split; [by right; left|done].
  - destruct (utf8 text) eqn:Htext.
    2:{ exists "Initializing...". split; [by apply fetch_progress_not_text|].
        left. split; [|done]. right. right. by exists text. }
    rewrite fetch_progress_readable by done.
    destruct (scan_cases (rev (readlines text))) as [[-> H]|(s & -> & Hex & Hs)].
    + eexists. split; [reflexivity|]. right. left.
      exists text. split; [done|]. split; [done|].
      split; [by apply Forall_rev_iff|done].
    + exists s. split; [reflexivity|]. right. right.
      exists text. split; [done|]. split; [done|].
      split; [by apply Exists_rev_iff|].
      split; [done|]. by apply progress_form_not_sentinel.
Qed.

End FetchProgress.

(** ** Notifier: [create_download_buttons] *)

Section Buttons.
Import Notifier.

(** The button a boot image gets. *)
Definition boot_button (item : string * string) : button :=
  Button (button_text (fst item)) (snd item).

(** Rows of two, the last one shorter when the count is odd. *)
Fixpoint pairs {A} (l : list A) : list (list A) :=
  match l with
  | a :: b :: rest => [a; b] :: pairs rest
  | [a] => [[a]]
  | [] => []
  end.

Lemma pairs_ind {A} (P : list A -> Prop) :
  P [] -> (forall a, P [a]) ->
  (forall a b rest, P rest -> P (a :: b :: rest)) ->
  forall l, P l.
Proof.
  intros H0 H1 H2.
  assert (H : forall l, P l /\ forall a, P (a :: l)).
  { induction l as [|b l [IH1 IH2]]; [by split|].
    split; [apply IH2|]. intros a. by apply H2. }
  intros l. apply H.
Qed.

Lemma concat_pairs {A} (l : list A) : concat (pairs l) = l.
Proof.
  induction l as [| |a b rest IH] using pairs_ind; [done..|].
  simpl. by rewrite IH.
Qed.

Lemma length_pairs {A} (l : list A) :
  length (pairs l) = Nat.div2 (S (length l)).
Proof.
  induction l as [| |a b rest IH] using pairs_ind; [done..|].
  simpl in *. by rewrite IH.
Qed.

Lemma row_sizes_pairs {A} (l : list A) :
  map length (pairs l)
  = replicate (Nat.div2 (length l)) 2%nat
    ++ (if Nat.odd (length l) then [1%nat] else []).
Proof.
  induction l as [| |a b rest IH] using pairs_ind; [done..|].
  change (map length (pairs (a :: b :: rest)))
    with (2%nat :: map length (pairs rest)).
  rewrite IH. done.
Qed.

(** The ["Add remaining buttons"] step after the loop. *)
Definition flush (st : keyboard * list button) : keyboard :=
  match snd st with
  | [] => fst st
  | _ :: _ => fst st ++ [snd st]
  end.

Lemma fold_boot_buttons (items : list (string * string)) (buttons : keyboard) :
  flush (fold_left add_boot_button items (buttons, []))
  = buttons ++ pairs (boot_button <$> items).
Proof.
  revert buttons.
  induction items as [| |a b rest IH] using pairs_ind; intros buttons.
  - unfold flush. simpl. by rewrite app_nil_r.
  - reflexivity.
  - change (fold_left add_boot_button (a :: b :: rest) (buttons, []))
      with (fold_left add_boot_button rest
              (buttons ++ [[boot_button a; boot_button b]], [])).
    rewrite IH. by rewrite <- app_assoc.
Qed.

Lemma create_download_buttons_rows (rom_url : string)
    (boot_images : option (list (string * string))) :
  create_download_buttons rom_url boot_images
  = [Button "📥 Download ROM" rom_url]
      :: pairs (boot_button <$> default [] boot_images).
Proof.
  destruct boot_images as [[|item items]|]; [done| |done].
  unfold create_download_buttons. simpl default.
  etrans;
    [|apply (fold_boot_buttons (item :: items)
               [[Button "📥 Download ROM" rom_url]])].
  unfold flush. by destruct (fold_left _ _ _) as [? [|]].
Qed.

(** C8: the keyboard starts with the row holding only the ROM button; the
    boot-image buttons follow in insertion order, two per row, with a last row
    of one when their number [n] is odd; there are [1 + ceil(n/2)] rows. *)
Theorem create_download_buttons_layout (rom_url : string)
    (boot_images : option (list (string * string))) :
  let n := length (default [] boot_images) in
  exists rows,
    create_download_buttons rom_url boot_images
    = [Button "📥 Download ROM" rom_url] :: rows
    /\ concat rows = boot_button <$> default [] boot_images
    /\ map length rows
       = replicate (Nat.div2 n) 2%nat ++ (if Nat.odd n then [1%nat] else [])
    /\ length (create_download_buttons rom_url boot_images)
       = (1 + Nat.div2 (S n))%nat.
Proof.
  intros n. exists (pairs (boot_button <$> default [] boot_images)).
  split; [apply create_download_buttons_rows|].
  split; [apply concat_pairs|].
  split.
  - rewrite row_sizes_pairs. by rewrite length_fmap.
  - rewrite create_download_buttons_rows. simpl.
    by rewrite length_pairs, length_fmap.
Qed.

End Buttons.

(** ** Traces *)

Section Traces.

(** [w] after the events [evs]. *)
Definition after (w : world) (evs : list event) : world :=
  {| files := files w; build_message_id := build_message_id w;
     use_banner := use_banner w; build_process := build_process w;
     previous_progress := previous_progress w; trace := trace w ++ evs |}.

Lemma emit_after (e : event) (w : world) : emit e w = after w [e].
Proof. reflexivity. Qed.

Lemma after_nil (w : world) : after w [] = w.
Proof. destruct w. unfold after. simpl. by rewrite app_nil_r. Qed.

Lemma after_after (w : world) (evs evs' : list event) :
  after (after w evs) evs' = after w (evs ++ evs').
Proof. unfold after. simpl. by rewrite app_assoc. Qed.

Lemma eprint_run (line : string) (w : world) :
  eprint line w = (Ret tt, after w [Stderr line]).
Proof. reflexivity. Qed.

(** The requests sent to the chat service, in order. *)
Fixpoint requests (evs : list event) : list request :=
  match evs with
  | [] => []
  | Telegram r :: rest => r :: requests rest
  | _ :: rest => requests rest
  end.

Lemma requests_app (evs evs' : list event) :
  requests (evs ++ evs') = requests evs ++ requests evs'.
Proof.
  induction evs as [|e evs IH]; [done|].
  destruct e; simpl; by rewrite ?IH.
Qed.

End Traces.

(** ** Notifier: the edit operations *)

Section Edits.
Context (cfg : config) (ext : services).
Import Notifier.

Lemma post_run (r : request) (w : world) :
  post ext r w =
  match telegram ext r with
  | Fault what => (Raise (Exception what), after w [Telegram r])
  | Json ok description message_id =>
      (Ret (ok, description, message_id), after w [Telegram r])
  end.
Proof. unfold post, bindM, modify. simpl. by destruct (telegram ext r). Qed.

(** What an edit writes on stderr, given the service's answer. *)
Definition edit_log (label : string) (answer : reply) : list event :=
  match answer with
  | Fault what => [Stderr (label +:+ what)]
  | Json ok description _ =>
      if ok || contains "not modified" (default "" description) then []
      else [Stderr (label +:+ show_description description)]
  end.

Lemma edit_message_run message_id body chat_id reply_markup (w : world) :
  let r := editMessageText (default (CONFIG_CHATID cfg) chat_id)
             message_id body reply_markup in
  edit_message cfg ext message_id body chat_id reply_markup w
  = (Ret tt,
     after w (Telegram r :: edit_log "Error editing message: " (telegram ext r))).
Proof.
  intros r. unfold edit_message, try_except, bindM. fold r.
  rewrite post_run. unfold edit_log.
  destruct (telegram ext r) as [what|ok description mid]; cbv beta iota.
  - by rewrite eprint_run, after_after.
  - destruct ok; simpl; [done|].
    destruct (contains _ _); simpl; [done|].
    by rewrite emit_after, after_after.
Qed.

Lemma edit_photo_caption_run message_id caption chat_id reply_markup (w : world) :
  let r := editMessageCaption (default (CONFIG_CHATID cfg) chat_id)
             message_id caption reply_markup in
  edit_photo_caption cfg ext message_id caption chat_id reply_markup w
  = (Ret tt,
     after w (Telegram r :: edit_log "Error editing caption: " (telegram ext r))).
Proof.
  intros r. unfold edit_photo_caption, try_except, bindM. fold r.
  rewrite post_run. unfold edit_log.
  destruct (telegram ext r) as [what|ok description mid]; cbv beta iota.
  - by rewrite eprint_run, after_after.
  - destruct ok; simpl; [done|].
    destruct (contains _ _); simpl; [done|].
    by rewrite emit_after, after_after.
Qed.

(** An edit operation [op], issuing the request [mk ...] and labelling its
    complaints [label], never fails the caller: it returns normally whatever
    the service answers, writes nothing when the answer is a success or an
    error whose description contains ["not modified"], and writes one line on
    stderr for any other error answer or exception. *)
Definition never_fatal
    (op : option Z -> string -> option string -> option keyboard -> M unit)
    (mk : string -> option Z -> string -> option keyboard -> request)
    (label : string) : Prop :=
  forall message_id body chat_id reply_markup (w : world),
    let r := mk (default (CONFIG_CHATID cfg) chat_id) message_id body
               reply_markup in
    exists log,
      op message_id body chat_id reply_markup w
      = (Ret tt, after w (Telegram r :: log))
      /\ match telegram ext r with
         | Fault what => log = [Stderr (label +:+ what)]
         | Json true _ _ => log = []
         | Json false None _ => log = [Stderr (label +:+ "None")]
         | Json false (Some description) _ =>
             if contains "not modified" description then log = []
             else log = [Stderr (label +:+ description)]
         end.

(** C9: [edit_message] and [edit_photo_caption] swallow a "not modified"
    answer silently and turn every other failure into a line on stderr; in
    all cases they return normally. *)
Theorem edits_never_fatal :
  never_fatal (edit_message cfg ext) editMessageText "Error editing message: "
  /\ never_fatal (edit_photo_caption cfg ext) editMessageCaption
       "Error editing caption: ".
Proof.
  split; intros message_id body chat_id reply_markup w r;
    eexists; (split; [apply edit_message_run || apply edit_photo_caption_run|]);
    fold r; unfold edit_log;
    destruct (telegram ext r) as [what|[] [description|] mid]; simpl; try done;
    by destruct (contains _ _).
Qed.

End Edits.

(** ** Progress monitor *)

Section MonitorFacts.
Context (cfg : config) (ext : services).
Import Poller Monitor.

Lemma fetch_progress_returns (f : log_file) :
  exists s, fetch_progress f = Ret s.
Proof.
  destruct f as [| |bytes]; [by eexists..|].
  destruct (utf8 bytes) eqn:Hbytes.
  - rewrite fetch_progress_readable by done. by eexists.
  - rewrite fetch_progress_not_text by done. by eexists.
Qed.

(** The value a poll extracts. *)
Definition extracted (log : log_file) : string :=
  match fetch_progress log with
  | Ret s => s
  | _ => ""
  end.

Lemma fetch_progress_extracted (log : log_file) :
  fetch_progress log = Ret (extracted log).
Proof.
  unfold extracted. by destruct (fetch_progress_returns log) as [s ->].
Qed.

(** The edit a poll issues when the value has changed. *)
Definition progress_edit (w : world) (current_progress : string) : request :=
  if use_banner w then
    editMessageCaption (CONFIG_CHATID cfg) (build_message_id w)
      (progress_caption cfg current_progress) None
  else
    editMessageText (CONFIG_CHATID cfg) (build_message_id w)
      (progress_text cfg current_progress) None.

Lemma poll_once_same (log : log_file) (w : world) :
  extracted log = previous_progress w ->
  poll_once cfg ext log w = (Ret tt, w).
Proof.
  intros Heq. unfold poll_once, bindM, lift, get.
  rewrite fetch_progress_extracted, Heq. by rewrite String.eqb_refl.
Qed.

(** Everything a poll does when the value has changed. *)
Definition poll_events (w : world) (current_progress : string) : list event :=
  let r := progress_edit w current_progress in
  Stderr ("
🔨 Build Progress: " +:+ current_progress +:+ "
")
  :: Telegram r
  :: edit_log
       (if use_banner w then "Error editing caption: "
        else "Error editing message: ")
       (telegram ext r).

Lemma requests_edit_log (label : string) (answer : reply) :
  requests (edit_log label answer) = [].
Proof.
  unfold edit_log. destruct answer as [|ok d m]; [done|].
  by destruct (ok || _).
Qed.

Lemma requests_poll_events (w : world) (s : string) :
  requests (poll_events w s) = [progress_edit w s].
Proof. unfold poll_events. simpl. by rewrite requests_edit_log. Qed.

Lemma poll_once_changed (log : log_file) (w : world) :
  extracted log <> previous_progress w ->
  poll_once cfg ext log w
  = (Ret tt,
     set_previous_progress (extracted log)
       (after w (poll_events w (extracted log)))).
Proof.
  intros Hne. unfold poll_once, bindM, lift, get.
  rewrite fetch_progress_extracted.
  apply String.eqb_neq in Hne. rewrite Hne.
  unfold when. cbn [negb]. cbv beta iota. rewrite eprint_run.
  unfold poll_events, progress_edit.
  destruct (use_banner w) eqn:Hb.
  - rewrite edit_photo_caption_run. cbv beta iota zeta.
    unfold modify. by rewrite after_after.
  - rewrite edit_message_run. cbv beta iota zeta.
    unfold modify. by rewrite after_after.
Qed.

(** How often the value changes along a run of polls. *)
Fixpoint changes (previous : string) (values : list string) : nat :=
  match values with
  | [] => 0
  | v :: rest =>
      (if String.eqb v previous then 0 else 1) + changes v rest
  end.

Lemma poll_once_step (log : log_file) (w : world) :
  exists w' new,
    poll_once cfg ext log w = (Ret tt, w')
    /\ trace w' = trace w ++ new
    /\ previous_progress w' = extracted log
    /\ length (requests new)
       = if String.eqb (extracted log) (previous_progress w) then 0%nat
         else 1%nat.
Proof.
  destruct (String.eqb (extracted log) (previous_progress w)) eqn:Heq.
  - apply String.eqb_eq in Heq. exists w, [].
    rewrite poll_once_same by done. by rewrite app_nil_r.
  - apply String.eqb_neq in Heq. eexists _, _.
    rewrite poll_once_changed by done. split; [done|].
    split; [reflexivity|]. split; [done|].
    by rewrite requests_poll_events.
Qed.

(** One edit per change of the extracted value, and no other request. *)
Lemma monitor_progress_edits (polls : list log_file) (w : world) :
  exists w' new,
    monitor_progress cfg ext polls w = (Ret tt, w')
    /\ trace w' = trace w ++ new
    /\ length (requests new)
       = changes (previous_progress w) (extracted <$> polls).
Proof.
  revert w. induction polls as [|log polls IH]; intros w.
  - exists w, []. by rewrite app_nil_r.
  - destruct (poll_once_step log w) as (w1 & new1 & H1 & Ht1 & Hp1 & Hn1).
    destruct (IH w1) as (w2 & new2 & H2 & Ht2 & Hn2).
    exists w2, (new1 ++ new2).
    split; [|split].
    + unfold monitor_progress in *. simpl. unfold bindM at 1. by rewrite H1.
    + by rewrite Ht2, Ht1, app_assoc.
    + rewrite requests_app, length_app, Hn1, Hn2, Hp1. done.
Qed.

(** C6: a poll that extracts the stored value does nothing at all, and two
    consecutive polls that extract equal strings issue at most one edit
    between them. *)
Theorem monitor_progress_no_repeat :
  (forall (log : log_file) (w : world),
     fetch_progress log = Ret (previous_progress w) ->
     poll_once cfg ext log w = (Ret tt, w))
  /\ (forall (log1 log2 : log_file) (w : world),
        fetch_progress log1 = fetch_progress log2 ->
        exists w' new,
          monitor_progress cfg ext [log1; log2] w = (Ret tt, w')
          /\ trace w' = trace w ++ new
          /\ (length (requests new) <= 1)%nat).
Proof.
  split.
  - intros log w H. apply poll_once_same. unfold extracted. by rewrite H.
  - intros log1 log2 w H.
    destruct (monitor_progress_edits [log1; log2] w) as (w' & new & Hrun & Ht & Hn).
    exists w', new. split; [done|]. split; [done|].
    rewrite Hn. simpl. unfold extracted at 1 3. rewrite H.
    fold (extracted log2). rewrite String.eqb_refl.
    destruct (String.eqb _ _); simpl; lia.
Qed.

End MonitorFacts.

(** ** Build runner *)

Section RunnerFacts.
Context (cfg : config) (ext : services).
Import Notifier Runner.

Lemma path_exists_run (p : string) (w : world) :
  path_exists p w = (Ret (bool_decide (is_Some (files w !! p))), w).
Proof. reflexivity. Qed.

(** The edit [edit_status] issues. *)
Definition status_edit (w : world) (body : string) : request :=
  if use_banner w then
    editMessageCaption (CONFIG_CHATID cfg) (build_message_id w) body None
  else editMessageText (CONFIG_CHATID cfg) (build_message_id w) body None.

Lemma edit_status_run (body : string) (w : world) :
  exists log,
    edit_status cfg ext body w
    = (Ret tt, after w (Telegram (status_edit w body) :: log))
    /\ requests log = [].
Proof.
  unfold edit_status, bindM, get, status_edit.
  destruct (use_banner w).
  - rewrite edit_photo_caption_run. eexists. split; [reflexivity|].
    apply requests_edit_log.
  - rewrite edit_message_run. eexists. split; [reflexivity|].
    apply requests_edit_log.
Qed.

(** Sending a file that exists issues one [sendDocument] and returns. *)
Lemma send_file_run (file_path chat_id : string) (w : world) :
  is_Some (files w !! file_path) ->
  exists message_id log,
    send_file cfg ext file_path (Some chat_id) w
    = (Ret message_id, after w (Telegram (sendDocument chat_id file_path) :: log))
    /\ requests log = [].
Proof.
  intros Hfile. unfold send_file, try_except, open_rb, bindM.
  rewrite path_exists_run, bool_decide_true by done.
  cbv beta iota. unfold ret at 1. cbv beta iota.
  rewrite post_run. simpl default.
  destruct (telegram ext _) as [what|ok d mid]; cbv beta iota.
  - exists None, [Stderr ("Error sending file: " +:+ what)].
    rewrite eprint_run. unfold ret. by rewrite after_after.
  - destruct ok; [by exists (Some mid), []|by exists None, []].
Qed.

(** What [remove_existing] leaves of the file system, and what it reports. *)
Fixpoint sweep (paths : list string) (fs : gmap string file)
  : gmap string file * list event :=
  match paths with
  | [] => (fs, [])
  | p :: rest =>
      if bool_decide (is_Some (fs !! p)) then
        let '(fs', evs) := sweep rest (delete p fs) in (fs', Removed p :: evs)
      else sweep rest fs
  end.

Lemma remove_existing_run (names : list string) (w : world) :
  let swept := sweep (join (ROOT_DIRECTORY cfg) <$> names) (files w) in
  remove_existing cfg names w
  = (Ret tt, after (set_files (fst swept) w) (snd swept)).
Proof.
  revert w. unfold remove_existing.
  induction names as [|n names IH]; intros w; simpl.
  - unfold ret. f_equal. destruct w. unfold after, set_files. simpl.
    by rewrite app_nil_r.
  - unfold bindM at 1. unfold bindM at 1. rewrite path_exists_run.
    destruct (bool_decide _) eqn:Hp.
    + apply bool_decide_eq_true in Hp as [f Hf].
      unfold when, remove. rewrite Hf. rewrite IH. simpl.
      destruct (sweep _ _) as [fs' evs]. simpl.
      unfold after, set_files, emit. simpl. by rewrite <- app_assoc.
    + unfold when, ret. rewrite IH. done.
Qed.

(** The signal [handle_interrupt] sends: none when no child was started. *)
Definition child_signal (w : world) : list event :=
  match build_process w with
  | Some _ => [Terminate]
  | None => []
  end.

(** [handle_interrupt] always ends in [sys.exit(130)]; before that it signals
    the child if there is one, edits the status message if there is one, and
    removes the files of [interrupt_cleanup]. *)
Lemma handle_interrupt_run (w : world) :
  exists log,
    let signal := child_signal w in
    let edit :=
      if id_truthy (build_message_id w)
      then Telegram (status_edit w (interrupt_msg cfg)) :: log else [] in
    let swept :=
      sweep (join (ROOT_DIRECTORY cfg) <$> interrupt_cleanup) (files w) in
    handle_interrupt cfg ext w
    = (Raise (SystemExit 130),
       after (set_files (fst swept) w) (signal ++ edit ++ snd swept))
    /\ requests log = [].
Proof.
  destruct (edit_status_run (interrupt_msg cfg)
              (after w (child_signal w)))
    as (log & Hedit & Hlog).
  exists log. split; [|done].
  unfold handle_interrupt, bindM at 1, get. cbv beta iota.
  unfold bindM at 1.
  assert (when (bool_decide (is_Some (build_process w))) (modify (emit Terminate)) w
          = (Ret tt, after w (child_signal w))) as ->.
  { unfold child_signal. destruct (build_process w); simpl; [done|].
    unfold ret. by rewrite after_nil. }
  unfold bindM at 1.
  assert (when (id_truthy (build_message_id w))
            (edit_status cfg ext (interrupt_msg cfg))
            (after w (child_signal w))
          = (Ret tt, after w ((child_signal w)
               ++ (if id_truthy (build_message_id w)
                   then Telegram (status_edit w (interrupt_msg cfg)) :: log
                   else [])))) as ->.
  { destruct (id_truthy _); simpl.
    - rewrite Hedit. by rewrite after_after.
    - unfold ret. by rewrite app_nil_r. }
  unfold bindM. rewrite remove_existing_run. simpl files.
  unfold raise. f_equal.
  unfold after, set_files. simpl. by rewrite <- !app_assoc.
Qed.

End RunnerFacts.

(** ** Sample configuration and worlds *)

Definition sample_cfg : config := {|
  DEVICE := "cancunf";
  VARIANT := "userdebug";
  CONFIG_OFFICIAL_FLAG := "";
  ROM_TYPE := "";
  CONFIG_CHATID := "-100123";
  CONFIG_BOT_TOKEN := "token";
  CONFIG_ERROR_CHATID := "-100456";
  RCLONE_REMOTE := "gdrive";
  RCLONE_FOLDER := "roms";
  POWEROFF := false;
  ROOT_DIRECTORY := "/build/lineage";
  ROM_NAME := "LineageOS";
  ANDROID_VERSION := "15";
  OUT_DIR := "/build/lineage/out/target/product/cancunf"
|}.

(** A chat service that accepts everything, an rclone remote that lists
    nothing and copies successfully, and a GoFile that accepts the upload. *)
Definition sample_ext : services := {|
  telegram := fun _ => Json true None 7;
  gofile_servers := Returns "store1";
  gofile_upload := fun _ _ => Returns (true, "https://gofile.io/d/abc");
  rclone_lsf := fun _ => Returns (0, "");
  rclone_copy := fun _ _ => Returns 0;
  rclone_link := fun _ => Returns (0, "https://drive.example/rom
")
|}.

(** A world in which the build child has exited with [code]. *)
Definition world_after_build (fs : gmap string file) (code : Z) : world := {|
  files := fs;
  build_message_id := Some 7;
  use_banner := false;
  build_process := Some {| poll := Some code |};
  previous_progress := "100% (1000/1000)";
  trace := []
|}.

Section CheckBuild.
Context (cfg : config) (ext : services).
Import Notifier Runner.

(** The sentinel: [out/error.log] exists and is not empty. *)
Definition error_log_nonempty (w : world) : Prop :=
  exists f, files w !! error_log = Some f /\ 0 < st_size f.

Lemma build_failed_run (w : world) :
  exists failed,
    build_failed w = (Ret failed, w)
    /\ (failed = true <-> error_log_nonempty w).
Proof.
  unfold build_failed, bindM, error_log_nonempty.
  rewrite path_exists_run.
  destruct (files w !! error_log) as [f|] eqn:Hf.
  - rewrite bool_decide_true by by eexists. cbv beta iota.
    unfold getsize. rewrite Hf.
    exists (0 <? st_size f). split; [done|].
    rewrite Z.ltb_lt. split; [by exists f|]. by intros (? & [= <-] & ?).
  - rewrite bool_decide_false by by intros [? [=]].
    exists false. split; [done|]. split; [done|]. by intros (? & [=] & _).
Qed.

(** The requests of the failure branch. *)
Definition failure_requests (w : world) : list request :=
  status_edit cfg w (fail_msg cfg)
  :: sendDocument (CONFIG_ERROR_CHATID cfg) error_log
  :: (if bool_decide (is_Some (files w !! BUILD_LOG cfg))
      then [sendDocument (CONFIG_ERROR_CHATID cfg) (BUILD_LOG cfg)]
      else []).

Lemma main_check_build_failed (on_success : M unit) (w : world) :
  error_log_nonempty w ->
  exists w' new,
    main_check_build cfg ext on_success w = (Ret tt, w')
    /\ w' = after w new
    /\ requests new = failure_requests w.
Proof.
  intros Hfail.
  destruct (build_failed_run w) as (failed & Hrun & Hiff).
  apply Hiff in Hfail as Hb. subst failed.
  destruct Hfail as (f & Hf & _).
  unfold main_check_build, bindM at 1. rewrite Hrun. cbv beta iota.
  destruct (edit_status_run cfg ext (fail_msg cfg) w) as (log1 & H1 & Hl1).
  unfold bindM at 1. rewrite H1. cbv beta iota.
  set (w1 := after w _).
  destruct (send_file_run cfg ext error_log (CONFIG_ERROR_CHATID cfg) w1)
    as (m2 & log2 & H2 & Hl2); [by eexists|].
  unfold bindM at 1. rewrite H2. cbv beta iota.
  set (w2 := after w1 _).
  unfold bindM at 1. rewrite path_exists_run. cbv beta iota.
  unfold failure_requests. change (files w2) with (files w).
  destruct (bool_decide (is_Some (files w !! BUILD_LOG cfg))) eqn:Hlog.
  - apply bool_decide_eq_true in Hlog.
    destruct (send_file_run cfg ext (BUILD_LOG cfg) (CONFIG_ERROR_CHATID cfg) w2)
      as (m3 & log3 & H3 & Hl3); [done|].
    unfold bindM. rewrite H3. cbv beta iota. unfold ret.
    subst w2 w1. rewrite !after_after.
    eexists _, _. split; [done|]. split; [done|].
    repeat (rewrite requests_app; simpl).
    by rewrite Hl1, Hl2, Hl3.
  - unfold ret. subst w2 w1. rewrite !after_after.
    eexists _, _. split; [done|]. split; [done|].
    repeat (rewrite requests_app; simpl).
    by rewrite Hl1, Hl2.
Qed.

(** C5 (amended): the build counts as failed exactly when [out/error.log]
    exists and is non-empty, whatever the state of the child process; then the
    status message is edited to the failure text and the error log is sent to
    the error chat, followed by the build log when that file exists; otherwise
    the success branch runs. *)
Theorem main_check_build_sentinel (on_success : M unit) (w : world) :
  (exists failed,
     build_failed w = (Ret failed, w)
     /\ (failed = true <-> error_log_nonempty w)
     /\ forall child, build_failed (set_build_process child w)
                      = (Ret failed, set_build_process child w))
  /\ (~ error_log_nonempty w ->
      main_check_build cfg ext on_success w = on_success w)
  /\ (error_log_nonempty w ->
      exists new,
        main_check_build cfg ext on_success w = (Ret tt, after w new)
        /\ requests new = failure_requests w).
Proof.
  destruct (build_failed_run w) as (failed & Hrun & Hiff).
  split; [|split].
  - exists failed. split; [done|]. split; [done|].
    intros child.
    destruct (build_failed_run (set_build_process child w)) as (b & Hb & Hbiff).
    rewrite Hb. do 2 f_equal.
    destruct b, failed; try done.
    + symmetry. apply Hiff, Hbiff. done.
    + apply Hbiff, Hiff. done.
  - intros Hok. unfold main_check_build, bindM. rewrite Hrun.
    destruct failed; [|done]. by destruct Hok; apply Hiff.
  - intros Hfail.
    destruct (main_check_build_failed on_success w Hfail) as (w' & new & ? & -> & ?).
    by exists new.
Qed.

End CheckBuild.

Section CheckBuildExamples.
Import Notifier Runner.

Definition some_file (size : Z) : file := {| st_size := size; st_mtime := 0 |}.

(** The child exited with code 0, and left a non-empty [out/error.log]
    beside the build log. *)
Definition failed_world : world :=
  world_after_build
    (<["out/error.log" := some_file 120]>
       (<["/build/lineage/build.log" := some_file 4096]> ∅)) 0.

(** The same, but the build log is gone. *)
Definition failed_world_no_log : world :=
  world_after_build (<["out/error.log" := some_file 120]> ∅) 0.

Lemma main_check_build_sentinel_witness :
  error_log_nonempty failed_world
  /\ exists new,
       main_check_build sample_cfg sample_ext (ret tt) failed_world
       = (Ret tt, after failed_world new)
       /\ requests new = failure_requests sample_cfg failed_world.
Proof.
  assert (H : error_log_nonempty failed_world).
  { exists (some_file 120). split; [reflexivity|]. simpl. lia. }
  split; [exact H|].
  destruct (main_check_build_sentinel sample_cfg sample_ext (ret tt) failed_world)
    as (_ & _ & Hfail).
  exact (Hfail H).
Defined.

(** C5 (as stated) fails: with a non-empty error log but no build log, the
    failure branch forwards a single file. *)
Lemma main_check_build_one_log :
  error_log_nonempty failed_world_no_log
  /\ exists new,
       main_check_build sample_cfg sample_ext (ret tt) failed_world_no_log
       = (Ret tt, after failed_world_no_log new)
       /\ requests new
          = [editMessageText "-100123" (Some 7) (fail_msg sample_cfg) None;
             sendDocument "-100456" "out/error.log"]
       /\ sendDocument "-100456" (BUILD_LOG sample_cfg) ∉ requests new.
Proof.
  assert (H : error_log_nonempty failed_world_no_log).
  { exists (some_file 120). split; [reflexivity|]. simpl. lia. }
  split; [exact H|].
  destruct (main_check_build_failed sample_cfg sample_ext (ret tt) _ H)
    as (w' & new & Hrun & -> & Hreq).
  exists new. split; [exact Hrun|].
  rewrite Hreq. split; [reflexivity|].
  vm_compute. intros Hin. repeat (inversion Hin as [|? ? ? Hin']; clear Hin; rename Hin' into Hin).
Qed.

End CheckBuildExamples.

Section MonitorExamples.
Import Poller Monitor.

(** The build is running and nothing has been reported yet. *)
Definition building_world : world := {|
  files := ∅;
  build_message_id := Some 7;
  use_banner := false;
  build_process := Some {| poll := None |};
  previous_progress := "";
  trace := []
|}.

Definition log_at_55 : log_file :=
  Readable "[ 10% 100/1000] a
[ 55% 550/1000] b
".

Lemma monitor_progress_no_repeat_witness :
  poll_once sample_cfg sample_ext log_at_55
    (set_previous_progress "55% (550/1000)" building_world)
  = (Ret tt, set_previous_progress "55% (550/1000)" building_world)
  /\ exists w' new,
       monitor_progress sample_cfg sample_ext [log_at_55; log_at_55]
         building_world = (Ret tt, w')
       /\ trace w' = trace building_world ++ new
       /\ (length (requests new) <= 1)%nat.
Proof.
  destruct (monitor_progress_no_repeat sample_cfg sample_ext) as [Hsame Htwice].
  split.
  - apply Hsame. reflexivity.
  - apply Htwice. reflexivity.
Defined.

(** The scenario of the specification: the log shows 10%, then 55%, then
    100%, with a repeated poll in between; three edits are issued, one per
    percentage. *)
Example monitor_progress_three_updates :
  exists w',
    monitor_progress sample_cfg sample_ext
      [Readable "10% 100/1000
";
       Readable "10% 100/1000
55% 550/1000
";
       Readable "10% 100/1000
55% 550/1000
";
       Readable "10% 100/1000
55% 550/1000
100% 1000/1000
"]
      building_world = (Ret tt, w')
    /\ requests (trace w')
       = [editMessageText "-100123" (Some 7)
            (progress_text sample_cfg "10% (100/1000)") None;
          editMessageText "-100123" (Some 7)
            (progress_text sample_cfg "55% (550/1000)") None;
          editMessageText "-100123" (Some 7)
            (progress_text sample_cfg "100% (1000/1000)") None].
Proof. eexists. split; [vm_compute; reflexivity|vm_compute; reflexivity]. Qed.

End MonitorExamples.

(** ** Interruption *)

Section Interrupt.
Import Runner.

(** SIGINT arrives while the logo files of a banner generation are still on
    disk. *)
Definition interrupted_world : world := {|
  files :=
    <["/build/lineage/build_banner.png" := some_file 900]>
      (<["/build/lineage/rom_logo.png" := some_file 300]>
         (<["/build/lineage/logo_circle.png" := some_file 200]> ∅));
  build_message_id := Some 7;
  use_banner := false;
  build_process := Some {| poll := None |};
  previous_progress := "55% (550/1000)";
  trace := []
|}.

(** C7 (the handler at the failing input): the child is signalled, the
    status message is edited and the process exits with code 130, but of the
    image files on disk only [build_banner.png] is removed; [rom_logo.png] and
    [logo_circle.png], which the cleanup that ends [main] removes, stay. *)
Theorem handle_interrupt_leaves_logo :
  exists w',
    handle_interrupt sample_cfg sample_ext interrupted_world
    = (Raise (SystemExit 130), w')
    /\ trace w'
       = [Terminate;
          Telegram (editMessageText "-100123" (Some 7)
                      (interrupt_msg sample_cfg) None);
          Removed "/build/lineage/build_banner.png"]
    /\ files w' !! "/build/lineage/build_banner.png" = None
    /\ files w' !! "/build/lineage/rom_logo.png" = Some (some_file 300)
    /\ files w' !! "/build/lineage/logo_circle.png" = Some (some_file 200)
    /\ exists w'',
         main_cleanup_files sample_cfg interrupted_world = (Ret tt, w'')
         /\ files w'' = ∅.
Proof.
  eexists. split; [vm_compute; reflexivity|].
  repeat split; try (vm_compute; reflexivity).
  eexists. split; [vm_compute; reflexivity|vm_compute; reflexivity].
Qed.

End Interrupt.

(** ** Upload dispatcher: [find_rom_zip] *)

Section Glob.
Import Uploader.

Definition star_free (p : string) : Prop :=
  all_chars (fun c => negb (is_char "*" c)) p = true.

Lemma is_char_true (a c : ascii) : is_char a c = true <-> a = c.
Proof. unfold is_char. apply bool_decide_eq_true. Qed.

Lemma fnmatch_star (pat s : string) :
  fnmatch (String "*" pat) s = true
  <-> exists a b, s = a +:+ b /\ fnmatch pat b = true.
Proof.
  change (fnmatch (String "*" pat) s)
    with ((fix star (s : string) : bool :=
             fnmatch pat s
             || match s with
                | EmptyString => false
                | String _ s' => star s'
                end) s).
  induction s as [|c s IH].
  - rewrite orb_false_r. split.
    + intros H. by exists "", "".
    + intros (a & b & Hab & Hm). destruct a; [|done].
      rewrite app_empty_l in Hab. by subst b.
  - rewrite orb_true_iff, IH. split.
    + intros [H|(a & b & -> & H)].
      * by exists "", (String c s).
      * by exists (String c a), b.
    + intros ([|a0 a] & b & Hab & Hm).
      * rewrite app_empty_l in Hab. subst b. by left.
      * rewrite app_cons in Hab. injection Hab as -> ->. right. by exists a, b.
Qed.

Lemma fnmatch_prefix (pre rest s : string) :
  star_free pre ->
  fnmatch (pre +:+ rest) s = true
  <-> exists b, s = pre +:+ b /\ fnmatch rest b = true.
Proof.
  unfold star_free. revert s. induction pre as [|c pre IH]; intros s Hfree.
  - rewrite app_empty_l. split; [by exists s|]. by intros (b & -> & H).
  - simpl in Hfree. apply andb_true_iff in Hfree as [Hc Hfree].
    rewrite app_cons. simpl. apply negb_true_iff in Hc. rewrite Hc.
    destruct s as [|d s].
    + split; [done|]. by intros (b & ? & _).
    + rewrite andb_true_iff, is_char_true, (IH _ Hfree). split.
      * intros (-> & b & -> & H). by exists b.
      * intros (b & Hb & H). rewrite app_cons in Hb.
        injection Hb as -> ->. split; [done|]. by exists b.
Qed.

Lemma fnmatch_literal (pat s : string) :
  star_free pat -> fnmatch pat s = true <-> s = pat.
Proof.
  intros Hfree. rewrite <- (app_empty_r pat) at 1.
  rewrite fnmatch_prefix by done. simpl. split.
  - intros (b & -> & Hb). destruct b; [|done]. by rewrite app_empty_r.
  - intros ->. exists "". by rewrite app_empty_r.
Qed.

(** A pattern [pre*suf] matches the names that start with [pre] and go on
    to end with [suf]. *)
Lemma fnmatch_prefix_star_suffix (pre suf s : string) :
  star_free pre -> star_free suf ->
  fnmatch (pre +:+ "*" +:+ suf) s = true
  <-> exists mid, s = pre +:+ mid +:+ suf.
Proof.
  intros Hpre Hsuf. rewrite fnmatch_prefix by done.
  change ("*" +:+ suf) with (String "*" suf).
  setoid_rewrite fnmatch_star. setoid_rewrite (fnmatch_literal suf); [|done..].
  split.
  - intros (b & -> & mid & ? & -> & ->). by exists mid.
  - intros (mid & ->). exists (mid +:+ suf). split; [done|]. by exists mid, suf.
Qed.

End Glob.

Section FindRomZip.
Import Uploader.

(** [f] is a candidate for [pattern]: matched by the glob, named neither
    "ota" nor "img" in any letter case, and larger than 500 MiB. *)
Definition qualifies (pattern : string) (f : dirent) : Prop :=
  fnmatch pattern (name f) = true
  /\ contains "ota" (lower (name f)) = false
  /\ contains "img" (lower (name f)) = false
  /\ 500 * 1024 * 1024 < st_size (stat f).

Lemma candidates_spec (out_dir : list dirent) (pattern : string) (f : dirent) :
  f ∈ candidates out_dir pattern <-> f ∈ out_dir /\ qualifies pattern f.
Proof.
  unfold candidates, glob, qualifies, not_ota_img, big_enough.
  rewrite !list_elem_of_filter, andb_true_iff, !negb_true_iff, Z.ltb_lt.
  tauto.
Qed.

Lemma max_mtime_spec (best : dirent) (rest : list dirent) :
  max_mtime best rest ∈ best :: rest
  /\ forall g, g ∈ best :: rest ->
       st_mtime (stat g) <= st_mtime (stat (max_mtime best rest)).
Proof.
  revert best. induction rest as [|f rest IH]; intros best; simpl.
  - split; [left|]. intros g ->%list_elem_of_singleton. lia.
  - destruct (IH (if st_mtime (stat best) <? st_mtime (stat f) then f else best))
      as [Hin Hmax].
    split.
    + apply elem_of_cons in Hin as [->|Hin].
      * destruct (_ <? _); [right; left|left].
      * right. by right.
    + intros g Hg.
      assert (Hstep : st_mtime (stat best)
                <= st_mtime (stat (if st_mtime (stat best) <? st_mtime (stat f)
                                   then f else best))
              /\ st_mtime (stat f)
                <= st_mtime (stat (if st_mtime (stat best) <? st_mtime (stat f)
                                   then f else best))).
      { destruct (Z.ltb_spec (st_mtime (stat best)) (st_mtime (stat f))); lia. }
      destruct Hstep as [Hb Hf].
      apply elem_of_cons in Hg as [->|Hg].
      * etrans; [exact Hb|]. apply Hmax. left.
      * apply elem_of_cons in Hg as [->|Hg].
        -- etrans; [exact Hf|]. apply Hmax. left.
        -- apply Hmax. by right.
Qed.

Lemma find_in_spec (out_dir : list dirent) (patterns : list string) :
  match find_in out_dir patterns with
  | Some p =>
      exists earlier pattern later f,
        patterns = earlier ++ pattern :: later
        /\ (forall q g, q ∈ earlier -> g ∈ out_dir -> ~ qualifies q g)
        /\ f ∈ out_dir /\ qualifies pattern f /\ p = path f
        /\ (forall g, g ∈ out_dir -> qualifies pattern g ->
              st_mtime (stat g) <= st_mtime (stat f))
  | None => forall q g, q ∈ patterns -> g ∈ out_dir -> ~ qualifies q g
  end.
Proof.
  induction patterns as [|pattern patterns IH]; simpl.
  - intros q g Hq. by apply elem_of_nil in Hq.
  - destruct (candidates out_dir pattern) as [|f files] eqn:Hc.
    + assert (Hnone : forall g, g ∈ out_dir -> ~ qualifies pattern g).
      { intros g Hg Hqual.
        assert (Hin : g ∈ candidates out_dir pattern) by by apply candidates_spec.
        rewrite Hc in Hin. by apply elem_of_nil in Hin. }
      destruct (find_in out_dir patterns) as [p|].
      * destruct IH as (earlier & q & later & f & -> & Hearly & ? & ? & ? & ?).
        exists (pattern :: earlier), q, later, f.
        split; [done|]. split; [|done].
        intros q' g [->|Hq']%elem_of_cons Hg; [by apply Hnone|by apply Hearly].
      * intros q g [->|Hq]%elem_of_cons Hg; [by apply Hnone|by apply IH].
    + destruct (max_mtime_spec f files) as [Hin Hmax].
      rewrite <- Hc in Hin, Hmax.
      apply candidates_spec in Hin as [Hdir Hqual].
      exists [], pattern, patterns, (max_mtime f files).
      split; [done|]. split; [intros q g Hq; by apply elem_of_nil in Hq|].
      split; [done|]. split; [done|]. split; [done|].
      intros g Hg Hg'. apply Hmax. by apply candidates_spec.
Qed.

Lemma brand_matches (brand file_name : string) :
  star_free (brand +:+ "-") ->
  fnmatch ((brand +:+ "-") +:+ "*" +:+ ".zip") file_name = true ->
  exists mid, file_name = brand +:+ "-" +:+ mid +:+ ".zip".
Proof.
  intros Hfree Hmatch.
  apply fnmatch_prefix_star_suffix in Hmatch as [mid ->]; [|done..].
  exists mid. by rewrite app_assoc_s.
Qed.

(** Every recognised pattern is a brand followed by [-*.zip], and matches
    the names [<brand>-<anything>.zip]. *)
Lemma rom_patterns_shape (pattern file_name : string) :
  pattern ∈ rom_patterns ->
  fnmatch pattern file_name = true ->
  exists brand mid,
    brand ∈ ["axion"; "lineage"; "voltage"; "arrow"; "evolution"]
    /\ pattern = brand +:+ "-*.zip"
    /\ file_name = brand +:+ "-" +:+ mid +:+ ".zip".
Proof.
  intros Hin Hmatch. unfold rom_patterns in Hin.
  repeat (apply elem_of_cons in Hin as [->|Hin]);
    [exists "axion"; destruct (brand_matches "axion" file_name) as [mid ->]
    |exists "lineage"; destruct (brand_matches "lineage" file_name) as [mid ->]
    |exists "voltage"; destruct (brand_matches "voltage" file_name) as [mid ->]
    |exists "arrow"; destruct (brand_matches "arrow" file_name) as [mid ->]
    |exists "evolution"; destruct (brand_matches "evolution" file_name) as [mid ->]
    |by apply elem_of_nil in Hin];
    try done; exists mid; (split; [set_solver|done]).
Qed.

(** C3 (amended): the patterns are tried in their listed order, and the
    first one with a candidate decides: the result is the most recently
    modified candidate of that pattern, a candidate being an entry named
    [<brand>-<anything>.zip] for the brand of the pattern, whose name contains
    neither "ota" nor "img" in any letter case and whose size exceeds 500 MiB;
    there is no result when no pattern has a candidate. *)
Theorem find_rom_zip_first_pattern (out_dir : list dirent) :
  match find_rom_zip out_dir with
  | Some p =>
      exists earlier pattern later f,
        rom_patterns = earlier ++ pattern :: later
        /\ (forall q g, q ∈ earlier -> g ∈ out_dir -> ~ qualifies q g)
        /\ f ∈ out_dir /\ qualifies pattern f /\ p = path f
        /\ (forall g, g ∈ out_dir -> qualifies pattern g ->
              st_mtime (stat g) <= st_mtime (stat f))
        /\ exists brand mid,
             pattern = brand +:+ "-*.zip"
             /\ name f = brand +:+ "-" +:+ mid +:+ ".zip"
  | None => forall q g, q ∈ rom_patterns -> g ∈ out_dir -> ~ qualifies q g
  end.
Proof.
  unfold find_rom_zip. pose proof (find_in_spec out_dir rom_patterns) as H.
  destruct (find_in out_dir rom_patterns) as [p|]; [|exact H].
  destruct H as (earlier & pattern & later & f & Hsplit & Hearly & Hin & Hq & Hp & Hnew).
  exists earlier, pattern, later, f.
  do 6 (split; [assumption|]).
  destruct (rom_patterns_shape pattern (name f)) as (brand & mid & _ & ? & ?).
  - rewrite Hsplit. apply elem_of_app. right. left.
  - apply Hq.
  - by exists brand, mid.
Qed.

Definition rom (file_name : string) (size mtime : Z) : dirent := {|
  path := "/build/lineage/out/target/product/cancunf/" +:+ file_name;
  name := file_name;
  stat := {| st_size := size; st_mtime := mtime |}
|}.

(** An output directory holding an older Axion archive and a newer
    Lineage archive, both of 600 MiB. *)
Definition two_roms : list dirent :=
  [rom "lineage-22.1-cancunf.zip" 629145600 200;
   rom "axion-1.0-cancunf.zip" 629145600 100].

(** Exclusion at work: an OTA package, a boot image archive and a small
    archive are passed over, whatever their age. *)
Example find_rom_zip_excludes :
  find_rom_zip
    [rom "lineage-22.1-cancunf-ota.zip" 629145600 900;
     rom "lineage-22.1-IMG.zip" 629145600 800;
     rom "lineage-22.1-small.zip" 524288000 700;
     rom "lineage-22.1-cancunf.zip" 524288001 100;
     rom "notes.txt" 629145600 950]
  = Some "/build/lineage/out/target/product/cancunf/lineage-22.1-cancunf.zip"
  /\ find_rom_zip
       [rom "lineage-22.1-cancunf-ota.zip" 629145600 900;
        rom "lineage-22.1-small.zip" 524288000 700]
     = None.
Proof. split; reflexivity. Qed.

(** C3 (as stated) fails: both archives are candidates, and the one
    returned is not the most recently modified. *)
Lemma find_rom_zip_not_newest :
  exists older newer,
    older ∈ two_roms /\ newer ∈ two_roms
    /\ qualifies "axion-*.zip" older /\ qualifies "lineage-*.zip" newer
    /\ st_mtime (stat older) < st_mtime (stat newer)
    /\ find_rom_zip two_roms = Some (path older).
Proof.
  exists (rom "axion-1.0-cancunf.zip" 629145600 100),
         (rom "lineage-22.1-cancunf.zip" 629145600 200).
  split; [right; left|]. split; [left|].
  repeat split; try reflexivity.
Qed.

End FindRomZip.

(** ** Paths *)

Section Paths.

Definition slash_free (s : string) : Prop :=
  all_chars (fun c => negb (is_char "/" c)) s = true.

Lemma slash_free_app (s t : string) :
  slash_free (s +:+ t) <-> slash_free s /\ slash_free t.
Proof. unfold slash_free. by rewrite all_chars_app, andb_true_iff. Qed.

Lemma rsplit_sep_slash_free (t : string) :
  slash_free t -> rsplit_sep t = ("", t).
Proof.
  unfold slash_free. induction t as [|c t IH]; [done|]. simpl.
  intros [Hc Ht]%andb_true_iff. rewrite (IH Ht). simpl.
  apply negb_true_iff in Hc. by rewrite Hc.
Qed.

Lemma rsplit_sep_after_slash (a t : string) :
  slash_free t -> rsplit_sep (a +:+ "/" +:+ t) = (a +:+ "/", t).
Proof.
  intros Ht. induction a as [|c a IH].
  - rewrite app_empty_l. change ("/" +:+ t) with (String "/" t). simpl.
    by rewrite (rsplit_sep_slash_free t Ht).
  - rewrite app_cons. simpl. rewrite IH.
    by destruct a.
Qed.

Lemma rsplit_sep_spec (p h t : string) :
  rsplit_sep p = (h, t) -> p = h +:+ t /\ slash_free t.
Proof.
  revert h t. induction p as [|c p IH]; intros h t; simpl.
  - by intros [= <- <-].
  - destruct (rsplit_sep p) as [h' t'] eqn:Hp.
    destruct (IH _ _ eq_refl) as [-> Ht'].
    destruct (truthy h') eqn:Hh'.
    + by intros [= <- <-].
    + destruct h'; [|done]. rewrite app_empty_l.
      destruct (is_char "/" c) eqn:Hc; intros [= <- <-].
      * done.
      * rewrite app_empty_l. split; [done|]. unfold slash_free. simpl.
        by rewrite Hc.
Qed.

Lemma basename_slash_free (p : string) : slash_free (basename p).
Proof.
  unfold basename. destruct (rsplit_sep p) as [h t] eqn:Hp.
  by apply rsplit_sep_spec in Hp as [_ ?].
Qed.

Lemma ends_with_sep_spec (d : string) :
  ends_with_sep d = true -> exists d', d = d' +:+ "/".
Proof.
  induction d as [|c d IH]; [done|]. simpl. destruct d as [|c' d].
  - intros ->%is_char_true. by exists "".
  - intros [d' Hd']%IH. exists (String c d'). by rewrite app_cons, <- Hd'.
Qed.

Lemma basename_join (d n : string) :
  slash_free n -> basename (join d n) = n.
Proof.
  intros Hn. unfold join, basename.
  assert (startswith "/" n = false) as ->.
  { destruct n as [|c n]; [done|]. unfold slash_free in Hn. simpl in *.
    apply andb_true_iff in Hn as [Hc _]. apply negb_true_iff in Hc.
    destruct (ascii_dec "/" c) as [<-|]; [done|done]. }
  destruct (negb (truthy d) || ends_with_sep d) eqn:Hd.
  - apply orb_true_iff in Hd as [Hd|Hd].
    + destruct d; [|done]. rewrite app_empty_l.
      by rewrite rsplit_sep_slash_free.
    + apply ends_with_sep_spec in Hd as [d' ->]. rewrite app_assoc_s.
      by rewrite rsplit_sep_after_slash.
  - by rewrite rsplit_sep_after_slash.
Qed.

Lemma rsplit_dot_spec (t r e : string) :
  rsplit_dot t = Some (r, e) -> t = r +:+ e.
Proof.
  revert r e. induction t as [|c t IH]; intros r e; [done|]. simpl.
  destruct (rsplit_dot t) as [[r' e']|].
  - intros [= <- <-]. rewrite app_cons. f_equal. by apply IH.
  - destruct (is_char "." c); [|done]. by intros [= <- <-].
Qed.

Lemma splitext_spec (p : string) :
  fst (splitext p) +:+ snd (splitext p) = p.
Proof.
  unfold splitext. destruct (rsplit_sep p) as [h t] eqn:Hp.
  apply rsplit_sep_spec in Hp as [-> _].
  destruct (rsplit_dot t) as [[r e]|] eqn:Ht; simpl.
  - destruct (all_chars _ r); simpl; [apply app_empty_r|].
    apply rsplit_dot_spec in Ht as ->. apply app_assoc_s.
  - apply app_empty_r.
Qed.

Lemma str_of_nat_digits (n : nat) :
  all_chars is_ascii_digit (str_of_nat n) = true.
Proof.
  unfold str_of_nat. induction (Nat.to_uint n) as [|u IH|u IH|u IH|u IH|u IH|u IH|u IH|u IH|u IH|u IH];
    simpl; by rewrite ?IH.
Qed.

Lemma all_chars_impl (p q : ascii -> bool) (s : string) :
  (forall c, p c = true -> q c = true) ->
  all_chars p s = true -> all_chars q s = true.
Proof.
  intros Hpq. induction s as [|c s IH]; [done|]. simpl.
  intros [Hc Hs]%andb_true_iff. by rewrite (Hpq c Hc), IH.
Qed.

Lemma str_of_nat_slash_free (n : nat) : slash_free (str_of_nat n).
Proof.
  unfold slash_free. eapply all_chars_impl; [|apply str_of_nat_digits].
  intros c Hc. apply negb_true_iff. apply not_true_iff_false.
  intros <-%is_char_true. done.
Qed.





End Paths.

(** ** Upload dispatcher: [upload_rclone] *)

Section Rclone.
Context (cfg : config) (ext : services).
Import Uploader.

Lemma bindM_ret {A B} (m : M A) (k : A -> M B) (w w' : world) (a : A) :
  m w = (Ret a, w') -> bindM m k w = k a w'.
Proof. unfold bindM. by intros ->. Qed.

Lemma bindM_raise {A B} (m : M A) (k : A -> M B) (w w' : world) (e : exn) :
  m w = (Raise e, w') -> bindM m k w = (Raise e, w').
Proof. unfold bindM. by intros ->. Qed.

Lemma try_except_ret {A} (body : M A) (handler : string -> M A)
    (w w' : world) (a : A) :
  body w = (Ret a, w') -> try_except body handler w = (Ret a, w').
Proof. unfold try_except. by intros ->. Qed.

Lemma try_except_caught {A} (body : M A) (handler : string -> M A)
    (w w' : world) (what : string) :
  body w = (Raise (Exception what), w') ->
  try_except body handler w = handler what w'.
Proof. unfold try_except. by intros ->. Qed.

Lemma run_returns {A} (argv : list string) (a : A) (w : world) :
  run argv (Returns a) w = (Ret a, after w [Exec argv]).
Proof. reflexivity. Qed.

Lemma run_throws {A} (argv : list string) (what : string) (w : world) :
  run (A := A) argv (Throws what) w
  = (Raise (Exception what), after w [Exec argv]).
Proof. reflexivity. Qed.

Lemma getsize_run (p : string) (f : file) (w : world) :
  files w !! p = Some f -> getsize p w = (Ret (st_size f), w).
Proof. unfold getsize. by intros ->. Qed.

(** The path [rclone lsf] is asked about. *)
Definition check_path (file_name : string) : string :=
  base_path cfg +:+ "/" +:+ file_name.

Definition lsf_check (file_name : string) : event :=
  Exec ["rclone"; "lsf"; check_path file_name].

(** The listing reports [file_name] as present: return code 0 and an
    output that is not blank. *)
Definition reported (file_name : string) : Prop :=
  exists stdout,
    rclone_lsf ext (check_path file_name) = Returns (0, stdout)
    /\ truthy (strip stdout) = true.

(** The listing answers, and does not report [file_name]. *)
Definition unreported (file_name : string) : Prop :=
  exists returncode stdout,
    rclone_lsf ext (check_path file_name) = Returns (returncode, stdout)
    /\ (returncode =? 0) && truthy (strip stdout) = false.


(** The [j]-th name the loop tries when it starts from [file_name] at
    [version]. *)
Definition tried (name_parts : string * string) (file_name : string)
    (version j : nat) : string :=
  match j with
  | O => file_name
  | S _ => versioned name_parts (version + j)
  end.

Lemma pick_name_S (fuel : nat) (name_parts : string * string)
    (file_name : string) (version : nat) :
  pick_name cfg ext (S fuel) name_parts file_name version
  = bindM (run ["rclone"; "lsf"; check_path file_name]
             (rclone_lsf ext (check_path file_name)))
      (fun check_result =>
         let '(returncode, stdout) := check_result in
         if (returncode =? 0) && truthy (strip stdout) then
           pick_name cfg ext fuel name_parts
             (versioned name_parts (S version)) (S version)
         else ret (file_name, version)).
Proof. reflexivity. Qed.

Lemma tried_shift (name_parts : string * string) (file_name : string)
    (version j : nat) :
  tried name_parts (versioned name_parts (S version)) (S version) j
  = tried name_parts file_name version (S j).
Proof. unfold tried. destruct j; f_equal; lia. Qed.

Lemma pick_name_run (name_parts : string * string) (k : nat) :
  forall (fuel : nat) (file_name : string) (version : nat) (w : world),
    (k < fuel)%nat ->
    (forall j, (j < k)%nat -> reported (tried name_parts file_name version j)) ->
    unreported (tried name_parts file_name version k) ->
    pick_name cfg ext fuel name_parts file_name version w
    = (Ret (tried name_parts file_name version k, (version + k)%nat),
       after w (lsf_check <$> (tried name_parts file_name version <$> seq 0 (S k)))).
Proof.
  induction k as [|k IH]; intros fuel file_name version w Hfuel Hrep Hun.
  - destruct fuel as [|fuel]; [lia|]. rewrite pick_name_S.
    destruct Hun as (rc & out & Hlsf & Hno). unfold tried in Hlsf, Hno.
    rewrite Hlsf. erewrite bindM_ret by apply run_returns.
    cbv beta iota. rewrite Hno. by rewrite Nat.add_0_r.
  - destruct fuel as [|fuel]; [lia|]. rewrite pick_name_S.
    destruct (Hrep 0%nat ltac:(lia)) as (out & Hlsf & Hout).
    unfold tried in Hlsf.
    rewrite Hlsf. erewrite bindM_ret by apply run_returns.
    cbv beta iota. rewrite Hout. simpl andb. cbv iota.
    rewrite (IH fuel (versioned name_parts (S version)) (S version)); [|lia| |].
    + rewrite after_after, (tried_shift _ file_name).
      f_equal; [do 2 f_equal; lia|].
      assert (Hl : tried name_parts file_name version <$> seq 0 (S (S k))
                = file_name
                  :: (tried name_parts (versioned name_parts (S version))
                        (S version) <$> seq 0 (S k))).
      { change (seq 0 (S (S k))) with (0%nat :: seq 1 (S k)).
        rewrite <- fmap_S_seq, fmap_cons. f_equal.
        rewrite <- list_fmap_compose. apply list_fmap_ext.
        intros i j' _. simpl. symmetry. apply (tried_shift _ file_name). }
      by rewrite Hl.
    + intros j Hj. rewrite (tried_shift _ file_name). apply Hrep. lia.
    + by rewrite (tried_shift _ file_name).
Qed.

(** The [k]-th name tried for [file_path]: its base name, then the
    versioned names. *)
Definition candidate (file_path : string) (k : nat) : string :=
  tried (splitext (basename file_path)) (basename file_path) 0 k.

Lemma length_versioned (name_parts : string * string) (version : nat) :
  String.length (versioned name_parts version)
  = (String.length (fst name_parts)
     + (2 + (String.length (str_of_nat version)
             + (1 + String.length (snd name_parts)))))%nat.
Proof.
  unfold versioned. rewrite length_app_s. f_equal.
  change (" (" +:+ ?x) with (String " " (String "(" x)).
  change (String.length (String " " (String "(" ?x)))
    with (2 + String.length x)%nat.
  f_equal. rewrite length_app_s. f_equal.
Qed.

Lemma versioned_neq (file_name : string) (version : nat) :
  versioned (splitext file_name) version <> file_name.
Proof.
  intros H. apply (f_equal String.length) in H.
  pose proof (f_equal String.length (splitext_spec file_name)) as Hs.
  rewrite length_versioned in H. rewrite length_app_s in Hs. lia.
Qed.

Lemma versioned_slash_free (file_name : string) (version : nat) :
  slash_free file_name ->
  slash_free (versioned (splitext file_name) version).
Proof.
  intros Hfree. rewrite <- (splitext_spec file_name) in Hfree.
  apply slash_free_app in Hfree as [Hroot Hext].
  unfold versioned. rewrite !slash_free_app.
  split; [done|]. split; [done|]. split; [apply str_of_nat_slash_free|].
  by split.
Qed.

Lemma candidate_slash_free (file_path : string) (k : nat) :
  slash_free (candidate file_path k).
Proof.
  destruct k; [apply basename_slash_free|].
  apply versioned_slash_free, basename_slash_free.
Qed.

(** The local path handed to [rclone copy] when the [k]-th name is chosen. *)
Definition upload_path (file_path : string) (k : nat) : string :=
  match k with
  | O => file_path
  | S _ => join (dirname file_path) (candidate file_path k)
  end.

Lemma upload_path_versioned (file_path : string) (k : nat) :
  basename (upload_path file_path (S k)) = candidate file_path (S k)
  /\ upload_path file_path (S k) <> file_path.
Proof.
  assert (Hb : basename (upload_path file_path (S k)) = candidate file_path (S k)).
  { apply basename_join, candidate_slash_free. }
  split; [done|]. intros Heq. rewrite Heq in Hb.
  symmetry in Hb. by apply versioned_neq in Hb.
Qed.

Definition copy_command (file_path : string) (k : nat) : event :=
  Exec ["rclone"; "copy"; upload_path file_path k; rclone_dest cfg;
        "--progress"; "--stats"; "1s"].

(** What [upload_rclone] returns once the transfer under [chosen] ended
    with [code]. *)
Definition transfer_result (chosen : string) (code : Z) : option string :=
  if negb (code =? 0) then None
  else
    match rclone_link ext (check_path chosen) with
    | Returns (link_code, stdout) =>
        Some (if link_code =? 0 then strip stdout else check_path chosen)
    | Throws _ => None
    end.

Definition link_command (chosen : string) (code : Z) : list event :=
  if negb (code =? 0) then []
  else [Exec ["rclone"; "link"; check_path chosen]].

(** The local file system after the upload, and the local file operations
    around the transfer. *)
Definition files_after (file_path : string) (k : nat) (w : world) : world :=
  match k with
  | O => w
  | S _ => set_files (delete (upload_path file_path k) (files w)) w
  end.

Definition duplicate (file_path : string) (k : nat) : list event :=
  match k with
  | O => []
  | S _ => [Copied file_path (upload_path file_path k)]
  end.

Definition discard (file_path : string) (k : nat) : list event :=
  match k with
  | O => []
  | S _ => [Removed (upload_path file_path k)]
  end.

(** The outcome of the statements that follow the cleanup of the temporary
    copy, before the [except] clause turns an exception into [None]. *)
Definition link_outcome (chosen : string) (code : Z)
  : result (option string) :=
  if negb (code =? 0) then Ret None
  else
    match rclone_link ext (check_path chosen) with
    | Returns (link_code, stdout) =>
        Ret (Some (if link_code =? 0 then strip stdout else check_path chosen))
    | Throws what => Raise (Exception what)
    end.

Lemma try_except_link (body : M (option string)) (chosen : string) (code : Z)
    (w w' : world) :
  body w = (link_outcome chosen code, w') ->
  try_except body (fun _ => ret None) w
  = (Ret (transfer_result chosen code), w').
Proof.
  unfold try_except, link_outcome, transfer_result. intros ->.
  destruct (negb (code =? 0)); [done|].
  by destruct (rclone_link ext _) as [[rc out]|what].
Qed.

Lemma link_run (chosen : string) (code : Z) (w : world) :
  (if negb (code =? 0) then ret None
   else
     bindM (run ["rclone"; "link"; check_path chosen]
              (rclone_link ext (check_path chosen)))
       (fun result =>
          let '(link_returncode, link_stdout) := result in
          if link_returncode =? 0 then ret (Some (strip link_stdout))
          else ret (Some (check_path chosen)))) w
  = (link_outcome chosen code, after w (link_command chosen code)).
Proof.
  unfold link_outcome, link_command.
  destruct (negb (code =? 0)); [unfold ret; by rewrite after_nil|].
  destruct (rclone_link ext _) as [[rc out]|what].
  - erewrite bindM_ret by apply run_returns. cbv beta iota.
    by destruct (rc =? 0).
  - by erewrite bindM_raise by apply run_throws.
Qed.

Lemma upload_rclone_run (fuel k : nat) (file_path : string) (f : file)
    (code : Z) (w : world) :
  files w !! file_path = Some f ->
  (forall j, (j < k)%nat -> reported (candidate file_path j)) ->
  unreported (candidate file_path k) ->
  (k < fuel)%nat ->
  rclone_copy ext (upload_path file_path k) (rclone_dest cfg) = Returns code ->
  upload_rclone cfg ext fuel file_path w
  = (Ret (transfer_result (candidate file_path k) code),
     after (files_after file_path k w)
       ((lsf_check <$> (candidate file_path <$> seq 0 (S k)))
        ++ duplicate file_path k
        ++ [copy_command file_path k]
        ++ discard file_path k
        ++ link_command (candidate file_path k) code)).
Proof.
  intros Hfile Hrep Hun Hfuel Hcopy.
  unfold upload_rclone.
  erewrite bindM_ret by by apply getsize_run.
  apply try_except_link.
  erewrite bindM_ret by by apply (pick_name_run _ k).
  fold (candidate file_path k). cbn [fst].
  change (tried (splitext (basename file_path)) (basename file_path) 0)
    with (candidate file_path).
  set (w1 := after w _).
  destruct k as [|k].
  - change (candidate file_path 0) with (basename file_path).
    rewrite String.eqb_refl. cbn [negb when].
    erewrite bindM_ret by reflexivity.
    simpl in Hcopy. rewrite Hcopy.
    erewrite bindM_ret by apply run_returns.
    erewrite bindM_ret by apply path_exists_run.
    rewrite String.eqb_refl. cbn [negb andb when].
    erewrite bindM_ret by reflexivity.
    fold (check_path (basename file_path)).
    rewrite link_run. subst w1. rewrite !after_after. simpl. done.
  - pose proof (upload_path_versioned file_path k) as [Hbase Hne].
    assert (Hren : (candidate file_path (S k) =? basename file_path)%string = false).
    { apply String.eqb_neq, versioned_neq. }
    rewrite Hren. cbn [negb when].
    change (join (dirname file_path) (candidate file_path (S k)))
      with (upload_path file_path (S k)).
    set (up := upload_path file_path (S k)) in *.
    assert (Hcp : copy2 file_path up w1
              = (Ret tt, after (set_files (<[up := f]> (files w)) w1)
                           [Copied file_path up])).
    { unfold copy2. subst w1. simpl files. by rewrite Hfile. }
    erewrite bindM_ret by exact Hcp.
    rewrite Hcopy. erewrite bindM_ret by apply run_returns.
    erewrite bindM_ret by apply path_exists_run.
    simpl files. rewrite lookup_insert_eq.
    rewrite bool_decide_true by by eexists.
    apply String.eqb_neq in Hne. rewrite Hne. cbn [negb andb when].
    erewrite bindM_ret.
    2:{ unfold remove. simpl files. rewrite lookup_insert_eq. reflexivity. }
    fold (check_path (candidate file_path (S k))).
    rewrite link_run. subst w1. f_equal.
    unfold files_after, duplicate, discard, copy_command, after, set_files, emit.
    simpl. fold up. rewrite delete_insert_eq. f_equal.
    by rewrite <- !app_assoc.
Qed.




(** A listing that reports every name keeps the loop going: no amount of
    fuel is enough. *)
Lemma pick_name_diverges (name_parts : string * string) (fuel : nat) :
  (forall file_name, reported file_name) ->
  forall (file_name : string) (version : nat) (w : world),
    fst (pick_name cfg ext fuel name_parts file_name version w) = OutOfFuel.
Proof.
  intros Hall. induction fuel as [|fuel IH]; intros file_name version w.
  - reflexivity.
  - rewrite pick_name_S.
    destruct (Hall file_name) as (out & Hlsf & Hout).
    rewrite Hlsf. erewrite bindM_ret by apply run_returns.
    cbv beta iota. rewrite Hout. apply IH.
Qed.

(** Whatever the listing answers, the loop leaves the local files alone,
    and a name it settles on is the one it started from or a versioned one. *)
Lemma pick_name_steps (fuel : nat) (name_parts : string * string)
    (file_name : string) (version : nat) (w : world) :
  exists r w',
    pick_name cfg ext fuel name_parts file_name version w = (r, w')
    /\ files w' = files w
    /\ forall chosen final,
         r = Ret (chosen, final) ->
         chosen = file_name \/ exists v, chosen = versioned name_parts (S v).
Proof.
  revert file_name version w.
  induction fuel as [|fuel IH]; intros file_name version w.
  - exists OutOfFuel, w. by repeat split.
  - rewrite pick_name_S.
    destruct (rclone_lsf ext (check_path file_name)) as [[rc out]|what].
    + erewrite bindM_ret by apply run_returns. cbv beta iota.
      destruct ((rc =? 0) && truthy (strip out)).
      * destruct (IH (versioned name_parts (S version)) (S version)
                    (after w [Exec ["rclone"; "lsf"; check_path file_name]]))
          as (r & w' & -> & Hfiles & Hname).
        exists r, w'. split; [done|]. split; [done|].
        intros chosen final Hr. right.
        destruct (Hname _ _ Hr) as [->|[v ->]]; by eexists.
      * eexists _, _. split; [reflexivity|]. split; [done|].
        intros chosen final [= <- <-]. by left.
    + erewrite bindM_raise by apply run_throws.
      eexists _, _. split; [reflexivity|]. by split.
Qed.

Lemma try_except_world {A} (body : M (option A)) (w w' : world)
    (r : result (option A)) :
  try_except body (fun _ => ret None) w = (r, w') ->
  exists r0, body w = (r0, w').
Proof.
  unfold try_except. destruct (body w) as [[a|[what|c]|] w0];
    intros [= <- <-]; by eexists.
Qed.

(** Whatever the remote answers, the file to upload is still there when
    [upload_rclone] is over. *)
Lemma upload_rclone_keeps_file (fuel : nat) (file_path : string) (f : file)
    (w w' : world) (r : result (option string)) :
  files w !! file_path = Some f ->
  upload_rclone cfg ext fuel file_path w = (r, w') ->
  files w' !! file_path = Some f.
Proof.
  intros Hfile. unfold upload_rclone.
  erewrite bindM_ret by by apply getsize_run.
  intros [r0 Hbody]%try_except_world. revert Hbody.
  destruct (pick_name_steps fuel (splitext (basename file_path))
              (basename file_path) 0 w) as (r1 & w1 & Hp & Hf1 & Hname).
  unfold bindM at 1. rewrite Hp.
  destruct r1 as [[chosen final]|e|]; [|intros [= _ <-]; by rewrite Hf1..].
  cbn [fst].
  destruct (chosen =? basename file_path)%string eqn:Hsame; cbn [negb when].
  - erewrite bindM_ret by reflexivity.
    destruct (rclone_copy ext file_path (rclone_dest cfg)) as [code|what].
    + erewrite bindM_ret by apply run_returns.
      erewrite bindM_ret by apply path_exists_run.
      rewrite String.eqb_refl. cbn [negb andb when].
      erewrite bindM_ret by reflexivity.
      fold (check_path chosen). rewrite link_run.
      intros [= _ <-]. simpl files. by rewrite Hf1.
    + erewrite bindM_raise by apply run_throws.
      intros [= _ <-]. simpl files. by rewrite Hf1.
  - apply String.eqb_neq in Hsame.
    destruct (Hname _ _ eq_refl) as [->|[v ->]]; [done|].
    pose proof (upload_path_versioned file_path v) as [_ Hne].
    change (join (dirname file_path) (versioned (splitext (basename file_path)) (S v)))
      with (upload_path file_path (S v)).
    set (up := upload_path file_path (S v)) in *.
    assert (Hcp : copy2 file_path up w1
              = (Ret tt, after (set_files (<[up := f]> (files w1)) w1)
                           [Copied file_path up])).
    { unfold copy2. by rewrite Hf1, Hfile. }
    erewrite bindM_ret by exact Hcp.
    destruct (rclone_copy ext up (rclone_dest cfg)) as [code|what].
    + erewrite bindM_ret by apply run_returns.
      erewrite bindM_ret by apply path_exists_run.
      simpl files. rewrite lookup_insert_eq.
      rewrite bool_decide_true by by eexists.
      apply String.eqb_neq in Hne as Hneb. rewrite Hneb. cbn [negb andb when].
      erewrite bindM_ret.
      2:{ unfold remove. simpl files. rewrite lookup_insert_eq. reflexivity. }
      fold (check_path (versioned (splitext (basename file_path)) (S v))).
      rewrite link_run. intros [= _ <-]. simpl files.
      by rewrite lookup_delete_ne, lookup_insert_ne, Hf1.
    + erewrite bindM_raise by apply run_throws.
      intros [= _ <-]. simpl files. by rewrite lookup_insert_ne, Hf1.
Qed.

(** The loop only runs [rclone lsf], and a name it settles on has just
    been found unreported. *)
Lemma pick_name_answers (fuel : nat) (name_parts : string * string)
    (file_name : string) (version : nat) (w : world) :
  exists r evs,
    pick_name cfg ext fuel name_parts file_name version w = (r, after w evs)
    /\ Forall (fun e => exists n, e = lsf_check n) evs
    /\ forall chosen final, r = Ret (chosen, final) -> unreported chosen.
Proof.
  revert file_name version w.
  induction fuel as [|fuel IH]; intros file_name version w.
  - exists OutOfFuel, []. rewrite after_nil. by repeat split.
  - rewrite pick_name_S.
    destruct (rclone_lsf ext (check_path file_name)) as [[rc out]|what] eqn:Hlsf.
    + erewrite bindM_ret by apply run_returns. cbv beta iota.
      destruct ((rc =? 0) && truthy (strip out)) eqn:Hcond.
      * destruct (IH (versioned name_parts (S version)) (S version)
                    (after w [Exec ["rclone"; "lsf"; check_path file_name]]))
          as (r & evs & -> & Hevs & Hname).
        exists r, (lsf_check file_name :: evs). rewrite after_after.
        split; [done|]. split; [|done].
        constructor; [by eexists|done].
      * exists (Ret (file_name, version)), [lsf_check file_name].
        split; [done|]. split; [repeat constructor; by eexists|].
        intros chosen final [= <- <-]. by exists rc, out.
    + erewrite bindM_raise by apply run_throws.
      exists (Raise (Exception what)), [lsf_check file_name].
      split; [done|]. split; [repeat constructor; by eexists|done].
Qed.

(** X22 ([upload_rclone]): safety of the transfer, for every behaviour of the
    remote: whenever [upload_rclone] runs [rclone copy], the file it hands
    over is named after a name the listing has just left unreported. *)
Lemma upload_rclone_never_reported (fuel : nat) (file_path : string)
    (f : file) (w w' : world) (r : result (option string)) :
  files w !! file_path = Some f ->
  upload_rclone cfg ext fuel file_path w = (r, w') ->
  exists new,
    trace w' = trace w ++ new
    /\ forall up dest opts,
         Exec ("rclone" :: "copy" :: up :: dest :: opts) ∈ new ->
         unreported (basename up).
Proof.
  intros Hfile. unfold upload_rclone.
  erewrite bindM_ret by by apply getsize_run.
  intros [r0 Hbody]%try_except_world. revert Hbody.
  destruct (pick_name_steps fuel (splitext (basename file_path))
              (basename file_path) 0 w) as (r1 & w1 & Hp & Hf1 & Hname).
  destruct (pick_name_answers fuel (splitext (basename file_path))
              (basename file_path) 0 w) as (r1' & evs & Hp' & Hevs & Hun).
  rewrite Hp in Hp'. injection Hp' as <- ->.
  assert (Hlsf : forall up dest opts,
            Exec ("rclone" :: "copy" :: up :: dest :: opts) ∈ evs -> False).
  { intros up dest opts Hin. rewrite Forall_forall in Hevs.
    by destruct (Hevs _ Hin) as [n [=]]. }
  assert (Hlink : forall chosen code up dest opts,
            Exec ("rclone" :: "copy" :: up :: dest :: opts)
              ∈ link_command chosen code -> False).
  { intros chosen code up dest opts. unfold link_command.
    destruct (negb (code =? 0)); [by intros ?%elem_of_nil|].
    by intros [=]%list_elem_of_singleton. }
  unfold bindM at 1. rewrite Hp.
  destruct r1 as [[chosen final]|e|];
    [|intros [= _ <-]; exists evs; split; [done|];
      intros up dest opts Hin; by destruct (Hlsf up dest opts)..].
  specialize (Hun _ _ eq_refl). cbn [fst].
  destruct (chosen =? basename file_path)%string eqn:Hsame; cbn [negb when].
  - apply String.eqb_eq in Hsame. subst chosen.
    erewrite bindM_ret by reflexivity.
    destruct (rclone_copy ext file_path (rclone_dest cfg)) as [code|what].
    + erewrite bindM_ret by apply run_returns.
      erewrite bindM_ret by apply path_exists_run.
      rewrite String.eqb_refl. cbn [negb andb when].
      erewrite bindM_ret by reflexivity.
      fold (check_path (basename file_path)). rewrite link_run.
      intros [= _ <-]. rewrite !after_after. eexists. split; [reflexivity|].
      intros up dest opts
        [Hin|[[= <- _ _]%list_elem_of_singleton|Hin]%elem_of_app]%elem_of_app.
      * by destruct (Hlsf up dest opts).
      * done.
      * by destruct (Hlink _ _ _ _ _ Hin).
    + erewrite bindM_raise by apply run_throws.
      intros [= _ <-]. rewrite !after_after. eexists. split; [reflexivity|].
      intros up dest opts [Hin|[= <- _ _]%list_elem_of_singleton]%elem_of_app.
      * by destruct (Hlsf up dest opts).
      * done.
  - apply String.eqb_neq in Hsame.
    destruct (Hname _ _ eq_refl) as [->|[v ->]]; [done|].
    pose proof (upload_path_versioned file_path v) as [Hbase Hne].
    change (candidate file_path (S v))
      with (versioned (splitext (basename file_path)) (S v)) in Hbase.
    change (join (dirname file_path) (versioned (splitext (basename file_path)) (S v)))
      with (upload_path file_path (S v)).
    set (up0 := upload_path file_path (S v)) in *.
    set (w1 := after w evs) in *.
    assert (Hcp : copy2 file_path up0 w1
              = (Ret tt, after (set_files (<[up0 := f]> (files w1)) w1)
                           [Copied file_path up0])).
    { unfold copy2. by rewrite Hf1, Hfile. }
    erewrite bindM_ret by exact Hcp.
    destruct (rclone_copy ext up0 (rclone_dest cfg)) as [code|what].
    + erewrite bindM_ret by apply run_returns.
      erewrite bindM_ret by apply path_exists_run.
      simpl files. rewrite lookup_insert_eq.
      rewrite bool_decide_true by by eexists.
      apply String.eqb_neq in Hne as Hneb. rewrite Hneb. cbn [negb andb when].
      erewrite bindM_ret.
      2:{ unfold remove. simpl files. rewrite lookup_insert_eq. reflexivity. }
      fold (check_path (versioned (splitext (basename file_path)) (S v))).
      rewrite link_run. intros [= _ <-].
      exists (evs ++ [Copied file_path up0;
                      Exec ["rclone"; "copy"; up0; rclone_dest cfg;
                            "--progress"; "--stats"; "1s"];
                      Removed up0]
                ++ link_command
                     (versioned (splitext (basename file_path)) (S v)) code).
      split.
      { subst w1. unfold after, set_files, emit. simpl.
        by rewrite <- !app_assoc. }
      intros up dest opts [Hin|[Hin|Hin]%elem_of_app]%elem_of_app.
      * by destruct (Hlsf up dest opts).
      * apply elem_of_cons in Hin as [[=]|Hin].
        apply elem_of_cons in Hin as [[= -> _ _]|Hin]; [by rewrite Hbase|].
        by apply list_elem_of_singleton in Hin.
      * by destruct (Hlink _ _ _ _ _ Hin).
    + erewrite bindM_raise by apply run_throws.
      intros [= _ <-].
      exists (evs ++ [Copied file_path up0;
                      Exec ["rclone"; "copy"; up0; rclone_dest cfg;
                            "--progress"; "--stats"; "1s"]]).
      split.
      { subst w1. unfold after, set_files, emit. simpl.
        by rewrite <- !app_assoc. }
      intros up dest opts [Hin|Hin]%elem_of_app.
      * by destruct (Hlsf up dest opts).
      * apply elem_of_cons in Hin as [[=]|Hin].
        apply list_elem_of_singleton in Hin as [= -> _ _]. by rewrite Hbase.
Qed.

End Rclone.

(** ** Upload dispatcher: [upload_gofile] and [upload_file] *)

Section Dispatch.
Context (cfg : config) (ext : services).
Import Uploader.

(** What GoFile yields for [file_path], and the requests made for it. *)
Definition gofile_result (file_path : string) : option string :=
  match gofile_servers ext with
  | Returns server =>
      match gofile_upload ext server file_path with
      | Returns (true, downloadPage) => Some downloadPage
      | Returns (false, _) | Throws _ => None
      end
  | Throws _ => None
  end.

Definition gofile_requests (file_path : string) : list event :=
  HttpGet "https://api.gofile.io/servers"
  :: match gofile_servers ext with
     | Returns server =>
         [HttpPostFile
            ("https://" +:+ server +:+ ".gofile.io/contents/uploadfile")
            file_path]
     | Throws _ => []
     end.

Lemma upload_gofile_run (file_path : string) (f : file) (w : world) :
  files w !! file_path = Some f ->
  upload_gofile ext file_path w
  = (Ret (gofile_result file_path), after w (gofile_requests file_path)).
Proof.
  intros Hfile. unfold upload_gofile, gofile_result, gofile_requests.
  erewrite bindM_ret by by apply getsize_run.
  unfold try_except.
  erewrite bindM_ret by reflexivity.
  destruct (gofile_servers ext) as [server|what]; [|done].
  erewrite bindM_ret by reflexivity.
  erewrite bindM_ret.
  2:{ unfold Notifier.open_rb. erewrite bindM_ret by apply path_exists_run.
      simpl files. rewrite bool_decide_true by by eexists. reflexivity. }
  erewrite bindM_ret by reflexivity.
  destruct (gofile_upload ext server file_path) as [[[] page]|what];
    cbv beta iota; unfold call, ret, raise;
    by rewrite !emit_after, !after_after.
Qed.

(** The value [upload_file] makes of the GoFile result. *)
Definition url_or_failed (url : option string) : string :=
  if url_truthy url then default "" url else "Upload failed".

Lemma gofile_fallback_run (file_path : string) (f : file) (w : world) :
  files w !! file_path = Some f ->
  gofile_fallback ext file_path w
  = (Ret (url_or_failed (gofile_result file_path)),
     after w (gofile_requests file_path)).
Proof.
  intros Hfile. unfold gofile_fallback.
  by erewrite bindM_ret by by apply (upload_gofile_run _ f).
Qed.

Lemma truthy_false (s : string) : truthy s = false <-> s = "".
Proof. by destruct s. Qed.

(** C1 (amended): with [RCLONE_REMOTE] configured, a non-empty URL returned
    by [upload_rclone] is the result and GoFile is not contacted; with
    [RCLONE_REMOTE] unconfigured (rclone is then not attempted), or when
    [upload_rclone] returns [None] or an empty string, the result is GoFile's
    URL if GoFile yields a non-empty one, and ["Upload failed"] if it yields
    none. *)
Theorem upload_file_policy (fuel : nat) (file_path : string) (f : file)
    (w : world) :
  files w !! file_path = Some f ->
  (RCLONE_REMOTE cfg <> "" ->
   forall url w',
     upload_rclone cfg ext fuel file_path w = (Ret (Some url), w') ->
     url <> "" ->
     upload_file cfg ext fuel file_path w = (Ret url, w'))
  /\ (forall w1,
        (RCLONE_REMOTE cfg = "" /\ w1 = w)
        \/ (RCLONE_REMOTE cfg <> ""
            /\ exists url,
                 upload_rclone cfg ext fuel file_path w = (Ret url, w1)
                 /\ (url = None \/ url = Some "")) ->
        (forall page,
           gofile_result file_path = Some page -> page <> "" ->
           upload_file cfg ext fuel file_path w
           = (Ret page, after w1 (gofile_requests file_path)))
        /\ (gofile_result file_path = None
            \/ gofile_result file_path = Some "" ->
            upload_file cfg ext fuel file_path w
            = (Ret "Upload failed", after w1 (gofile_requests file_path)))).
Proof.
  intros Hfile. split.
  - intros Hconf url w' Hrun Hurl. unfold upload_file.
    apply truthy_true in Hconf. rewrite Hconf.
    erewrite bindM_ret by exact Hrun.
    apply truthy_true in Hurl. simpl. by rewrite Hurl.
  - intros w1 Hstart.
    assert (Hfall : upload_file cfg ext fuel file_path w
                    = (Ret (url_or_failed (gofile_result file_path)),
                       after w1 (gofile_requests file_path))).
    { unfold upload_file.
      destruct Hstart as [[Hconf ->]|(Hconf & url & Hrun & Hurl)].
      - rewrite Hconf. simpl. by apply (gofile_fallback_run _ f).
      - apply truthy_true in Hconf. rewrite Hconf.
        erewrite bindM_ret by exact Hrun.
        assert (url_truthy url = false) as -> by by destruct Hurl as [->| ->].
        apply (gofile_fallback_run _ f).
        by eapply upload_rclone_keeps_file. }
    rewrite Hfall. unfold url_or_failed. split.
    + intros page -> Hpage. apply truthy_true in Hpage. simpl. by rewrite Hpage.
    + by intros [-> | ->].
Qed.

End Dispatch.

Section UploadExamples.
Import Uploader.

Definition rom_path : string :=
  "/build/lineage/out/target/product/cancunf/lineage-22.1-cancunf.zip".

(** The build is over and the archive is in the output directory. *)
Definition upload_world : world :=
  world_after_build (<[rom_path := some_file 1610612736]> ∅) 0.

(** The remote already lists the archive and its first versioned name. *)
Definition crowded_ext : services := {|
  telegram := telegram sample_ext;
  gofile_servers := gofile_servers sample_ext;
  gofile_upload := gofile_upload sample_ext;
  rclone_lsf := fun p =>
    if String.eqb p "gdrive:roms/lineage-22.1-cancunf.zip"
       || String.eqb p "gdrive:roms/lineage-22.1-cancunf (1).zip"
    then Returns (0, "lineage-22.1-cancunf.zip
")
    else Returns (0, "");
  rclone_copy := rclone_copy sample_ext;
  rclone_link := rclone_link sample_ext
|}.


(** The remote lists the archive, and [rclone copy] cannot be run to its
    end. *)
Definition broken_copy_ext : services := {|
  telegram := telegram sample_ext;
  gofile_servers := gofile_servers sample_ext;
  gofile_upload := gofile_upload sample_ext;
  rclone_lsf := fun p =>
    if String.eqb p "gdrive:roms/lineage-22.1-cancunf.zip"
    then Returns (0, "lineage-22.1-cancunf.zip
")
    else Returns (0, "");
  rclone_copy := fun _ _ => Throws "UnicodeDecodeError";
  rclone_link := rclone_link sample_ext
|}.


Lemma upload_file_policy_witness :
  (exists w',
     upload_file sample_cfg sample_ext 3 rom_path upload_world
     = (Ret "https://drive.example/rom", w'))
  /\ (exists w1,
        upload_file sample_cfg
          {| telegram := telegram sample_ext;
             gofile_servers := gofile_servers sample_ext;
             gofile_upload := gofile_upload sample_ext;
             rclone_lsf := rclone_lsf sample_ext;
             rclone_copy := fun _ _ => Returns 1;
             rclone_link := rclone_link sample_ext |}
          3 rom_path upload_world
        = (Ret "https://gofile.io/d/abc",
           after w1
             [HttpGet "https://api.gofile.io/servers";
              HttpPostFile "https://store1.gofile.io/contents/uploadfile"
                rom_path])).
Proof.
  split.
  - destruct (upload_file_policy sample_cfg sample_ext 3 rom_path
                (some_file 1610612736) upload_world eq_refl) as [Hfirst _].
    eexists. apply Hfirst; [done| vm_compute; reflexivity |done].
  - set (ext := {| telegram := telegram sample_ext;
                   gofile_servers := gofile_servers sample_ext;
                   gofile_upload := gofile_upload sample_ext;
                   rclone_lsf := rclone_lsf sample_ext;
                   rclone_copy := fun _ _ => Returns 1;
                   rclone_link := rclone_link sample_ext |}).
    destruct (upload_file_policy sample_cfg ext 3 rom_path
                (some_file 1610612736) upload_world eq_refl) as [_ Hfall].
    eexists.
    refine (proj1 (Hfall _ _) "https://gofile.io/d/abc" eq_refl _); [|done].
    right. split; [done|]. exists None. split; [vm_compute; reflexivity|by left].
Defined.

Definition unconfigured_cfg : config := {|
  DEVICE := DEVICE sample_cfg;
  VARIANT := VARIANT sample_cfg;
  CONFIG_OFFICIAL_FLAG := CONFIG_OFFICIAL_FLAG sample_cfg;
  ROM_TYPE := ROM_TYPE sample_cfg;
  CONFIG_CHATID := CONFIG_CHATID sample_cfg;
  CONFIG_BOT_TOKEN := CONFIG_BOT_TOKEN sample_cfg;
  CONFIG_ERROR_CHATID := CONFIG_ERROR_CHATID sample_cfg;
  RCLONE_REMOTE := "";
  RCLONE_FOLDER := "";
  POWEROFF := POWEROFF sample_cfg;
  ROOT_DIRECTORY := ROOT_DIRECTORY sample_cfg;
  ROM_NAME := ROM_NAME sample_cfg;
  ANDROID_VERSION := ANDROID_VERSION sample_cfg;
  OUT_DIR := OUT_DIR sample_cfg
|}.

(** GoFile cannot be reached. *)
Definition offline_ext : services := {|
  telegram := telegram sample_ext;
  gofile_servers := Throws "ConnectionError";
  gofile_upload := gofile_upload sample_ext;
  rclone_lsf := rclone_lsf sample_ext;
  rclone_copy := rclone_copy sample_ext;
  rclone_link := rclone_link sample_ext
|}.

(** [rclone link] succeeds but prints nothing. *)
Definition blank_link_ext : services := {|
  telegram := telegram sample_ext;
  gofile_servers := gofile_servers sample_ext;
  gofile_upload := gofile_upload sample_ext;
  rclone_lsf := rclone_lsf sample_ext;
  rclone_copy := rclone_copy sample_ext;
  rclone_link := fun _ => Returns (0, "
")
|}.

(** C1 (as stated) fails twice: without [RCLONE_REMOTE] the string
    ["Upload failed"] is returned after the GoFile attempt alone, no rclone
    command having been run; and with [RCLONE_REMOTE] configured and a
    transfer that exits with code 0, the result is GoFile's when
    [rclone link] prints no link. *)
Lemma upload_file_not_both_attempted :
  upload_file unconfigured_cfg offline_ext 3 rom_path upload_world
  = (Ret "Upload failed",
     after upload_world [HttpGet "https://api.gofile.io/servers"])
  /\ upload_file sample_cfg blank_link_ext 3 rom_path upload_world
     = (Ret "https://gofile.io/d/abc",
        after upload_world
          [Exec ["rclone"; "lsf"; "gdrive:roms/lineage-22.1-cancunf.zip"];
           Exec ["rclone"; "copy"; rom_path; "gdrive:roms";
                 "--progress"; "--stats"; "1s"];
           Exec ["rclone"; "link"; "gdrive:roms/lineage-22.1-cancunf.zip"];
           HttpGet "https://api.gofile.io/servers";
           HttpPostFile "https://store1.gofile.io/contents/uploadfile"
             rom_path]).
Proof. split; [vm_compute; reflexivity|vm_compute; reflexivity]. Qed.

End UploadExamples.

(** * Further properties of the modelled code *)

(** ** Progress monitor, over a whole run *)

Section MonitorRuns.
Context (cfg : config) (ext : services).
Import Poller Monitor.

Lemma fetch_progress_nonempty (log : log_file) : extracted log <> "".
Proof.
  unfold extracted. destruct log as [| |text]; [done..|].
  destruct (utf8 text) eqn:Htext;
    [|by rewrite fetch_progress_not_text].
  rewrite fetch_progress_readable by done.
  destruct (scan (rev (readlines text))) as [s|] eqn:Hs; [|done].
  apply scan_form in Hs as (p & d & t & -> & [Hp _] & _).
  by destruct p.
Qed.


(** X2: the stored value starts out empty and no extracted value is
    empty, so the first poll of a run always edits the status message. *)
Theorem monitor_progress_first_poll_edits (log : log_file)
    (polls : list log_file) (w : world) :
  previous_progress w = "" ->
  exists w' new,
    monitor_progress cfg ext (log :: polls) w = (Ret tt, w')
    /\ trace w' = trace w ++ new
    /\ exists rest,
         requests new = progress_edit cfg w (extracted log) :: rest.
Proof.
  intros Hprev.
  assert (Hne : extracted log <> previous_progress w).
  { rewrite Hprev. apply fetch_progress_nonempty. }
  destruct (monitor_progress_edits cfg ext polls
              (set_previous_progress (extracted log)
                 (after w (poll_events cfg ext w (extracted log)))))
    as (w' & new & Hrun & Ht & _).
  exists w', (poll_events cfg ext w (extracted log) ++ new). split.
  { unfold monitor_progress in *. simpl. unfold bindM at 1.
    by rewrite (poll_once_changed cfg ext). }
  split.
  { rewrite Ht. cbn [trace set_previous_progress after].
    by rewrite <- app_assoc. }
  exists (requests new). by rewrite requests_app, requests_poll_events.
Qed.

End MonitorRuns.

Lemma monitor_progress_first_poll_edits_witness :
  exists w' new,
    Monitor.monitor_progress sample_cfg sample_ext [log_at_55] building_world
    = (Ret tt, w')
    /\ trace w' = trace building_world ++ new
    /\ exists rest,
         requests new
         = progress_edit sample_cfg building_world (extracted log_at_55)
           :: rest.
Proof.
  apply (monitor_progress_first_poll_edits sample_cfg sample_ext log_at_55 []
           building_world).
  reflexivity.
Defined.

(** ** Notifier: [send_file] *)

Section SendFile.
Context (cfg : config) (ext : services).
Import Notifier.

(** X3: [send_file] never fails its caller.  For a missing file it makes no
    request, writes one line on stderr and returns [None]; for a file that
    exists it makes exactly one [sendDocument] request, returns the message
    identifier when the service answers [ok], and [None] otherwise, writing a
    line on stderr only when the request raised: a refusal of the service is
    dropped without a trace. *)
Theorem send_file_never_fatal (file_path : string) (chat_id : option string)
    (w : world) :
  let r := sendDocument (default (CONFIG_CHATID cfg) chat_id) file_path in
  send_file cfg ext file_path chat_id w
  = match files w !! file_path with
    | None =>
        (Ret None, after w [Stderr "Error sending file: FileNotFoundError"])
    | Some _ =>
        match telegram ext r with
        | Json true _ message_id => (Ret (Some message_id), after w [Telegram r])
        | Json false _ _ => (Ret None, after w [Telegram r])
        | Fault what =>
            (Ret None,
             after w [Telegram r; Stderr ("Error sending file: " +:+ what)])
        end
    end.
Proof.
  intros r.
  assert (Hopen : open_rb file_path w
                  = match files w !! file_path with
                    | Some _ => (Ret tt, w)
                    | None => (Raise (Exception "FileNotFoundError"), w)
                    end).
  { unfold open_rb. erewrite bindM_ret by apply path_exists_run.
    destruct (files w !! file_path) as [f|].
    - by rewrite bool_decide_true by by eexists.
    - by rewrite bool_decide_false by by intros [? [=]]. }
  unfold send_file, try_except. fold r.
  destruct (files w !! file_path) as [f|].
  - erewrite bindM_ret by exact Hopen.
    unfold bindM. rewrite post_run.
    destruct (telegram ext r) as [what|[] d mid]; cbv beta iota; try done.
    rewrite eprint_run. unfold ret. by rewrite after_after.
  - erewrite bindM_raise by exact Hopen.
    unfold bindM. by rewrite eprint_run.
Qed.

End SendFile.

(** ** Build runner: cleaning up *)

Section Cleanup.
Context (cfg : config) (ext : services).
Import Notifier Runner.

Lemma sweep_lookup (paths : list string) (fs : gmap string file) (p : string) :
  fst (sweep paths fs) !! p
  = if bool_decide (p ∈ paths) then None else fs !! p.
Proof.
  revert fs. induction paths as [|q paths IH]; intros fs; cbn [sweep].
  - cbn [fst]. case_bool_decide as Hin; [by apply elem_of_nil in Hin|done].
  - assert (Hq : fst (if bool_decide (is_Some (fs !! q))
                      then let '(fs', evs) := sweep paths (delete q fs) in
                           (fs', Removed q :: evs)
                      else sweep paths fs) !! p
                 = if bool_decide (p ∈ paths) then None
                   else (if bool_decide (p = q) then None else fs !! p)).
    { destruct (bool_decide (is_Some (fs !! q))) eqn:Hex.
      - specialize (IH (delete q fs)).
        destruct (sweep paths (delete q fs)) as [fs' evs]. simpl in *.
        rewrite IH. destruct (bool_decide (p ∈ paths)); [done|].
        destruct (bool_decide (p = q)) eqn:Hpq.
        + apply bool_decide_eq_true in Hpq as ->. apply lookup_delete_eq.
        + apply bool_decide_eq_false in Hpq. by rewrite lookup_delete_ne.
      - rewrite IH. destruct (bool_decide (p ∈ paths)); [done|].
        destruct (bool_decide (p = q)) eqn:Hpq; [|done].
        apply bool_decide_eq_true in Hpq as ->.
        apply bool_decide_eq_false in Hex. by apply eq_None_not_Some. }
    rewrite Hq.
    destruct (bool_decide (p ∈ paths)) eqn:Hin.
    + apply bool_decide_eq_true in Hin.
      by rewrite bool_decide_true by by right.
    + apply bool_decide_eq_false in Hin.
      destruct (bool_decide (p = q)) eqn:Hpq.
      * apply bool_decide_eq_true in Hpq as ->.
        by rewrite bool_decide_true by by left.
      * apply bool_decide_eq_false in Hpq.
        rewrite bool_decide_false; [done|].
        by intros [?|?]%elem_of_cons.
Qed.

Lemma sweep_events (paths : list string) (fs : gmap string file) :
  Forall (fun e => exists q, e = Removed q /\ q ∈ paths) (snd (sweep paths fs)).
Proof.
  revert fs. induction paths as [|q paths IH]; intros fs; simpl; [done|].
  destruct (bool_decide (is_Some (fs !! q))).
  - specialize (IH (delete q fs)).
    destruct (sweep paths (delete q fs)) as [fs' evs]. simpl in *.
    constructor; [exists q; split; [done|by left]|].
    eapply Forall_impl; [exact IH|].
    intros e (q' & -> & Hq'). exists q'. split; [done|by right].
  - eapply Forall_impl; [apply IH|].
    intros e (q' & -> & Hq'). exists q'. split; [done|by right].
Qed.

(** X4: the cleanup that ends [main] never fails; afterwards none of
    [build_banner.png], [rom_logo.png] and [logo_circle.png] is left in
    [ROOT_DIRECTORY], every other file is as before, and nothing but removals
    of these files has happened. *)
Theorem main_cleanup_files_clears (w : world) :
  exists w' new,
    main_cleanup_files cfg w = (Ret tt, w')
    /\ trace w' = trace w ++ new
    /\ Forall (fun e => exists q,
                 e = Removed q
                 /\ q ∈ join (ROOT_DIRECTORY cfg) <$> main_cleanup) new
    /\ forall p,
         files w' !! p
         = if bool_decide (p ∈ join (ROOT_DIRECTORY cfg) <$> main_cleanup)
           then None else files w !! p.
Proof.
  unfold main_cleanup_files. rewrite remove_existing_run.
  eexists _, _. split; [reflexivity|]. split; [reflexivity|].
  split; [apply sweep_events|]. intros p. apply sweep_lookup.
Qed.

Lemma requests_removals (paths : list string) (evs : list event) :
  Forall (fun e => exists q, e = Removed q /\ q ∈ paths) evs ->
  requests evs = [] /\ Terminate ∉ evs.
Proof.
  induction 1 as [|e evs (q & -> & _) _ [IH1 IH2]]; [split; [done|]|].
  - apply not_elem_of_nil.
  - split; [done|]. by intros [[=]|?]%elem_of_cons.
Qed.

Lemma requests_edit_log_signal (label : string) (answer : reply) :
  Terminate ∉ edit_log label answer.
Proof.
  unfold edit_log. destruct answer as [what|ok d mid].
  - by intros [=]%list_elem_of_singleton.
  - destruct (ok || _); [apply not_elem_of_nil|].
    by intros [=]%list_elem_of_singleton.
Qed.

Lemma edit_status_events (body : string) (w : world) :
  edit_status cfg ext body w
  = (Ret tt,
     after w
       (Telegram (status_edit cfg w body)
        :: edit_log (if use_banner w then "Error editing caption: "
                     else "Error editing message: ")
             (telegram ext (status_edit cfg w body)))).
Proof.
  unfold edit_status, bindM, get, status_edit.
  destruct (use_banner w).
  - by rewrite edit_photo_caption_run.
  - by rewrite edit_message_run.
Qed.

(** X5: [handle_interrupt] never returns: in every world and whatever the
    chat service answers it ends with [sys.exit(130)].  Before that it signals
    the child exactly when one was started, makes one edit of the status
    message exactly when a message identifier is known and no other request,
    and removes [build_banner.png], [github_avatar.png] and
    [avatar_circle.png] from [ROOT_DIRECTORY], touching no other file. *)
Theorem handle_interrupt_always_exits (w : world) :
  exists w' new,
    handle_interrupt cfg ext w = (Raise (SystemExit 130), w')
    /\ trace w' = trace w ++ new
    /\ (Terminate ∈ new <-> is_Some (build_process w))
    /\ requests new
       = (if id_truthy (build_message_id w)
          then [status_edit cfg w (interrupt_msg cfg)] else [])
    /\ forall p,
         files w' !! p
         = if bool_decide
                (p ∈ join (ROOT_DIRECTORY cfg) <$> interrupt_cleanup)
           then None else files w !! p.
Proof.
  set (label := if use_banner w then "Error editing caption: "
                else "Error editing message: ").
  set (edit := if id_truthy (build_message_id w)
               then Telegram (status_edit cfg w (interrupt_msg cfg))
                    :: edit_log label
                         (telegram ext (status_edit cfg w (interrupt_msg cfg)))
               else []).
  set (swept := sweep (join (ROOT_DIRECTORY cfg) <$> interrupt_cleanup) (files w)).
  assert (Hrun : handle_interrupt cfg ext w
                 = (Raise (SystemExit 130),
                    after (set_files (fst swept) w)
                      (child_signal w ++ edit ++ snd swept))).
  { unfold handle_interrupt, bindM at 1, get. cbv beta iota.
    unfold bindM at 1.
    assert (when (bool_decide (is_Some (build_process w)))
              (modify (emit Terminate)) w
            = (Ret tt, after w (child_signal w))) as ->.
    { unfold child_signal. destruct (build_process w); simpl; [done|].
      unfold ret. by rewrite after_nil. }
    unfold bindM at 1.
    assert (when (id_truthy (build_message_id w))
              (edit_status cfg ext (interrupt_msg cfg))
              (after w (child_signal w))
            = (Ret tt, after w (child_signal w ++ edit))) as ->.
    { subst edit label. destruct (id_truthy _); cbn [when].
      - rewrite edit_status_events, after_after. reflexivity.
      - unfold ret. by rewrite app_nil_r. }
    unfold bindM. rewrite remove_existing_run. simpl files.
    unfold raise. f_equal.
    unfold after, set_files. simpl. by rewrite <- !app_assoc. }
  pose proof (sweep_events (join (ROOT_DIRECTORY cfg) <$> interrupt_cleanup)
                (files w)) as Hev.
  apply requests_removals in Hev as [Hreq Hsig]. fold swept in Hreq, Hsig.
  eexists _, _. split; [exact Hrun|]. split; [reflexivity|].
  split; [|split].
  - rewrite !elem_of_app. unfold child_signal.
    assert (Hedit : Terminate ∉ edit).
    { subst edit. destruct (id_truthy _); [|apply not_elem_of_nil].
      intros [[=]|Hin]%elem_of_cons. by apply requests_edit_log_signal in Hin. }
    destruct (build_process w) as [child|].
    + split; [by eexists|]. intros _. left. by left.
    + split; [|by intros [? [=]]].
      intros [Hin|[Hin|Hin]]; [by apply elem_of_nil in Hin|done|done].
  - rewrite !requests_app, Hreq, app_nil_r.
    assert (requests (child_signal w) = []) as ->.
    { unfold child_signal. by destruct (build_process w). }
    subst edit. destruct (id_truthy _); [|done].
    simpl. by rewrite requests_edit_log.
  - intros p. apply sweep_lookup.
Qed.

End Cleanup.

(** ** Upload dispatcher: failures *)

Section UploadFailures.
Context (cfg : config) (ext : services).
Import Uploader.

(** [m] never ends in [SystemExit]: what it raises, [except Exception]
    catches. *)
Definition no_exit {A} (m : M A) : Prop :=
  forall w c w', m w <> (Raise (SystemExit c), w').

Lemma no_exit_ret {A} (a : A) : no_exit (ret a).
Proof. by intros w c w'. Qed.

Lemma no_exit_bind {A B} (m : M A) (k : A -> M B) :
  no_exit m -> (forall a, no_exit (k a)) -> no_exit (bindM m k).
Proof.
  intros Hm Hk w c w'. unfold bindM.
  destruct (m w) as [[a|e|] w1] eqn:Hmw.
  - apply Hk.
  - intros [= -> <-]. by apply (Hm w c w1).
  - done.
Qed.

Lemma no_exit_call {A} (o : outcome A) : no_exit (call o).
Proof. by intros w c w'; destruct o. Qed.

Lemma no_exit_run {A} (argv : list string) (o : outcome A) :
  no_exit (run argv o).
Proof.
  apply no_exit_bind; [by intros w c w'|]. intros _. apply no_exit_call.
Qed.

Lemma no_exit_when (c : bool) (m : M unit) : no_exit m -> no_exit (when c m).
Proof. destruct c; [done|]. intros _. apply no_exit_ret. Qed.

Lemma no_exit_copy2 (src dst : string) : no_exit (copy2 src dst).
Proof. intros w c w'. unfold copy2. by destruct (files w !! src). Qed.

Lemma no_exit_remove (p : string) : no_exit (remove p).
Proof. intros w c w'. unfold remove. by destruct (files w !! p). Qed.

Lemma no_exit_path_exists (p : string) : no_exit (path_exists p).
Proof. by intros w c w'. Qed.

Lemma no_exit_getsize (p : string) : no_exit (getsize p).
Proof. intros w c w'. unfold getsize. by destruct (files w !! p). Qed.

Lemma no_exit_pick_name (fuel : nat) (name_parts : string * string)
    (file_name : string) (version : nat) :
  no_exit (pick_name cfg ext fuel name_parts file_name version).
Proof.
  revert file_name version.
  induction fuel as [|fuel IH]; intros file_name version; [by intros w c w'|].
  rewrite pick_name_S. apply no_exit_bind; [apply no_exit_run|].
  intros [rc out]. destruct (_ && _); [apply IH|apply no_exit_ret].
Qed.

(** Under [except Exception] a statement that never exits never raises. *)
Lemma try_except_no_raise {A} (body : M (option A)) (w w' : world) (e : exn) :
  no_exit body ->
  try_except body (fun _ => ret None) w <> (Raise e, w').
Proof.
  intros Hbody. unfold try_except.
  destruct (body w) as [[a|[what|c]|] w1] eqn:Hb; try done.
  by destruct (Hbody w c w1).
Qed.

(** X6: given a file that exists, [upload_rclone] never raises, whatever
    rclone does: it returns (or is still looping when the fuel runs out), and
    the file it was asked to upload is still there, unchanged. *)
Theorem upload_rclone_contained (fuel : nat) (file_path : string) (f : file)
    (w w' : world) (r : result (option string)) :
  files w !! file_path = Some f ->
  upload_rclone cfg ext fuel file_path w = (r, w') ->
  (r = OutOfFuel \/ exists url, r = Ret url)
  /\ files w' !! file_path = Some f.
Proof.
  intros Hfile Hrun. split; [|by eapply upload_rclone_keeps_file].
  destruct r as [url|e|]; [by right; eexists| |by left].
  exfalso. revert Hrun. unfold upload_rclone.
  erewrite bindM_ret by by apply getsize_run.
  apply try_except_no_raise.
  apply no_exit_bind; [apply no_exit_pick_name|]. intros [chosen final].
  apply no_exit_bind; [apply no_exit_when, no_exit_copy2|]. intros _.
  apply no_exit_bind; [apply no_exit_run|]. intros code.
  apply no_exit_bind; [apply no_exit_path_exists|]. intros present.
  apply no_exit_bind; [apply no_exit_when, no_exit_remove|]. intros _.
  destruct (negb (code =? 0)); [apply no_exit_ret|].
  apply no_exit_bind; [apply no_exit_run|]. intros [rc out].
  destruct (rc =? 0); apply no_exit_ret.
Qed.

(** X7: given a file that exists, [upload_gofile] never raises: it asks
    for the server list, uploads only when a server was named, and returns the
    download page exactly when the upload answered with status ok; a failed
    server request, a failed upload and a refusal all give [None]. *)
Theorem upload_gofile_contained (file_path : string) (f : file) (w : world) :
  files w !! file_path = Some f ->
  upload_gofile ext file_path w
  = match gofile_servers ext with
    | Throws _ =>
        (Ret None, after w [HttpGet "https://api.gofile.io/servers"])
    | Returns server =>
        (Ret match gofile_upload ext server file_path with
             | Returns (true, downloadPage) => Some downloadPage
             | Returns (false, _) | Throws _ => None
             end,
         after w
           [HttpGet "https://api.gofile.io/servers";
            HttpPostFile
              ("https://" +:+ server +:+ ".gofile.io/contents/uploadfile")
              file_path])
    end.
Proof.
  intros Hfile. rewrite (upload_gofile_run ext file_path f w Hfile).
  unfold gofile_result, gofile_requests.
  by destruct (gofile_servers ext).
Qed.

(** X8: a path that does not exist makes [upload_file] raise, not return
    ["Upload failed"]: the size of the file is read before any [try], and
    nothing has been asked of rclone or GoFile by then. *)
Theorem upload_file_missing_raises (fuel : nat) (file_path : string)
    (w : world) :
  files w !! file_path = None ->
  upload_file cfg ext fuel file_path w
  = (Raise (Exception "FileNotFoundError"), w).
Proof.
  intros Hfile.
  assert (Hsize : getsize file_path w
                  = (Raise (Exception "FileNotFoundError"), w)).
  { unfold getsize. by rewrite Hfile. }
  unfold upload_file, gofile_fallback.
  destruct (truthy (RCLONE_REMOTE cfg)).
  - erewrite bindM_raise; [done|].
    unfold upload_rclone. by erewrite bindM_raise by exact Hsize.
  - erewrite bindM_raise; [done|].
    unfold upload_gofile. by erewrite bindM_raise by exact Hsize.
Qed.

Lemma gofile_fallback_nonempty (file_path : string) (w w' : world)
    (s : string) :
  gofile_fallback ext file_path w = (Ret s, w') -> s <> "".
Proof.
  unfold gofile_fallback, bindM.
  destruct (upload_gofile ext file_path w) as [[[url|]|e|] w1]; try done.
  - unfold ret. intros [= <- _]. destruct url; by simpl.
  - unfold ret. by intros [= <- _].
Qed.

(** X9: whatever [upload_file] returns can be shown as a link: it is never
    the empty string, since an empty result of either service counts as a
    failure. *)
Theorem upload_file_never_empty (fuel : nat) (file_path : string)
    (w w' : world) (s : string) :
  upload_file cfg ext fuel file_path w = (Ret s, w') -> s <> "".
Proof.
  unfold upload_file. destruct (truthy (RCLONE_REMOTE cfg)).
  - unfold bindM at 1.
    destruct (upload_rclone cfg ext fuel file_path w) as [[url|e|] w1];
      try done.
    destruct (url_truthy url) eqn:Hurl.
    + unfold ret. intros [= <- _]. by destruct url as [[|]|].
    + apply gofile_fallback_nonempty.
  - apply gofile_fallback_nonempty.
Qed.

End UploadFailures.

Section UploadEdges.
Context (cfg : config) (ext : services).
Import Uploader.

(** X10: when [rclone copy] cannot be run to its end after a versioned
    name was chosen, [upload_rclone] returns [None] and the local copy made
    for the transfer is left behind: the removal comes after the transfer and
    the [except] clause does not make up for it. *)
Theorem upload_rclone_leaves_copy (fuel k : nat) (file_path : string)
    (f : file) (what : string) (w : world) :
  let upload := upload_path file_path (S k) in
  files w !! file_path = Some f ->
  (forall j, (j <= k)%nat -> reported cfg ext (candidate file_path j)) ->
  unreported cfg ext (candidate file_path (S k)) ->
  (S k < fuel)%nat ->
  rclone_copy ext upload (rclone_dest cfg) = Throws what ->
  exists w',
    upload_rclone cfg ext fuel file_path w = (Ret None, w')
    /\ trace w'
       = trace w
         ++ (lsf_check cfg <$> (candidate file_path <$> seq 0 (S (S k))))
         ++ [Copied file_path upload; copy_command cfg file_path (S k)]
    /\ upload <> file_path
    /\ files w' !! upload = Some f.
Proof.
  intros upload Hfile Hrep Hun Hfuel Hcopy.
  pose proof (upload_path_versioned file_path k) as [_ Hne].
  fold upload in Hne.
  eexists. split; [|split; [|split; [exact Hne|]]].
  - unfold upload_rclone.
    erewrite bindM_ret by by apply getsize_run.
    etrans; [apply try_except_caught with (what := what)|reflexivity].
    erewrite bindM_ret.
    2:{ apply (pick_name_run cfg ext _ (S k)); [done| |done].
        intros j Hj. apply Hrep. lia. }
    fold (candidate file_path (S k)). cbn [fst].
    change (tried (splitext (basename file_path)) (basename file_path) 0)
      with (candidate file_path).
    set (w1 := after w _).
    assert (Hren : (candidate file_path (S k) =? basename file_path)%string
                   = false).
    { apply String.eqb_neq, versioned_neq. }
    rewrite Hren. cbn [negb when].
    change (join (dirname file_path) (candidate file_path (S k))) with upload.
    assert (Hcp : copy2 file_path upload w1
              = (Ret tt, after (set_files (<[upload := f]> (files w)) w1)
                           [Copied file_path upload])).
    { unfold copy2. subst w1. simpl files. by rewrite Hfile. }
    erewrite bindM_ret by exact Hcp.
    rewrite Hcopy. erewrite bindM_raise by apply run_throws.
    reflexivity.
  - unfold ret. cbn [trace after set_files]. unfold copy_command.
    fold upload. by rewrite <- !app_assoc.
  - unfold ret. cbn [files after set_files]. apply lookup_insert_eq.
Qed.

(** X11: once the transfer has run, its exit code and that of
    [rclone link] decide the result: a non-zero exit code of the transfer
    gives [None]; otherwise the stripped output of a successful
    [rclone link], the remote path when [rclone link] exits with an error, and
    [None] when it cannot be run. *)
Theorem upload_rclone_result (fuel k : nat) (file_path : string) (f : file)
    (code : Z) (w : world) :
  let chosen := candidate file_path k in
  files w !! file_path = Some f ->
  (forall j, (j < k)%nat -> reported cfg ext (candidate file_path j)) ->
  unreported cfg ext chosen ->
  (k < fuel)%nat ->
  rclone_copy ext (upload_path file_path k) (rclone_dest cfg) = Returns code ->
  fst (upload_rclone cfg ext fuel file_path w)
  = Ret (if code =? 0 then
           match rclone_link ext (base_path cfg +:+ "/" +:+ chosen) with
           | Returns (link_code, stdout) =>
               Some (if link_code =? 0 then strip stdout
                     else base_path cfg +:+ "/" +:+ chosen)
           | Throws _ => None
           end
         else None).
Proof.
  intros chosen Hfile Hrep Hun Hfuel Hcopy.
  rewrite (upload_rclone_run cfg ext fuel k file_path f code w) by done.
  cbn [fst]. unfold transfer_result, check_path. fold chosen.
  by destruct (code =? 0).
Qed.

(** X12: the search for a free name has no bound of its own: against a
    remote whose listing reports every name, [upload_rclone] is still looping
    however much fuel it is given. *)
Theorem upload_rclone_diverges (fuel : nat) (file_path : string) (f : file)
    (w : world) :
  files w !! file_path = Some f ->
  (forall file_name, reported cfg ext file_name) ->
  fst (upload_rclone cfg ext fuel file_path w) = OutOfFuel.
Proof.
  intros Hfile Hall. unfold upload_rclone.
  erewrite bindM_ret by by apply getsize_run.
  pose proof (pick_name_diverges cfg ext (splitext (basename file_path)) fuel
                Hall (basename file_path) 0%nat w) as Hloop.
  unfold try_except, bindM at 1.
  destruct (pick_name cfg ext fuel _ _ _ w) as [r1 w1].
  simpl in Hloop. by subst r1.
Qed.

End UploadEdges.

Section UploadEdgeExamples.
Import Uploader.

Lemma upload_rclone_contained_witness :
  let outcome := upload_rclone sample_cfg sample_ext 3 rom_path upload_world in
  (fst outcome = OutOfFuel \/ exists url, fst outcome = Ret url)
  /\ files (snd outcome) !! rom_path = Some (some_file 1610612736).
Proof.
  apply (upload_rclone_contained sample_cfg sample_ext 3 rom_path
           (some_file 1610612736) upload_world).
  - reflexivity.
  - apply surjective_pairing.
Defined.

Lemma upload_gofile_contained_witness :
  upload_gofile sample_ext rom_path upload_world
  = (Ret (Some "https://gofile.io/d/abc"),
     after upload_world
       [HttpGet "https://api.gofile.io/servers";
        HttpPostFile "https://store1.gofile.io/contents/uploadfile" rom_path]).
Proof.
  apply (upload_gofile_contained sample_ext rom_path (some_file 1610612736)
           upload_world).
  reflexivity.
Defined.

Lemma upload_file_missing_raises_witness :
  upload_file sample_cfg sample_ext 3 rom_path (world_after_build ∅ 0)
  = (Raise (Exception "FileNotFoundError"), world_after_build ∅ 0).
Proof. apply upload_file_missing_raises. reflexivity. Defined.

Lemma upload_file_never_empty_witness :
  exists s w',
    upload_file sample_cfg sample_ext 3 rom_path upload_world = (Ret s, w')
    /\ s <> "".
Proof.
  eexists _, _. split; [vm_compute; reflexivity|].
  eapply (upload_file_never_empty sample_cfg sample_ext 3 rom_path upload_world).
  vm_compute. reflexivity.
Defined.

Lemma upload_rclone_leaves_copy_witness :
  exists w',
    upload_rclone sample_cfg broken_copy_ext 3 rom_path upload_world
    = (Ret None, w')
    /\ files w'
         !! "/build/lineage/out/target/product/cancunf/lineage-22.1-cancunf (1).zip"
       = Some (some_file 1610612736).
Proof.
  destruct (upload_rclone_leaves_copy sample_cfg broken_copy_ext 3 0 rom_path
              (some_file 1610612736) "UnicodeDecodeError" upload_world)
    as (w' & Hrun & _ & _ & Hleft).
  - reflexivity.
  - intros j Hj. assert (j = 0%nat) as -> by lia.
    eexists. split; [vm_compute; reflexivity|vm_compute; reflexivity].
  - eexists _, _. split; [vm_compute; reflexivity|vm_compute; reflexivity].
  - lia.
  - reflexivity.
  - exists w'. split; [exact Hrun|exact Hleft].
Defined.

(** The transfer works, [rclone link] does not. *)
Definition no_link_ext : services := {|
  telegram := telegram sample_ext;
  gofile_servers := gofile_servers sample_ext;
  gofile_upload := gofile_upload sample_ext;
  rclone_lsf := rclone_lsf sample_ext;
  rclone_copy := rclone_copy sample_ext;
  rclone_link := fun _ => Returns (1, "")
|}.

Lemma upload_rclone_result_witness :
  fst (upload_rclone sample_cfg no_link_ext 3 rom_path upload_world)
  = Ret (Some "gdrive:roms/lineage-22.1-cancunf.zip").
Proof.
  apply (upload_rclone_result sample_cfg no_link_ext 3 0 rom_path
           (some_file 1610612736) 0 upload_world).
  - reflexivity.
  - intros j Hj. lia.
  - eexists _, _. split; [vm_compute; reflexivity|vm_compute; reflexivity].
  - lia.
  - reflexivity.
Defined.

(** A listing that answers every question with a name. *)
Definition full_ext : services := {|
  telegram := telegram sample_ext;
  gofile_servers := gofile_servers sample_ext;
  gofile_upload := gofile_upload sample_ext;
  rclone_lsf := fun _ => Returns (0, "lineage-22.1-cancunf.zip
");
  rclone_copy := rclone_copy sample_ext;
  rclone_link := rclone_link sample_ext
|}.

Lemma upload_rclone_diverges_witness :
  fst (upload_rclone sample_cfg full_ext 1000 rom_path upload_world)
  = OutOfFuel.
Proof.
  apply (upload_rclone_diverges sample_cfg full_ext 1000 rom_path
           (some_file 1610612736) upload_world).
  - reflexivity.
  - intros file_name. eexists. split; reflexivity.
Defined.

Lemma upload_rclone_never_reported_witness :
  exists new,
    trace (snd (upload_rclone sample_cfg crowded_ext 3 rom_path upload_world))
    = trace upload_world ++ new
    /\ forall up dest opts,
         Exec ("rclone" :: "copy" :: up :: dest :: opts) ∈ new ->
         unreported sample_cfg crowded_ext (basename up).
Proof.
  apply (upload_rclone_never_reported sample_cfg crowded_ext 3 rom_path
           (some_file 1610612736) upload_world _
           (fst (upload_rclone sample_cfg crowded_ext 3 rom_path upload_world)));
    [reflexivity|apply surjective_pairing].
Defined.

End UploadEdgeExamples.

(** ** Upload dispatcher: what [find_rom_zip] does not look at *)

Section FindRomZipMore.
Import Uploader.

Lemma candidates_kept (out_dir : list dirent) (pattern : string) :
  candidates
    (filter (fun f => not_ota_img f = true /\ big_enough f = true) out_dir)
    pattern
  = candidates out_dir pattern.
Proof.
  unfold candidates, glob.
  induction out_dir as [|f out_dir IH]; [done|].
  rewrite !filter_cons.
  destruct (fnmatch pattern (name f)) eqn:Hm, (not_ota_img f) eqn:Ho,
    (big_enough f) eqn:Hb;
    repeat (case_decide; try done; try tauto;
            repeat (rewrite filter_cons); rewrite ?Hm, ?Ho, ?Hb);
    try (by rewrite IH); try (by f_equal); destruct_and?; try congruence.
Qed.

(** X13: entries that are named "ota" or "img" or are not larger than
    500 MiB have no influence on the result, wherever they stand in the
    directory and however recent they are: the result is that of the
    directory without them. *)
Theorem find_rom_zip_ignores_excluded (out_dir : list dirent) :
  find_rom_zip
    (filter (fun f => not_ota_img f = true /\ big_enough f = true) out_dir)
  = find_rom_zip out_dir.
Proof.
  unfold find_rom_zip. induction rom_patterns as [|pattern patterns IH]; [done|].
  simpl. rewrite candidates_kept, IH. done.
Qed.

End FindRomZipMore.

(** ** Log poller: a growing log *)

Section GrowingLog.
Import Poller.

Lemma readlines_go_after_newline (n : nat) :
  forall (s cur more : string),
    (String.length s <= n)%nat ->
    readlines_go cur (s +:+ String LF more)
    = readlines_go cur (s +:+ String LF "") ++ readlines more.
Proof.
  induction n as [|n IH]; intros s cur more Hlen.
  - destruct s; [|simpl in Hlen; lia]. rewrite !app_empty_l. reflexivity.
  - destruct s as [|c s]; [rewrite !app_empty_l; reflexivity|].
    simpl in Hlen. rewrite !app_cons.
    cbn [readlines_go].
    destruct (ascii_dec c LF) as [->|Hlf].
    { rewrite (IH s) by lia. reflexivity. }
    destruct (ascii_dec c CR) as [->|Hcr]; [|apply IH; lia].
    destruct s as [|c' s].
    + rewrite !app_empty_l.
      destruct (ascii_dec LF LF); [reflexivity|done].
    + simpl in Hlen. rewrite !app_cons.
      destruct (ascii_dec c' LF) as [->|Hlf'].
      * rewrite (IH s) by lia. reflexivity.
      * rewrite <- !app_cons. rewrite (IH (String c' s)) by (simpl; lia).
        reflexivity.
Qed.

(** Text that follows a complete line is read as lines of its own. *)
Lemma readlines_after_newline (t more : string) :
  readlines ((t +:+ String LF "") +:+ more)
  = readlines (t +:+ String LF "") ++ readlines more.
Proof.
  unfold readlines. rewrite app_assoc_s.
  change (String LF "" +:+ more) with (String LF more).
  by apply (readlines_go_after_newline (String.length t)).
Qed.

Lemma scan_app (first rest : list string) :
  scan (first ++ rest)
  = match scan first with
    | Some progress => Some progress
    | None => scan rest
    end.
Proof.
  induction first as [|l first IH]; [done|]. simpl.
  by destruct (re_search l).
Qed.

(** X14: the progress follows a growing log.  When the log is text that ends
    with a complete line, appended text that contains no progress line
    leaves the extracted value as it was, and appended text that contains one
    decides the value alone, whatever came before; appended bytes that are
    not text, as when the writer is caught inside a character, make the
    value ["Initializing..."] until the text is whole again. *)
Theorem fetch_progress_follows_log (t more : string) :
  utf8 (t +:+ String LF "") = true ->
  (utf8 more = true ->
   Forall (fun l => ~ occurs l) (readlines more) ->
   fetch_progress (Readable ((t +:+ String LF "") +:+ more))
   = fetch_progress (Readable (t +:+ String LF "")))
  /\ (utf8 more = true ->
      Exists occurs (readlines more) ->
      fetch_progress (Readable ((t +:+ String LF "") +:+ more))
      = fetch_progress (Readable more))
  /\ (utf8 more = false ->
      fetch_progress (Readable ((t +:+ String LF "") +:+ more))
      = Ret "Initializing...").
Proof.
  intros Hlog.
  assert (Hwhole : utf8 ((t +:+ String LF "") +:+ more) = utf8 more)
    by by apply utf8_app.
  split; [|split].
  - intros Hmore Hnone.
    rewrite !fetch_progress_readable by congruence.
    rewrite readlines_after_newline, rev_app_distr, scan_app.
    rewrite scan_none; [done|]. by apply Forall_rev_iff.
  - intros Hmore Hsome.
    rewrite !fetch_progress_readable by congruence.
    rewrite readlines_after_newline, rev_app_distr, scan_app.
    destruct (scan_cases (rev (readlines more))) as [[_ Hnone]|(s & -> & _)];
      [|done].
    apply (proj1 (Forall_rev_iff _ _)) in Hnone.
    apply Exists_exists in Hsome as (l & Hin & Hl).
    rewrite Forall_forall in Hnone. by destruct (Hnone l Hin).
  - intros Hmore. apply fetch_progress_not_text. congruence.
Qed.

(** The second digit of [٥٥] has its first byte only. *)
Definition half_written : string :=
  "[ ٥" +:+ String (ascii_of_N 217) "".

Lemma fetch_progress_follows_log_witness :
  fetch_progress
    (Readable (("[ 10% 100/1000] a" +:+ String LF "") +:+ "ninja: waiting
"))
  = fetch_progress (Readable ("[ 10% 100/1000] a" +:+ String LF ""))
  /\ fetch_progress
       (Readable (("[ 10% 100/1000] a" +:+ String LF "") +:+ "[ ٥٥% 550/1000] b
"))
     = fetch_progress (Readable "[ ٥٥% 550/1000] b
")
  /\ fetch_progress
       (Readable (("[ 10% 100/1000] a" +:+ String LF "") +:+ half_written))
     = Ret "Initializing...".
Proof.
  split; [|split].
  - apply (fetch_progress_follows_log "[ 10% 100/1000] a" "ninja: waiting
"); [reflexivity|reflexivity|].
    repeat constructor. apply re_search_none. reflexivity.
  - apply (fetch_progress_follows_log "[ 10% 100/1000] a" "[ ٥٥% 550/1000] b
"); [reflexivity|reflexivity|].
    left. apply re_search_occurs. vm_compute. by eexists.
  - apply (fetch_progress_follows_log "[ 10% 100/1000] a" half_written);
      reflexivity.
Defined.

End GrowingLog.

(** * More of [ci_bot.py] *)

(** ** [main]: the old logs, the build command, the duration *)

Module Main.
Section WithConfig.
Context (cfg : config).

(** [for log_file in paths: if os.path.exists(log_file): os.remove(log_file)] *)
Definition remove_stale (paths : list string) : M unit :=
  for_each paths (fun log_file =>
    let* present := path_exists log_file in
    when present (remove log_file)).

(** The ["Cleanup old logs"] loop; the first two paths are relative to the
    working directory, like the [error_log] the check reads after the build. *)
Definition cleanup_old_logs : M unit :=
  remove_stale ["out/error.log"; "out/.lock"; Runner.BUILD_LOG cfg].

(** [s.split(sep)] for a one-character separator; [cur] is the piece being
    read, most recent character first. *)
Fixpoint split_go (sep : ascii) (cur : string) (s : string) : list string :=
  match s with
  | EmptyString => [String.rev cur]
  | String c s' =>
      if is_char sep c then String.rev cur :: split_go sep EmptyString s'
      else split_go sep (String c cur) s'
  end.

Definition split (sep : ascii) (s : string) : list string :=
  split_go sep EmptyString s.

(** [xs[i]] *)
Definition index {A} (xs : list A) (i : nat) : result A :=
  match xs !! i with
  | Some x => Ret x
  | None => Raise (Exception "IndexError")
  end.

Definition env_cmd : string := ". build/envsetup.sh".

(** The ["Determine build command"] statement. *)
Definition build_cmd : result string :=
  if startswith "axion-" (ROM_TYPE cfg) then
    bind (index (split "-" (ROM_TYPE cfg)) 1) (fun gms_type =>
      let gms_variant :=
        if String.eqb gms_type "vanilla" then "vanilla"
        else "gms " +:+ gms_type in
      Ret (env_cmd +:+ " && axion " +:+ DEVICE cfg +:+ " " +:+ VARIANT cfg
           +:+ " " +:+ gms_variant +:+ " && ax -br"))
  else
    Ret (env_cmd +:+ " && brunch " +:+ DEVICE cfg +:+ " " +:+ VARIANT cfg).

End WithConfig.

(** ["Format build duration"]: [//] and [%] round towards minus infinity,
    as [Z.div] and [Z.modulo] do for a positive divisor. *)
Definition hours (build_duration : Z) : Z := build_duration / 3600.

Definition minutes (build_duration : Z) : Z := (build_duration mod 3600) / 60.

Definition seconds (build_duration : Z) : Z := build_duration mod 60.

End Main.

(** ** [tail_build_log] *)

Module Tail.





End Tail.

(** ** Properties of [main]'s steps *)

Section MainFacts.
Context (cfg : config).
Import Main.

(** X15: the duration shown in the final message adds up to the measured
    one: hours, minutes and seconds recompose the number of seconds, with
    minutes and seconds in [0, 60), also for a negative difference of the two
    clock readings. *)
Theorem duration_recomposes (build_duration : Z) :
  hours build_duration * 3600 + minutes build_duration * 60
  + seconds build_duration = build_duration
  /\ 0 <= minutes build_duration < 60
  /\ 0 <= seconds build_duration < 60
  /\ (0 <= build_duration -> 0 <= hours build_duration).
Proof.
  unfold hours, minutes, seconds.
  pose proof (Z.div_mod build_duration 3600 ltac:(lia)) as H1.
  pose proof (Z.mod_pos_bound build_duration 3600 ltac:(lia)) as H2.
  pose proof (Z.div_mod (build_duration mod 3600) 60 ltac:(lia)) as H3.
  pose proof (Z.mod_pos_bound (build_duration mod 3600) 60 ltac:(lia)) as H4.
  pose proof (Z.div_mod build_duration 60 ltac:(lia)) as H5.
  pose proof (Z.mod_pos_bound build_duration 60 ltac:(lia)) as H6.
  repeat split; lia.
Qed.

Lemma remove_stale_run (paths : list string) (w : world) :
  remove_stale paths w
  = (Ret tt,
     after (set_files (fst (sweep paths (files w))) w)
       (snd (sweep paths (files w)))).
Proof.
  revert w. unfold remove_stale.
  induction paths as [|p paths IH]; intros w; cbn [for_each sweep].
  - unfold ret. f_equal. destruct w. unfold after, set_files. simpl.
    by rewrite app_nil_r.
  - unfold bindM at 1. unfold bindM at 1. rewrite path_exists_run.
    destruct (bool_decide _) eqn:Hp.
    + apply bool_decide_eq_true in Hp as [f Hf].
      unfold when, remove. rewrite Hf. rewrite IH. simpl files.
      destruct (sweep _ _) as [fs' evs]. cbn [fst snd].
      unfold after, set_files, emit. simpl. by rewrite <- app_assoc.
    + unfold when, ret. rewrite IH. done.
Qed.

(** X16: the cleanup of old logs that precedes the build never fails and
    leaves no error log behind, so that the check made after the build cannot
    fail on an error log left by an earlier run: from the world it leaves,
    [build_failed] answers false.  The lock file and the build log are gone as
    well, and no other file is touched. *)
Theorem cleanup_old_logs_resets (w : world) :
  exists w',
    cleanup_old_logs cfg w = (Ret tt, w')
    /\ Runner.build_failed w' = (Ret false, w')
    /\ forall p,
         files w' !! p
         = if bool_decide
                (p ∈ ["out/error.log"; "out/.lock"; Runner.BUILD_LOG cfg])
           then None else files w !! p.
Proof.
  unfold cleanup_old_logs. rewrite remove_stale_run.
  eexists. split; [reflexivity|].
  assert (Hlook : forall p,
            files (after (set_files
                     (fst (sweep ["out/error.log"; "out/.lock";
                                  Runner.BUILD_LOG cfg] (files w))) w)
                     (snd (sweep ["out/error.log"; "out/.lock";
                                  Runner.BUILD_LOG cfg] (files w)))) !! p
            = if bool_decide
                   (p ∈ ["out/error.log"; "out/.lock"; Runner.BUILD_LOG cfg])
              then None else files w !! p).
  { intros p. apply sweep_lookup. }
  split; [|exact Hlook].
  unfold Runner.build_failed, bindM. rewrite path_exists_run.
  unfold Runner.error_log. rewrite Hlook.
  rewrite (bool_decide_true ("out/error.log" ∈ _)) by set_solver.
  by rewrite bool_decide_false by by intros [? [=]].
Qed.

Lemma rev_app_rev_app (t a b : string) :
  String.rev_app (String.rev_app t a) b = String.rev_app a (t +:+ b).
Proof.
  revert a b. induction t as [|c t IH]; intros a b; [done|].
  simpl. rewrite IH. by rewrite app_cons.
Qed.

Lemma rev_app_append (b x t : string) :
  String.rev_app b (x +:+ t) = String.rev_app b x +:+ t.
Proof.
  revert x. induction b as [|c b IH]; intros x; [done|].
  simpl. by rewrite <- IH.
Qed.

Lemma rev_rev_app (t b : string) :
  String.rev (String.rev_app t b) = String.rev b +:+ t.
Proof.
  unfold String.rev. rewrite rev_app_rev_app, app_empty_r.
  by rewrite <- rev_app_append.
Qed.

Definition sep_free (sep : ascii) (s : string) : Prop :=
  all_chars (fun c => negb (is_char sep c)) s = true.

(** A piece without separator is read whole. *)
Lemma split_go_piece (sep : ascii) (t cur rest : string) :
  sep_free sep t ->
  split_go sep cur (t +:+ rest) = split_go sep (String.rev_app t cur) rest.
Proof.
  unfold sep_free. revert cur. induction t as [|c t IH]; intros cur; [done|].
  cbn [all_chars]. intros [Hc Ht]%andb_true_iff.
  rewrite app_cons. cbn [split_go String.rev_app].
  apply negb_true_iff in Hc. rewrite Hc. by apply IH.
Qed.

Lemma split_go_nonempty (sep : ascii) (cur s : string) :
  exists piece pieces, split_go sep cur s = piece :: pieces.
Proof.
  revert cur. induction s as [|c s IH]; intros cur; simpl; [by eexists _, _|].
  destruct (is_char sep c); [by eexists _, _|apply IH].
Qed.

Lemma startswith_spec (p s : string) :
  startswith p s = true -> exists r, s = p +:+ r.
Proof.
  revert s. induction p as [|a p IH]; intros s; [by exists s|].
  destruct s as [|b s]; [done|]. simpl.
  destruct (ascii_dec a b) as [->|]; [|done].
  intros [r ->]%IH. by exists r.
Qed.

(** X17: the build command is always defined: when [ROM_TYPE] starts with
    ["axion-"] its second dash-separated piece exists, so the indexing cannot
    fail.  That piece, the text between the first dash and the next one (or
    the end), selects the variant: ["vanilla"] as it is, anything else after
    ["gms "]; what follows a second dash is ignored. *)
Theorem build_cmd_defined :
  (exists cmd, build_cmd cfg = Ret cmd)
  /\ forall gms_type rest,
       ROM_TYPE cfg = "axion-" +:+ gms_type +:+ rest ->
       sep_free "-" gms_type ->
       rest = "" \/ startswith "-" rest = true ->
       build_cmd cfg
       = Ret (". build/envsetup.sh && axion " +:+ DEVICE cfg +:+ " "
              +:+ VARIANT cfg +:+ " "
              +:+ (if String.eqb gms_type "vanilla" then "vanilla"
                   else "gms " +:+ gms_type)
              +:+ " && ax -br").
Proof.
  split.
  - unfold build_cmd.
    destruct (startswith "axion-" (ROM_TYPE cfg)) eqn:Hax; [|by eexists].
    apply startswith_spec in Hax as [r ->].
    assert (Hsplit : exists piece pieces,
              split "-" ("axion-" +:+ r) = "axion" :: piece :: pieces).
    { destruct (split_go_nonempty "-" "" r) as (piece & pieces & Hr).
      exists piece, pieces. unfold split.
      change ("axion-" +:+ r) with ("axion" +:+ String "-" r).
      rewrite split_go_piece by done. simpl. by rewrite Hr. }
    destruct Hsplit as (piece & pieces & ->). by eexists.
  - intros gms_type rest Htype Hfree Hrest. unfold build_cmd. rewrite Htype.
    change (startswith "axion-" ("axion-" +:+ gms_type +:+ rest)) with true.
    cbv iota.
    assert (Hsplit : exists pieces,
              split "-" ("axion-" +:+ gms_type +:+ rest)
              = "axion" :: gms_type :: pieces).
    { unfold split.
      change ("axion-" +:+ gms_type +:+ rest)
        with ("axion" +:+ String "-" (gms_type +:+ rest)).
      rewrite split_go_piece by done. simpl.
      rewrite split_go_piece by done.
      destruct Hrest as [->|Hdash].
      - exists []. simpl. f_equal.
        by rewrite rev_rev_app.
      - apply startswith_spec in Hdash as [r ->].
        change ("-" +:+ r) with (String "-" r). simpl.
        eexists. f_equal. by rewrite rev_rev_app. }
    destruct Hsplit as (pieces & ->). reflexivity.
Qed.

End MainFacts.

Definition axion_cfg : config := {|
  DEVICE := "cancunf";
  VARIANT := "userdebug";
  CONFIG_OFFICIAL_FLAG := "";
  ROM_TYPE := "axion-pico";
  CONFIG_CHATID := "-100123";
  CONFIG_BOT_TOKEN := "token";
  CONFIG_ERROR_CHATID := "-100456";
  RCLONE_REMOTE := "";
  RCLONE_FOLDER := "";
  POWEROFF := false;
  ROOT_DIRECTORY := "/build/axion";
  ROM_NAME := "AxionAOSP";
  ANDROID_VERSION := "15";
  OUT_DIR := "/build/axion/out/target/product/cancunf"
|}.

Lemma build_cmd_defined_witness :
  Main.build_cmd axion_cfg
  = Ret ". build/envsetup.sh && axion cancunf userdebug gms pico && ax -br".
Proof.
  apply (proj2 (build_cmd_defined axion_cfg) "pico" ""); [reflexivity..|].
  by left.
Defined.

(** ** [tail_build_log] on a log that grows *)

Section TailFacts.
Import Poller Tail.








End TailFacts.

(** ** [main]: ROM name and Android version from the manifest *)

Module Manifest.

(** [re.search] with a pattern given by its matcher at a fixed position: the
    leftmost position at which it matches. *)
Fixpoint search {A} (here : string -> option A) (s : string) : option A :=
  match here s with
  | Some a => Some a
  | None =>
      match s with
      | EmptyString => None
      | String _ s' => search here s'
      end
  end.

(** What follows the literal [p] at the head of [s]. *)
Fixpoint strip_prefix (p s : string) : option string :=
  match p, s with
  | EmptyString, _ => Some s
  | String a p', String b s' =>
      if ascii_dec a b then strip_prefix p' s' else None
  | String _ _, EmptyString => None
  end.

(** The longest prefix of characters in the class [p], and what follows. *)
Fixpoint span (p : ascii -> bool) (s : string) : string * string :=
  match s with
  | EmptyString => (EmptyString, EmptyString)
  | String c s' =>
      if p c then let '(d, r) := span p s' in (String c d, r)
      else (EmptyString, s)
  end.

Definition quote : ascii := "034"%char.

(** The literal [revision=], a double quote, [refs/tags/android-]. *)
Definition revision_tag : string :=
  "revision=" +:+ String quote "refs/tags/android-".

(** [revision_tag], then [(\d+)\.], at the head of [s]: group 1. *)
Definition revision_here (s : string) : option string :=
  match strip_prefix revision_tag s with
  | Some r =>
      let '(version, r1) := Poller.span_digits r in
      if truthy version then
        match strip_prefix "." r1 with
        | Some _ => Some version
        | None => None
        end
      else None
  | None => None
  end.

(** [android-(\d+)\.\d+\.\d+] at the head of [s]: group 1. *)
Definition release_here (s : string) : option string :=
  match strip_prefix "android-" s with
  | Some r =>
      let '(version, r1) := Poller.span_digits r in
      if truthy version then
        match strip_prefix "." r1 with
        | Some r2 =>
            let '(minor, r3) := Poller.span_digits r2 in
            if truthy minor then
              match strip_prefix "." r3 with
              | Some r4 =>
                  let '(patch, _) := Poller.span_digits r4 in
                  if truthy patch then Some version else None
              | None => None
              end
            else None
        | None => None
        end
      else None
  | None => None
  end.

(** [with open(default_manifest, 'r') as f: content = f.read()] *)
Definition read (f : Poller.log_file) : result string :=
  match f with
  | Poller.Missing => Raise (Exception "FileNotFoundError")
  | Poller.Unreadable => Raise (Exception "OSError")
  | Poller.Readable bytes => decode bytes
  end.

(** [detect_android_version], given what is found at
    [.repo/manifests/default.xml]; an inner [return] is a [Some]. *)
Definition detect_android_version (default_manifest : Poller.log_file)
  : result string :=
  bind
    (if Poller.exists_ default_manifest then
       try_bare
         (bind (read default_manifest) (fun content =>
            match search revision_here content with
            | Some version => Ret (Some version)
            | None =>
                match search release_here content with
                | Some version => Ret (Some version)
                | None => Ret None
                end
            end))
         (Ret None)
     else Ret None)
    (fun returned =>
       match returned with
       | Some version => Ret version
       | None => Ret "Unknown"
       end).

(** [github\.com[:/]([^/]+)] at the head of [s]: group 1. *)
Definition org_here (s : string) : option string :=
  match strip_prefix "github.com" s with
  | Some (String c r) =>
      if is_char ":" c || is_char "/" c then
        let '(org, _) := span (fun x => negb (is_char "/" x)) r in
        if truthy org then Some org else None
      else None
  | _ => None
  end.

(** The step that gets the ROM info from the manifest repository: the new values of
    [ROM_NAME] and [GITHUB_ORG_AVATAR], which start as [rom_name] (the name of
    the working directory) and the empty string.  [manifest_repo] tells
    whether [.repo/manifests] exists, [git] what
    [git -C .repo/manifests remote get-url origin] comes to. *)
Definition detect_rom (rom_name : string) (manifest_repo : bool)
    (git : outcome (Z * string)) : string * string :=
  if manifest_repo then
    match git with
    | Returns (returncode, stdout) =>
        if returncode =? 0 then
          match search org_here (strip stdout) with
          | Some github_org =>
              (github_org,
               "https://github.com/" +:+ github_org +:+ ".png?size=200")
          | None => (rom_name, EmptyString)
          end
        else (rom_name, EmptyString)
    | Throws _ => (rom_name, EmptyString)
    end
  else (rom_name, EmptyString).

End Manifest.

Section ManifestFacts.
Import Poller Manifest.

Lemma strip_prefix_app (p s : string) : strip_prefix p (p +:+ s) = Some s.
Proof.
  induction p as [|c p IH]; [by destruct s|].
  rewrite app_cons. simpl. by destruct (ascii_dec c c).
Qed.

Lemma strip_prefix_Some (p s r : string) :
  strip_prefix p s = Some r -> s = p +:+ r.
Proof.
  revert s. induction p as [|c p IH]; intros s; simpl.
  - by intros [= ->].
  - destruct s as [|b s]; [done|].
    destruct (ascii_dec c b) as [->|]; [|done].
    intros H. rewrite app_cons. f_equal. by apply IH.
Qed.

(** A match found by [search] is a match at some position. *)
Lemma search_sound {A} (here : string -> option A) (s : string) (a : A) :
  search here s = Some a ->
  exists pre rest, s = pre +:+ rest /\ here rest = Some a.
Proof.
  induction s as [|c s IH]; simpl; destruct (here _) eqn:Hh.
  - intros [= <-]. by exists "", "".
  - done.
  - intros [= <-]. by exists "", (String c s).
  - intros H. destruct (IH H) as (pre & rest & -> & Hr).
    exists (String c pre), rest. by rewrite app_cons.
Qed.

(** A match at some position makes [search] find one. *)
Lemma search_complete {A} (here : string -> option A) (pre rest : string)
    (a : A) :
  here rest = Some a -> is_Some (search here (pre +:+ rest)).
Proof.
  intros H. induction pre as [|c pre IH].
  - rewrite app_empty_l. destruct rest; simpl; rewrite H; by eexists.
  - rewrite app_cons. cbn [search].
    destruct (here (String c (pre +:+ rest))); [by eexists|exact IH].
Qed.

Lemma search_skip {A} (here : string -> option A) (c : ascii) (s : string) :
  here (String c s) = None -> search here (String c s) = search here s.
Proof. intros H. cbn [search]. by rewrite H. Qed.

Lemma search_here {A} (here : string -> option A) (s : string) (a : A) :
  here s = Some a -> search here s = Some a.
Proof. intros H. destruct s; cbn [search]; by rewrite H. Qed.

Lemma span_spec (p : ascii -> bool) (s d r : string) :
  span p s = (d, r) -> s = d +:+ r /\ all_chars p d = true.
Proof.
  revert d r. induction s as [|c s IH]; intros d r; simpl.
  - intros [= <- <-]. done.
  - destruct (p c) eqn:Hc.
    + destruct (span p s) as [d' r'] eqn:Hs. intros [= <- <-].
      destruct (IH d' r' eq_refl) as (-> & Hd).
      rewrite app_cons. simpl. by rewrite Hc, Hd.
    + intros [= <- <-]. done.
Qed.

(** A run of the class in front of a character outside it, or of the end,
    is taken whole. *)
Lemma span_app (p : ascii -> bool) (d r : string) :
  all_chars p d = true ->
  match r with String c _ => p c = false | EmptyString => True end ->
  span p (d +:+ r) = (d, r).
Proof.
  intros Hd Hr. induction d as [|c d IH].
  - rewrite app_empty_l. destruct r as [|c r]; [done|]. simpl. by rewrite Hr.
  - simpl in Hd. apply andb_true_iff in Hd as [Hc Hd].
    rewrite app_cons. simpl. rewrite Hc. by rewrite (IH Hd).
Qed.

(** [content] holds a revision tag of major version [v]. *)
Definition has_revision (content v : string) : Prop :=
  exists pre post,
    content = pre +:+ revision_tag +:+ v +:+ "." +:+ post /\ digits v.

(** [content] holds a release name [android-v.minor.patch]. *)
Definition has_release (content v : string) : Prop :=
  exists pre minor patch post,
    content
    = pre +:+ "android-" +:+ v +:+ "." +:+ minor +:+ "." +:+ patch +:+ post
    /\ digits v /\ digits minor /\ digits patch.

Lemma revision_here_sound (s v : string) :
  revision_here s = Some v ->
  exists post, s = revision_tag +:+ v +:+ "." +:+ post /\ digits v.
Proof.
  unfold revision_here.
  destruct (strip_prefix revision_tag s) as [r|] eqn:Hp; [|done].
  destruct (span_digits r) as [d r1] eqn:Hs.
  destruct (truthy d) eqn:Ht; [|done].
  destruct (strip_prefix "." r1) as [post|] eqn:Hdot; [|done].
  intros [= <-]. exists post.
  apply strip_prefix_Some in Hp as ->. apply strip_prefix_Some in Hdot as ->.
  by destruct (span_digits_spec _ _ _ Hs) as (-> & Hd & _).
Qed.

Lemma no_digit_ahead_dot (s : string) : no_digit_ahead ("." +:+ s).
Proof. by rewrite app_cons. Qed.

Lemma revision_here_complete (v post : string) :
  digits v -> revision_here (revision_tag +:+ v +:+ "." +:+ post) = Some v.
Proof.
  intros [Ht Hd]. unfold revision_here. rewrite strip_prefix_app.
  rewrite (span_digits_app _ _ Hd (no_digit_ahead_dot _)).
  cbv beta iota. by rewrite Ht, strip_prefix_app.
Qed.

Lemma release_here_sound (s v : string) :
  release_here s = Some v ->
  exists minor patch post,
    s = "android-" +:+ v +:+ "." +:+ minor +:+ "." +:+ patch +:+ post
    /\ digits v /\ digits minor /\ digits patch.
Proof.
  unfold release_here.
  destruct (strip_prefix "android-" s) as [r|] eqn:Hp; [|done].
  destruct (span_digits r) as [d r1] eqn:Hs.
  destruct (truthy d) eqn:Ht; [|done].
  destruct (strip_prefix "." r1) as [r2|] eqn:Hdot; [|done].
  destruct (span_digits r2) as [minor r3] eqn:Hs2.
  destruct (truthy minor) eqn:Ht2; [|done].
  destruct (strip_prefix "." r3) as [r4|] eqn:Hdot2; [|done].
  destruct (span_digits r4) as [patch post] eqn:Hs3.
  destruct (truthy patch) eqn:Ht3; [|done].
  intros [= <-]. exists minor, patch, post.
  apply strip_prefix_Some in Hp as ->. apply strip_prefix_Some in Hdot as ->.
  apply strip_prefix_Some in Hdot2 as ->.
  destruct (span_digits_spec _ _ _ Hs) as (-> & Hd & _).
  destruct (span_digits_spec _ _ _ Hs2) as (-> & Hd2 & _).
  by destruct (span_digits_spec _ _ _ Hs3) as (-> & Hd3 & _).
Qed.

Lemma release_here_complete (v minor patch post : string) :
  digits v -> digits minor -> digits patch ->
  release_here
    ("android-" +:+ v +:+ "." +:+ minor +:+ "." +:+ patch +:+ post)
  = Some v.
Proof.
  intros [Ht Hd] [Ht2 Hd2] [Ht3 Hd3]. unfold release_here.
  rewrite strip_prefix_app.
  rewrite (span_digits_app _ _ Hd (no_digit_ahead_dot _)).
  cbv beta iota. rewrite Ht, strip_prefix_app.
  rewrite (span_digits_app _ _ Hd2 (no_digit_ahead_dot _)).
  cbv beta iota. rewrite Ht2, strip_prefix_app.
  rewrite (span_digits_more _ _ Hd3).
  destruct (span_digits post) as [more rest]. cbn [fst snd].
  by rewrite (truthy_app_l _ _ Ht3).
Qed.

(** X19 ([detect_android_version]): the detection never raises.  A manifest
    that is missing, cannot be read or is not text gives ["Unknown"].  Of a
    manifest that is read, the answer is the major version of a revision tag
    [revision=<quote>refs/tags/android-<v>.] when the text holds one, whatever
    else it holds; without one it is the major version of a release name
    [android-<v>.<minor>.<patch>] when the text holds one; and ["Unknown"]
    when it holds neither.  The numbers are runs of decimal digits of any
    script, as [\d+] has them. *)
Theorem detect_android_version_answer (default_manifest : log_file) :
  exists version,
    detect_android_version default_manifest = Ret version
    /\ match default_manifest with
       | Readable content =>
           if utf8 content then
             ((exists v, has_revision content v) ->
              has_revision content version)
             /\ (~ (exists v, has_revision content v) ->
                 (exists v, has_release content v) ->
                 has_release content version)
             /\ (~ (exists v, has_revision content v) ->
                 ~ (exists v, has_release content v) ->
                 version = "Unknown")
           else version = "Unknown"
       | Missing | Unreadable => version = "Unknown"
       end.
Proof.
  destruct default_manifest as [| |content]; [by exists "Unknown"..|].
  unfold detect_android_version. cbn [exists_ read]. unfold decode.
  destruct (utf8 content); [|by exists "Unknown"].
  cbn [bind try_bare].
  assert (Hrev : forall v, search revision_here content = Some v ->
                           has_revision content v).
  { intros v (pre & rest & -> & Hr)%search_sound.
    apply revision_here_sound in Hr as (post & -> & Hv).
    by exists pre, post. }
  assert (Hrel : forall v, search release_here content = Some v ->
                           has_release content v).
  { intros v (pre & rest & -> & Hr)%search_sound.
    apply release_here_sound in Hr as (minor & patch & post & -> & Hv).
    by exists pre, minor, patch, post. }
  assert (Hno_rev : search revision_here content = None ->
                    ~ exists v, has_revision content v).
  { intros Hnone (v & pre & post & -> & Hv).
    destruct (search_complete revision_here pre _ v
                (revision_here_complete v post Hv)) as [x Hx].
    congruence. }
  assert (Hno_rel : search release_here content = None ->
                    ~ exists v, has_release content v).
  { intros Hnone (v & pre & minor & patch & post & -> & Hv & Hm & Hp).
    destruct (search_complete release_here pre _ v
                (release_here_complete v minor patch post Hv Hm Hp))
      as [x Hx].
    congruence. }
  destruct (search revision_here content) as [v|] eqn:Hs.
  { exists v. split; [done|]. split; [by intros _; apply Hrev|].
    split; intros Hn; destruct Hn; exists v; by apply Hrev. }
  destruct (search release_here content) as [v|] eqn:Hs2.
  { exists v. split; [done|]. split; [by intros H; destruct Hno_rev|].
    split; [by intros _ _; apply Hrel|].
    intros _ Hn. destruct Hn. exists v. by apply Hrel. }
  exists "Unknown". split; [done|].
  split; [by intros H; destruct Hno_rev|].
  split; [by intros _ H; destruct Hno_rel|done].
Qed.

Lemma org_here_sound (s org : string) :
  org_here s = Some org ->
  exists c rest,
    s = "github.com" +:+ String c (org +:+ rest)
    /\ (c = ":"%char \/ c = "/"%char)
    /\ truthy org = true /\ slash_free org.
Proof.
  unfold org_here.
  destruct (strip_prefix "github.com" s) as [[|c r]|] eqn:Hp; [done| |done].
  destruct (is_char ":" c || is_char "/" c) eqn:Hc; [|done].
  destruct (span _ r) as [d rest] eqn:Hs.
  destruct (truthy d) eqn:Ht; [|done].
  intros [= <-]. exists c, rest.
  apply strip_prefix_Some in Hp as ->.
  destruct (span_spec _ _ _ _ Hs) as (-> & Hd).
  split; [done|]. split; [|done].
  apply orb_true_iff in Hc as [Hc|Hc]; apply is_char_true in Hc; auto.
Qed.

Lemma org_here_complete (c : ascii) (org rest : string) :
  c = ":"%char \/ c = "/"%char ->
  truthy org = true -> slash_free org ->
  rest = "" \/ startswith "/" rest = true ->
  org_here ("github.com" +:+ String c (org +:+ rest)) = Some org.
Proof.
  intros Hc Ht Hfree Hrest. unfold org_here. rewrite strip_prefix_app.
  replace (is_char ":" c || is_char "/" c) with true
    by (by destruct Hc as [->| ->]).
  rewrite (span_app _ org rest Hfree).
  - by rewrite Ht.
  - destruct Hrest as [->|Hrest]; [done|].
    apply startswith_spec in Hrest as [r ->]. by rewrite app_cons.
Qed.

(** X20 ([main], ROM name): for the two documented forms of the manifest
    remote, [https://github.com/ORG/REPO] and [git@github.com:ORG/REPO], where
    the organisation is not empty and has no slash and is followed by a slash
    or by the end of git's stripped output, the ROM name becomes the
    organisation and the avatar the organisation's picture on GitHub. *)
Theorem detect_rom_documented_forms (rom_name stdout org rest : string) :
  truthy org = true -> slash_free org ->
  rest = "" \/ startswith "/" rest = true ->
  strip stdout = "https://github.com/" +:+ org +:+ rest
  \/ strip stdout = "git@github.com:" +:+ org +:+ rest ->
  detect_rom rom_name true (Returns (0, stdout))
  = (org, "https://github.com/" +:+ org +:+ ".png?size=200").
Proof.
  intros Ht Hfree Hrest Hurl. unfold detect_rom. cbn [Z.eqb].
  assert (Hfound : search org_here (strip stdout) = Some org).
  { destruct Hurl as [-> | ->].
    - pose proof (org_here_complete "/" org rest (or_intror eq_refl)
                    Ht Hfree Hrest) as Hhere.
      change ("https://github.com/" +:+ org +:+ rest)
        with ("https://" +:+ "github.com" +:+ String "/" (org +:+ rest)).
      set (tail := "github.com" +:+ _) in *. rewrite !app_cons, app_empty_l.
      do 8 (rewrite search_skip by reflexivity). by apply search_here.
    - pose proof (org_here_complete ":" org rest (or_introl eq_refl)
                    Ht Hfree Hrest) as Hhere.
      change ("git@github.com:" +:+ org +:+ rest)
        with ("git@" +:+ "github.com" +:+ String ":" (org +:+ rest)).
      set (tail := "github.com" +:+ _) in *. rewrite !app_cons, app_empty_l.
      do 4 (rewrite search_skip by reflexivity). by apply search_here. }
  by rewrite Hfound.
Qed.

(** X21 ([main], ROM name): the ROM name and the avatar change together or not
    at all.  Either both keep their defaults, the name of the working
    directory and no avatar, or git returned 0 and its stripped output holds
    [github.com] followed by [:] or [/] and the new name, which is not empty
    and has no slash, and the avatar is that name's picture on GitHub. *)
Theorem detect_rom_all_or_nothing (rom_name : string) (manifest_repo : bool)
    (git : outcome (Z * string)) :
  detect_rom rom_name manifest_repo git = (rom_name, "")
  \/ exists stdout pre c org rest,
       manifest_repo = true /\ git = Returns (0, stdout)
       /\ strip stdout = pre +:+ "github.com" +:+ String c (org +:+ rest)
       /\ (c = ":"%char \/ c = "/"%char)
       /\ truthy org = true /\ slash_free org
       /\ detect_rom rom_name manifest_repo git
          = (org, "https://github.com/" +:+ org +:+ ".png?size=200").
Proof.
  unfold detect_rom. destruct manifest_repo; [|by left].
  destruct git as [[returncode stdout]|e]; [|by left].
  destruct (Z.eqb_spec returncode 0) as [->|]; [|by left].
  destruct (search org_here (strip stdout)) as [org|] eqn:Hs; [|by left].
  right. apply search_sound in Hs as (pre & here & Hurl & Hhere).
  apply org_here_sound in Hhere as (c & rest & -> & Hc & Ht & Hfree).
  by exists stdout, pre, c, org, rest.
Qed.

End ManifestFacts.

Section ManifestExamples.
Import Poller Manifest.

Lemma detect_rom_documented_forms_witness :
  detect_rom "axion" true
    (Returns (0, "git@github.com:AxionAOSP/android" +:+ String LF ""))
  = ("AxionAOSP", "https://github.com/AxionAOSP.png?size=200").
Proof.
  apply (detect_rom_documented_forms "axion" _ "AxionAOSP" "/android");
    [reflexivity|reflexivity|right; reflexivity|right; reflexivity].
Defined.

End ManifestExamples.

(** ** Text beyond ASCII *)

Section TextExamples.
Import Poller Manifest.

(** A progress line written with Arabic-Indic digits is a progress line. *)
Example fetch_progress_any_script :
  fetch_progress (Readable "[ ٥٥% ٥٥٠/١٠٠٠] //art/runtime:libart
")
  = Ret "٥٥% (٥٥٠/١٠٠٠)".
Proof. vm_compute. reflexivity. Qed.

(** So is a version number in a manifest. *)
Example detect_android_version_any_script :
  detect_android_version
    (Readable ("<default " +:+ revision_tag +:+ "١٦.0.0_r1" +:+ String quote "/>"))
  = Ret "١٦".
Proof. vm_compute. reflexivity. Qed.

(** U+00A0, the no-break space. *)
Definition NBSP : string := String (ascii_of_N 194) (String (ascii_of_N 160) "").

(** A listing made of no-break spaces is blank. *)
Example strip_no_break_space :
  strip (NBSP +:+ "  " +:+ NBSP +:+ String LF "") = ""
  /\ strip (NBSP +:+ "a" +:+ NBSP +:+ "b " +:+ NBSP) = "a" +:+ NBSP +:+ "b".
Proof. split; vm_compute; reflexivity. Qed.

End TextExamples.
